(** * Haven Game Credits storefront: cart, pricing, member session, checkout

    A shallow embedding of the logic-bearing parts of the storefront:

    - [src/hooks/useCart.ts]            (module [Cart]),
    - [src/components/MenuItemCard.tsx] (module [Catalog]),
    - [src/context/MemberAuthContext.tsx] (module [Auth]),
    - the checkout component           (module [Checkout]).

    React state is modelled by explicit state passing: a functional update
    [setX(prev => f prev)] is the function [f]; a handler that calls several
    setters is a function on a record of the state cells.  JavaScript
    [number]s that hold money are rationals ([Q]), quantities are integers
    ([Z]); an optional property [p?: T] is an [option T], and a tier price,
    which a row may hold as [null] as well, is a [JS.Optional].  Strings
    are sequences of code units below 256 ([string]). *)

From Stdlib Require Import ZArith QArith Lqa String Ascii List DecimalString.
From stdpp Require Import gmap strings list sorting.
Import ListNotations.

Local Open Scope string_scope.
Local Open Scope Z_scope.

(** ** JavaScript helpers *)

Module JS.

(** [s || d] on strings: the empty string is falsy. *)
Definition or_string (s d : string) : string :=
  match s with "" => d | _ => s end.

(** [o?.p || d] where [o?.p] may be [undefined]. *)
Definition or_string_opt (o : option string) (d : string) : string :=
  match o with Some s => or_string s d | None => d end.

(** [n || d] on numbers: [undefined] and [0] are falsy. *)
Definition or_num (n : option Z) (d : Z) : Z :=
  match n with
  | Some v => if v =? 0 then d else v
  | None => d
  end.

(** [n ?? d]: only [undefined] and [null] are replaced. *)
Definition nullish (n : option Z) (d : Z) : Z :=
  match n with Some v => v | None => d end.

(** A string used as a condition: truthy iff non-empty. *)
Definition truthy (s : string) : bool :=
  match s with "" => false | _ => true end.

(** Decimal rendering of an integer-valued number in a template string. *)
Definition num_to_string (z : Z) : string :=
  NilZero.string_of_int (Z.to_int z).

(** Rendering of an optional number: [undefined] prints as such. *)
Definition opt_num_to_string (n : option Z) : string :=
  match n with Some z => num_to_string z | None => "undefined" end.

(** [parts.join(sep)]. *)
Fixpoint join (sep : string) (parts : list string) : string :=
  match parts with
  | [] => ""
  | [p] => p
  | p :: rest => p ++ sep ++ join sep rest
  end.

(** [Array.prototype.sort()] without comparator on strings: ascending
    code-unit order. *)
Definition sort_default (l : list string) : list string :=
  merge_sort String.le l.

(** [Array.prototype.sort(cmp)]: a stable sort.  [le_cmp a b] stands for
    [cmp(a, b) <= 0]. *)
Section SortBy.
Context {A : Type} (le_cmp : A -> A -> bool).

Fixpoint insert_by (x : A) (l : list A) : list A :=
  match l with
  | [] => [x]
  | y :: l' => if le_cmp x y then x :: y :: l' else y :: insert_by x l'
  end.

Definition sort_by (l : list A) : list A := foldr insert_by [] l.
End SortBy.

(** The part of [s] before the first occurrence of the (non-empty)
    separator [sep]; [None] when [sep] does not occur.  For
    [parts = s.split(sep)] this gives [parts.length > 1] (the result is
    [Some _]) and [parts[0]] (its content). *)
Fixpoint starts_with (sep s : string) : bool :=
  match sep, s with
  | "", _ => true
  | String a sep', String b s' => Ascii.eqb a b && starts_with sep' s'
  | String _ _, "" => false
  end.

Fixpoint before_sep (sep s : string) : option string :=
  if starts_with sep s then Some ""
  else match s with
       | "" => None
       | String c s' => option_map (String c) (before_sep sep s')
       end.

(** [s.split(sep)[0]]. *)
Definition split_head (sep s : string) : string :=
  match before_sep sep s with Some p => p | None => s end.

(** White space and line terminators removed by [String.prototype.trim],
    among the code units below 256: TAB, LF, VT, FF, CR, SP, NBSP. *)
Definition is_whitespace (c : ascii) : bool :=
  let n := N_of_ascii c in
  ((9 <=? n) && (n <=? 13) || (n =? 32) || (n =? 160))%N.

Fixpoint trimStart (s : string) : string :=
  match s with
  | "" => ""
  | String c s' => if is_whitespace c then trimStart s' else s
  end.

Fixpoint trimEnd (s : string) : string :=
  match s with
  | "" => ""
  | String c s' =>
      match trimEnd s' with
      | "" => if is_whitespace c then "" else String c ""
      | t => String c t
      end
  end.

Definition trim (s : string) : string := trimEnd (trimStart s).

Fixpoint all_whitespace (s : string) : bool :=
  match s with
  | "" => true
  | String c s' => is_whitespace c && all_whitespace s'
  end.

(** A property of a row that may be missing ([undefined]), hold [null]
    (an empty column) or hold a value.  [x != null] is true of [defined]
    only; [x !== undefined] is true of [null] and of [defined]. *)
Inductive Optional (A : Type) : Type :=
| undefined
| null
| defined (a : A).
Arguments undefined {A}.
Arguments null {A}.
Arguments defined {A} a.

(** [o?.f]: the property of an object that may itself be missing. *)
Definition chain {A B : Type} (f : A -> Optional B) (o : option A) : Optional B :=
  match o with
  | Some x => f x
  | None => undefined
  end.

End JS.

(** ** Data model (the fields of [src/types] that the modelled code reads) *)

Inductive UserType := end_user | reseller.

Record Member := {
  member_id : string;
  username : string;
  email : string;
  user_type : UserType;
  status : string;
  password_hash : string
}.

Record Variation := {
  variation_id : string;
  variation_name : string;
  price : Q;
  member_price : JS.Optional Q;
  reseller_price : JS.Optional Q
}.

Record AddOn := {
  addon_id : string;
  addon_name : string;
  addon_price : Q;
  addon_quantity : option Z
}.

Record CustomField := {
  field_key : string;
  field_label : string;
  field_placeholder : option string;
  field_required : bool
}.

Record MenuItem := {
  id : string;
  name : string;
  basePrice : Q;
  available : bool;
  isOnDiscount : bool;
  discountPercentage : option Q;
  variations : option (list Variation);
  customFields : option (list CustomField)
}.

(** [CartItem] extends [MenuItem]; [baseItem] holds the inherited
    properties, with [id] replaced by the synthetic line id. *)
Record CartItem := {
  baseItem : MenuItem;
  quantity : Z;
  selectedVariation : option Variation;
  selectedAddOns : option (list AddOn);
  totalPrice : Q;
  effectiveUnitPriceOverride : option Q
}.

Definition with_id (i : string) (m : MenuItem) : MenuItem :=
  {| id := i; name := name m; basePrice := basePrice m;
     available := available m; isOnDiscount := isOnDiscount m;
     discountPercentage := discountPercentage m;
     variations := variations m; customFields := customFields m |}.

Definition with_discount (d : bool) (p : option Q) (m : MenuItem) : MenuItem :=
  {| id := id m; name := name m; basePrice := basePrice m;
     available := available m; isOnDiscount := d;
     discountPercentage := p;
     variations := variations m; customFields := customFields m |}.

Definition with_quantity (q : Z) (c : CartItem) : CartItem :=
  {| baseItem := baseItem c; quantity := q;
     selectedVariation := selectedVariation c;
     selectedAddOns := selectedAddOns c;
     totalPrice := totalPrice c;
     effectiveUnitPriceOverride := effectiveUnitPriceOverride c |}.

Definition with_base (m : MenuItem) (c : CartItem) : CartItem :=
  {| baseItem := m; quantity := quantity c;
     selectedVariation := selectedVariation c;
     selectedAddOns := selectedAddOns c;
     totalPrice := totalPrice c;
     effectiveUnitPriceOverride := effectiveUnitPriceOverride c |}.

(** A call that either returns or throws. *)
Inductive Outcome (A : Type) : Type :=
| Returned (a : A)
| Thrown (e : string).
Arguments Returned {A} a.
Arguments Thrown {A} e.

(** ** The cart store: [src/hooks/useCart.ts] *)

Module Cart.

(** The lazy initialiser of the [cartItems] state.  [getItem] is
    [localStorage.getItem] (it may throw where storage is unavailable)
    and [JSON_parse] is the host's parser, which throws on malformed
    text.  The [try] body is the first [match]; its [None] is the fall
    through to [return []], and the [catch] clause only logs. *)
Section Initializer.
Variable JSON_parse : string -> Outcome (list CartItem).

Definition loadCartItems (getItem : string -> Outcome (option string))
  : Outcome (list CartItem) :=
  let body : Outcome (option (list CartItem)) :=
    match getItem "amber_cartItems" with
    | Thrown e => Thrown e
    | Returned None => Returned None
    | Returned (Some savedCartItems) =>
        if JS.truthy savedCartItems
        then match JSON_parse savedCartItems with
             | Returned parsed => Returned (Some parsed)
             | Thrown e => Thrown e
             end
        else Returned None
    end in
  match body with
  | Returned (Some parsed) => Returned parsed
  | Returned None => Returned []
  | Thrown _ => Returned []
  end.
End Initializer.

(** [getVariationPriceForMember]. *)
Definition getVariationPriceForMember
    (variation : Variation) (currentMember : option Member) : Q :=
  match currentMember with
  | None => price variation
  | Some m =>
      match user_type m, reseller_price variation, member_price variation with
      | reseller, JS.defined rp, _ => rp
      | end_user, _, JS.defined mp => mp
      | _, _, _ => price variation
      end
  end.

(** [calculateItemPrice]: the running [price] variable, in source order. *)
Definition calculateItemPrice (currentMember : option Member)
    (item : MenuItem) (variation : option Variation)
    (addOns : option (list AddOn)) : Q :=
  let price0 := basePrice item in
  let price1 :=
    match variation with
    | Some v => (price0 + getVariationPriceForMember v currentMember)%Q
    | None => price0
    end in
  match addOns with
  | Some l =>
      fold_left
        (fun p a => (p + inject_Z (JS.nullish (addon_quantity a) 1) * addon_price a)%Q)
        l price1
  | None => price1
  end.

(** [getEffectiveUnitPrice]. *)
Definition getEffectiveUnitPrice (currentMember : option Member)
    (cartItem : CartItem) : Q :=
  match effectiveUnitPriceOverride cartItem with
  | Some o => o
  | None =>
      calculateItemPrice currentMember (baseItem cartItem)
        (selectedVariation cartItem) (selectedAddOns cartItem)
  end.

Definition set_quantity (q : Z) (a : AddOn) : AddOn :=
  {| addon_id := addon_id a; addon_name := addon_name a;
     addon_price := addon_price a; addon_quantity := Some q |}.

(** The [reduce] callback of [normalizeAddOns]: [acc.find] by id; a hit
    has its quantity replaced by [(existing.quantity || 1) + 1], a miss
    pushes [{ ...addOn, quantity: addOn.quantity || 1 }]. *)
Fixpoint group_step (acc : list AddOn) (addOn : AddOn) : list AddOn :=
  match acc with
  | [] => [set_quantity (JS.or_num (addon_quantity addOn) 1) addOn]
  | g :: acc' =>
      if String.eqb (addon_id g) (addon_id addOn)
      then set_quantity (JS.or_num (addon_quantity g) 1 + 1) g :: acc'
      else g :: group_step acc' addOn
  end.

Section Normalize.
(** [localeCompare a b <= 0], the collation of the host. *)
Variable locale_le : string -> string -> bool.

(** [normalizeAddOns]. *)
Definition normalizeAddOns (addOns : option (list AddOn)) : list AddOn :=
  match addOns with
  | None | Some [] => []
  | Some l =>
      let grouped := fold_left group_step l [] in
      JS.sort_by (fun a b => locale_le (addon_id a) (addon_id b)) grouped
  end.

(** [createItemKey]. *)
Definition createItemKey (menuItemId : string)
    (selectedVariation : option Variation)
    (selectedAddOns : option (list AddOn)) : string :=
  let variationKey :=
    JS.or_string_opt (option_map variation_id selectedVariation) "none" in
  let addOnsKey :=
    JS.or_string
      (JS.join ","
         (JS.sort_default
            (map (fun a => addon_id a ++ ":" ++ JS.opt_num_to_string (addon_quantity a))
                 (normalizeAddOns selectedAddOns))))
      "none" in
  menuItemId ++ "|" ++ variationKey ++ "|" ++ addOnsKey.

(** The original menu item id recovered from a cart line id inside
    [addToCart]. *)
Definition originalMenuItemId (cartItemId : string) : string :=
  match JS.before_sep ":::CART:::" cartItemId with
  | Some p => p
  | None => JS.split_head "-" cartItemId
  end.

Definition cartItemKey (cartItem : CartItem) : string :=
  createItemKey (originalMenuItemId (id (baseItem cartItem)))
    (selectedVariation cartItem) (selectedAddOns cartItem).

(** [prev.map(c => c === existingItem ? {...c, quantity: c.quantity + quantity} : c)]
    where [existingItem] is the first line whose key is [key]: object
    identity singles out that one position. *)
Fixpoint bump_first (key : string) (q : Z) (prev : list CartItem) : list CartItem :=
  match prev with
  | [] => []
  | c :: rest =>
      if String.eqb (cartItemKey c) key
      then with_quantity (quantity c + q) c :: rest
      else c :: bump_first key q rest
  end.

(** [addToCart], as the state update it passes to [setCartItems].
    [suffix] stands for the [Date.now()]-[Math.random()] token of the
    synthetic id. *)
Definition addToCart (currentMember : option Member) (suffix : string)
    (item : MenuItem) (quantity : Z) (variation : option Variation)
    (addOns : option (list AddOn)) (effectiveUnitPrice : option Q)
    (prev : list CartItem) : list CartItem :=
  let totalPrice :=
    match effectiveUnitPrice with
    | Some p => p
    | None => calculateItemPrice currentMember item variation addOns
    end in
  let groupedAddOns := normalizeAddOns addOns in
  let newItemKey := createItemKey (id item) variation addOns in
  if existsb (fun c => String.eqb (cartItemKey c) newItemKey) prev
  then bump_first newItemKey quantity prev
  else
    let uniqueId := id item ++ ":::CART:::" ++ suffix in
    {| baseItem := with_id uniqueId item;
       quantity := quantity;
       selectedVariation := variation;
       selectedAddOns := Some groupedAddOns;
       totalPrice := totalPrice;
       effectiveUnitPriceOverride := effectiveUnitPrice |} :: prev.

Definition lines_with_key (key : string) (cart : list CartItem) : list CartItem :=
  filter (fun c => cartItemKey c = key) cart.
End Normalize.

(** [updateQuantity], [removeFromCart], [clearCart]. *)
Definition removeFromCart (i : string) (prev : list CartItem) : list CartItem :=
  filter (fun c => id (baseItem c) <> i) prev.

Definition updateQuantity (i : string) (q : Z) (prev : list CartItem) : list CartItem :=
  if q <=? 0 then removeFromCart i prev
  else map (fun c => if String.eqb (id (baseItem c)) i then with_quantity q c else c) prev.

Definition clearCart (prev : list CartItem) : list CartItem := [].

(** [getTotalPrice] and [getTotalItems]. *)
Definition getTotalPrice (currentMember : option Member) (cartItems : list CartItem) : Q :=
  fold_left
    (fun total c => (total + getEffectiveUnitPrice currentMember c * inject_Z (quantity c))%Q)
    cartItems 0%Q.

Definition getTotalItems (cartItems : list CartItem) : Z :=
  fold_left (fun total c => total + quantity c) cartItems 0.

End Cart.

(** ** The catalogue card: [src/components/MenuItemCard.tsx] *)

Module Catalog.

(** [isReseller()] of the member context. *)
Definition isReseller (currentMember : option Member) : bool :=
  match currentMember with
  | Some m => match user_type m with reseller => true | end_user => false end
  | None => false
  end.

(** [getVariationById]. *)
Definition getVariationById (item : MenuItem) (variationId : option string)
  : option Variation :=
  match variationId, variations item with
  | Some vid, Some vs =>
      if JS.truthy vid
      then List.find (fun v => String.eqb (variation_id v) vid) vs
      else None
  | _, _ => None
  end.

(** [memberDiscounts[variationId]] used as a condition: a missing entry
    and a price of zero are both falsy. *)
Definition cachedDiscount (memberDiscounts : gmap string Q)
    (variationId : option string) : option Q :=
  match variationId with
  | Some vid =>
      if JS.truthy vid
      then match memberDiscounts !! vid with
           | Some d => if Qeq_bool d 0 then None else Some d
           | None => None
           end
      else None
  | None => None
  end.

(** [getDiscountedPriceSync]: the five priorities, in source order.  The
    tier prices are tested with [!== undefined], so a price that holds
    [null] is returned as it is: the result is a number or [null], the
    latter written [None]. *)
Definition getDiscountedPriceSync (item : MenuItem)
    (currentMember : option Member) (memberDiscounts : gmap string Q)
    (basePrice : Q) (variationId : option string) : option Q :=
  let variation := getVariationById item variationId in
  match (if isReseller currentMember
         then JS.chain reseller_price variation else JS.undefined) with
  | JS.defined rp => Some rp
  | JS.null => None
  | JS.undefined =>
  match (match currentMember with
         | Some m =>
             match isReseller currentMember, user_type m with
             | false, end_user => JS.chain member_price variation
             | _, _ => JS.undefined
             end
         | None => JS.undefined
         end) with
  | JS.defined mp => Some mp
  | JS.null => None
  | JS.undefined =>
  match (if isReseller currentMember
         then cachedDiscount memberDiscounts variationId else None) with
  | Some d => Some d
  | None =>
  match isOnDiscount item, discountPercentage item with
  | true, Some pct =>
      let discountAmount := (basePrice * pct)%Q in
      Some (basePrice - discountAmount)%Q
  | _, _ => Some basePrice
  end end end end.

(** [handleItemSelect], as the cart update it triggers through
    [onAddToCart(item, 1, v, undefined, effectiveUnitPrice)].  In
    [item.basePrice + effectiveVariationPrice] a price of [null] counts as
    zero. *)
Definition handleItemSelect (locale_le : string -> string -> bool)
    (currentMember : option Member) (memberDiscounts : gmap string Q)
    (suffix : string) (item : MenuItem)
    (selectedVariation variation : option Variation)
    (cart : list CartItem) : list CartItem :=
  let v := match variation with Some x => Some x | None => selectedVariation end in
  let effectiveVariationPrice :=
    match v with
    | Some x =>
        getDiscountedPriceSync item currentMember memberDiscounts
          (price x) (Some (variation_id x))
    | None => Some 0%Q
    end in
  let effectiveUnitPrice :=
    (basePrice item + default 0 effectiveVariationPrice)%Q in
  Cart.addToCart locale_le currentMember suffix item 1 v None
    (Some effectiveUnitPrice) cart.

End Catalog.

(** ** The member session: [src/context/MemberAuthContext.tsx] *)

Module Auth.

(** The [members] table behind the client SDK; a request may also fail
    in transit, which makes the awaited call throw. *)
Inductive Backend :=
| Reachable (members : list Member)
| Unreachable.

(** [.single()]: the row when exactly one matches, an error otherwise. *)
Definition single (rows : list Member) : option Member :=
  match rows with
  | [m] => Some m
  | _ => None
  end.

Definition select_eq_email (members : list Member) (e : string) : option Member :=
  single (List.filter (fun m => String.eqb (email m) e) members).

Definition select_eq_username (members : list Member) (u : string) : option Member :=
  single (List.filter (fun m => String.eqb (username m) u) members).

Record AuthResult := {
  success : bool;
  error : option string;
  member : option Member
}.

Definition failure (msg : string) : AuthResult :=
  {| success := false; error := Some msg; member := None |}.

Definition succeeded (m : Member) : AuthResult :=
  {| success := true; error := None; member := Some m |}.

(** The error messages, under the names of the error taxonomy. *)
Definition InvalidCredentials : string := "Invalid email or password".
Definition InactiveAccount : string := "Account is inactive".
Definition DuplicateEmail : string := "Email already registered".
Definition DuplicateUsername : string := "Username already taken".

(** The state the provider owns: the [currentMember] cell, local
    storage, and the events dispatched on [window] so far. *)
Record AuthState := {
  currentMember : option Member;
  localStorage : gmap string string;
  dispatched : list string
}.

(** The three effects of a successful [login] or [register], in source
    order: [localStorage.setItem('member_id', id)], [setCurrentMember] and
    [window.dispatchEvent(new CustomEvent('memberAuthUpdate'))]. *)
Definition establish (m : Member) (st : AuthState) : AuthState :=
  {| currentMember := Some m;
     localStorage := <["member_id" := member_id m]> (localStorage st);
     dispatched := (dispatched st ++ ["memberAuthUpdate"])%list |}.

Record LoginMemberData := { login_email : string; login_password : string }.

Record CreateMemberData := {
  reg_username : string;
  reg_email : string;
  reg_password : string;
  reg_mobile_no : option string
}.

(** The answer of the [insert(...).select().single()] request. *)
Inductive InsertReply :=
| Inserted (row_id : string)
| InsertError (message : string)
| InsertEmpty.

Section WithHash.
(** [hashPassword]: SHA-256 of the password, hex-encoded. *)
Variable hashPassword : string -> string.

Definition verifyPassword (password hash : string) : bool :=
  String.eqb (hashPassword password) hash.

(** [login]. *)
Definition login (backend : Backend) (data : LoginMemberData)
    (st : AuthState) : AuthState * AuthResult :=
  match backend with
  | Unreachable => (st, failure "An error occurred during login")
  | Reachable members =>
      match select_eq_email members (login_email data) with
      | None => (st, failure InvalidCredentials)
      | Some m =>
          if negb (String.eqb (status m) "active")
          then (st, failure InactiveAccount)
          else if negb (verifyPassword (login_password data) (password_hash m))
          then (st, failure InvalidCredentials)
          else (establish m st, succeeded m)
      end
  end.

(** [register]. *)
Definition register (backend : Backend) (reply : InsertReply)
    (data : CreateMemberData) (st : AuthState) : AuthState * AuthResult :=
  match backend with
  | Unreachable => (st, failure "An error occurred during registration")
  | Reachable members =>
      match select_eq_email members (reg_email data) with
      | Some _ => (st, failure DuplicateEmail)
      | None =>
          match select_eq_username members (reg_username data) with
          | Some _ => (st, failure DuplicateUsername)
          | None =>
              let passwordHash := hashPassword (reg_password data) in
              match reply with
              | InsertError msg => (st, failure msg)
              | InsertEmpty => (st, failure "Registration failed")
              | Inserted row_id =>
                  let newMember :=
                    {| member_id := row_id;
                       username := reg_username data;
                       email := reg_email data;
                       user_type := end_user;
                       status := "active";
                       password_hash := passwordHash |} in
                  (establish newMember st, succeeded newMember)
              end
          end
      end
  end.
End WithHash.

(** [logout]. *)
Definition logout (st : AuthState) : AuthState :=
  {| currentMember := None;
     localStorage := delete "member_id" (localStorage st);
     dispatched := dispatched st |}.

End Auth.

(** ** The checkout wizard *)

Module Checkout.

Inductive OrderStatus := pending | processing | approved | rejected.

(** One element of the [Multiple Accounts] array of [customer_info]. *)
Record Account := {
  game : string;
  package : string;
  fields : gmap string string
}.

(** [customer_info], as written by [handlePlaceOrderDirect]: the
    [Multiple Accounts] property, an array when present, and the
    string-valued properties in [Object.entries] order. *)
Record CustomerInfo := {
  multipleAccounts : option (list Account);
  entries : list (string * string)
}.

Record Order := {
  order_id : string;
  order_status : OrderStatus;
  customer_info : option CustomerInfo
}.

(** An insertion-ordered [Map] with string keys.  [upsert f k m] is
    [if (!m.has(k)) m.set(k, f(undefined)); else m.set(k, f(m.get(k)))]:
    an existing key keeps its position, a new one goes last. *)
Fixpoint upsert {V : Type} (f : option V -> V) (k : string)
    (m : list (string * V)) : list (string * V) :=
  match m with
  | [] => [(k, f None)]
  | (k', v) :: m' =>
      if String.eqb k' k then (k', f (Some v)) :: m'
      else (k', v) :: upsert f k m'
  end.

Definition has {V : Type} (k : string) (m : list (string * V)) : bool :=
  existsb (fun kv => String.eqb (fst kv) k) m.

(** [getOriginalMenuItemId]. *)
Definition getOriginalMenuItemId (cartItemId : string) : string :=
  match JS.before_sep ":::CART:::" cartItemId with
  | Some p => p
  | None => cartItemId
  end.

Definition originalId (item : CartItem) : string :=
  getOriginalMenuItemId (id (baseItem item)).

Definition has_fields (item : CartItem) : bool :=
  match customFields (baseItem item) with
  | Some (_ :: _) => true
  | _ => false
  end.

(** [itemsWithCustomFields]: the lines that define fields, the first
    line of every original menu item id. *)
Definition itemsWithCustomFields (cartItems : list CartItem) : list CartItem :=
  let itemsWithFields := List.filter has_fields cartItems in
  let uniqueItems :=
    fold_left
      (fun (uniqueItems : list (string * CartItem)) item =>
         if has (originalId item) uniqueItems then uniqueItems
         else (uniqueItems ++ [(originalId item, item)])%list)
      itemsWithFields [] in
  map snd uniqueItems.

Definition hasAnyCustomFields (cartItems : list CartItem) : bool :=
  match itemsWithCustomFields cartItems with [] => false | _ => true end.

Definition variationIdOf (item : CartItem) : string :=
  JS.or_string_opt (option_map variation_id (selectedVariation item)) "default".

(** [hasMultiplePackagesForSameGame]: some game has lines of two
    different variations. *)
Definition hasMultiplePackagesForSameGame (cartItems : list CartItem) : bool :=
  let itemsByGame :=
    fold_left
      (fun (m : list (string * list CartItem)) item =>
         upsert (fun o => (default [] o ++ [item])%list) (originalId item) m)
      cartItems [] in
  existsb
    (fun entry : string * list CartItem =>
       let variations :=
         fold_left
           (fun (seen : gset string) item =>
              match selectedVariation item with
              | Some v => {[variation_id v]} ∪ seen
              | None => seen
              end)
           (snd entry) (∅ : gset string) in
       bool_decide (2 <= size variations)%nat)
    itemsByGame.

(** [itemsByGameAndVariation]: [null] outside multiple-accounts mode. *)
Definition itemsByGameAndVariation (useMultipleAccounts : bool)
    (cartItems : list CartItem)
  : option (list (string * list (string * list CartItem))) :=
  if negb useMultipleAccounts then None
  else
    Some
      (fold_left
         (fun grouped item =>
            upsert
              (fun variationsMap =>
                 upsert (fun items => (default [] items ++ [item])%list)
                   (variationIdOf item) (default [] variationsMap))
              (originalId item) grouped)
         cartItems []).

(** [cartItems.find(item => getOriginalMenuItemId(item.id) === gameId)]. *)
Definition firstItemOf (cartItems : list CartItem) (gameId : string)
  : option CartItem :=
  List.find (fun item => String.eqb (originalId item) gameId) cartItems.

(** [customFieldValues[valueKey]?.trim() || false], as a condition. *)
Definition filled (customFieldValues : gmap string string) (valueKey : string) : bool :=
  match customFieldValues !! valueKey with
  | Some value => JS.truthy (JS.trim value)
  | None => false
  end.

Definition field_ok (customFieldValues : gmap string string)
    (valueKey : string) (field : CustomField) : bool :=
  if negb (field_required field) then true
  else filled customFieldValues valueKey.

(** [isDetailsValid]. *)
Definition isDetailsValid (cartItems : list CartItem)
    (useMultipleAccounts : bool) (customFieldValues : gmap string string) : bool :=
  match itemsByGameAndVariation useMultipleAccounts cartItems with
  | Some grouped =>
      if hasAnyCustomFields cartItems then
        forallb
          (fun entry : string * list (string * list CartItem) =>
             let '(gameId, variationsMap) := entry in
             match firstItemOf cartItems gameId with
             | None => true
             | Some firstItem =>
                 match customFields (baseItem firstItem) with
                 | None => true
                 | Some fs =>
                     forallb
                       (fun ventry : string * list CartItem =>
                          let variationId := fst ventry in
                          let originalId := originalId firstItem in
                          forallb
                            (fun field =>
                               field_ok customFieldValues
                                 (originalId ++ "_" ++ variationId ++ "_" ++ field_key field)
                                 field)
                            fs)
                       variationsMap
                 end
             end)
          grouped
      else
        forallb
          (fun entry : string * list (string * list CartItem) =>
             let '(gameId, variationsMap) := entry in
             forallb
               (fun ventry : string * list CartItem =>
                  let variationId := fst ventry in
                  filled customFieldValues
                    ("default_" ++ gameId ++ "_" ++ variationId ++ "_ign"))
               variationsMap)
          grouped
  | None =>
      if negb (hasAnyCustomFields cartItems) then
        filled customFieldValues "default_ign"
      else
        forallb
          (fun item =>
             match customFields (baseItem item) with
             | None => true
             | Some fs =>
                 let originalId := originalId item in
                 forallb
                   (fun field =>
                      field_ok customFieldValues
                        (originalId ++ "_" ++ field_key field) field)
                   fs
             end)
          (itemsWithCustomFields cartItems)
  end.

(** The "proceed to payment" button is rendered with
    [disabled={!isDetailsValid}]. *)
Definition proceedDisabled (cartItems : list CartItem)
    (useMultipleAccounts : bool) (customFieldValues : gmap string string) : bool :=
  negb (isDetailsValid cartItems useMultipleAccounts customFieldValues).

(** [array.map(f).flat()] where [f] may throw. *)
Fixpoint collect {A B : Type} (f : A -> Outcome (list B)) (l : list A)
  : Outcome (list B) :=
  match l with
  | [] => Returned []
  | x :: rest =>
      match f x with
      | Thrown e => Thrown e
      | Returned ys =>
          match collect f rest with
          | Thrown e => Thrown e
          | Returned zs => Returned (ys ++ zs)%list
          end
      end
  end.

(** The text inputs the details form renders, each with the key its
    value is stored under and its [required] attribute; the four
    branches of the conditional in the form, in source order.  Reading
    [items[0]] of an empty group would throw. *)
Definition renderedInputs (cartItems : list CartItem)
    (useMultipleAccounts : bool) : Outcome (list (string * bool)) :=
  match itemsByGameAndVariation useMultipleAccounts cartItems,
        hasAnyCustomFields cartItems with
  | Some grouped, true =>
      collect
        (fun entry : string * list (string * list CartItem) =>
           let '(gameId, variationsMap) := entry in
           match firstItemOf cartItems gameId with
           | None => Returned []
           | Some firstItem =>
               collect
                 (fun ventry : string * list CartItem =>
                    let '(variationId, items) := ventry in
                    match items with
                    | [] => Thrown "TypeError"
                    | item0 :: _ =>
                        let originalId := originalId item0 in
                        Returned
                          (map
                             (fun field =>
                                (originalId ++ "_" ++ variationId ++ "_" ++ field_key field,
                                 field_required field))
                             (default [] (customFields (baseItem firstItem))))
                    end)
                 variationsMap
           end)
        grouped
  | None, true =>
      Returned
        (flat_map
           (fun item =>
              map
                (fun field =>
                   (originalId item ++ "_" ++ field_key field, field_required field))
                (default [] (customFields (baseItem item))))
           (itemsWithCustomFields cartItems))
  | None, false => Returned [("default_ign", true)]
  | Some grouped, false =>
      collect
        (fun entry : string * list (string * list CartItem) =>
           let '(gameId, variationsMap) := entry in
           match firstItemOf cartItems gameId with
           | None => Returned []
           | Some firstItem =>
               collect
                 (fun ventry : string * list CartItem =>
                    let '(variationId, items) := ventry in
                    match items with
                    | [] => Thrown "TypeError"
                    | _ :: _ =>
                        Returned
                          [("default_" ++ gameId ++ "_" ++ variationId ++ "_ign", true)]
                    end)
                 variationsMap
           end)
        grouped
  end.

(** A value that is missing, empty or white space only. *)
Definition blank (value : option string) : bool :=
  match value with
  | Some s => JS.all_whitespace s
  | None => true
  end.

(** The state cells of the component that the modelled handlers write,
    with the browser's local storage. *)
Record State := {
  customFieldValues : gmap string string;
  useMultipleAccounts : bool;
  orderId : option string;
  existingOrderStatus : option OrderStatus;
  existingOrderId : option string;
  isCheckingExistingOrder : bool;
  localStorage : gmap string string
}.

(** The [onChange] handler of the multiple-accounts checkbox;
    [checked] is [e.target.checked]. *)
Definition onMultipleAccountsChange (checked : bool) (st : State) : State :=
  {| customFieldValues := if negb checked then ∅ else customFieldValues st;
     useMultipleAccounts := checked;
     orderId := orderId st;
     existingOrderStatus := existingOrderStatus st;
     existingOrderId := existingOrderId st;
     isCheckingExistingOrder := isCheckingExistingOrder st;
     localStorage := localStorage st |}.

Definition finishChecking (st : State) : State :=
  {| customFieldValues := customFieldValues st;
     useMultipleAccounts := useMultipleAccounts st;
     orderId := orderId st;
     existingOrderStatus := existingOrderStatus st;
     existingOrderId := existingOrderId st;
     isCheckingExistingOrder := false;
     localStorage := localStorage st |}.

(** [localStorage.removeItem('current_order_id')]. *)
Definition forgetStoredOrder (st : State) : State :=
  {| customFieldValues := customFieldValues st;
     useMultipleAccounts := useMultipleAccounts st;
     orderId := orderId st;
     existingOrderStatus := existingOrderStatus st;
     existingOrderId := existingOrderId st;
     isCheckingExistingOrder := isCheckingExistingOrder st;
     localStorage := delete "current_order_id" (localStorage st) |}.

(** [setExistingOrderId], [setExistingOrderStatus], [setOrderId]. *)
Definition setOrderCells (i : option string) (s : option OrderStatus)
    (st : State) : State :=
  {| customFieldValues := customFieldValues st;
     useMultipleAccounts := useMultipleAccounts st;
     orderId := i;
     existingOrderStatus := s;
     existingOrderId := i;
     isCheckingExistingOrder := isCheckingExistingOrder st;
     localStorage := localStorage st |}.

(** [setUseMultipleAccounts(mode)] followed by the merge of
    [loadedValues] over the previous values, which is skipped when
    nothing was loaded. *)
Definition preload (mode : bool) (loadedValues : gmap string string)
    (st : State) : State :=
  {| customFieldValues :=
       if bool_decide (loadedValues = ∅) then customFieldValues st
       else loadedValues ∪ customFieldValues st;
     useMultipleAccounts := mode;
     orderId := orderId st;
     existingOrderStatus := existingOrderStatus st;
     existingOrderId := existingOrderId st;
     isCheckingExistingOrder := isCheckingExistingOrder st;
     localStorage := localStorage st |}.

(** The values loaded from a [Multiple Accounts] record. *)
Definition loadMultipleAccounts (cartItems : list CartItem)
    (accounts : list Account) : gmap string string :=
  fold_left
    (fun (loadedValues : gmap string string) account =>
       match List.find
               (fun item =>
                  let gameMatch := String.eqb (name (baseItem item)) (game account) in
                  let packageMatch :=
                    match selectedVariation item with
                    | Some v => String.eqb (variation_name v) (package account)
                    | None => false
                    end in
                  gameMatch && packageMatch)
               cartItems with
       | None => loadedValues
       | Some matchingItem =>
           let originalId := originalId matchingItem in
           let variationId := variationIdOf matchingItem in
           match hasAnyCustomFields cartItems, customFields (baseItem matchingItem) with
           | true, Some fs =>
               fold_left
                 (fun (loadedValues : gmap string string) field =>
                    match fields account !! field_label field with
                    | Some fieldValue =>
                        if JS.truthy fieldValue
                        then <[originalId ++ "_" ++ variationId ++ "_" ++ field_key field
                               := fieldValue]> loadedValues
                        else loadedValues
                    | None => loadedValues
                    end)
                 fs loadedValues
           | _, _ =>
               match fields account !! "IGN" with
               | Some ignValue =>
                   if JS.truthy ignValue
                   then <["default_" ++ originalId ++ "_" ++ variationId ++ "_ign"
                          := ignValue]> loadedValues
                   else loadedValues
               | None => loadedValues
               end
           end
       end)
    accounts ∅.

(** What one [key, value] entry of a single-account record loads. *)
Definition loadEntry (cartItems : list CartItem)
    (loadedValues : gmap string string) (entry : string * string)
  : gmap string string :=
  let '(key, value) := entry in
  if String.eqb key "Payment Method" then loadedValues
  else if hasAnyCustomFields cartItems then
    fold_left
      (fun (loadedValues : gmap string string) item =>
         fold_left
           (fun (loadedValues : gmap string string) field =>
              if String.eqb (field_label field) key
              then <[originalId item ++ "_" ++ field_key field := value]> loadedValues
              else loadedValues)
           (default [] (customFields (baseItem item))) loadedValues)
      (itemsWithCustomFields cartItems) loadedValues
  else if String.eqb key "IGN" then <["default_ign" := value]> loadedValues
  else loadedValues.

(** The values loaded from a single-account record. *)
Definition loadSingleAccount (cartItems : list CartItem)
    (entries : list (string * string)) : gmap string string :=
  fold_left (loadEntry cartItems) entries ∅.

Definition is_closed (s : OrderStatus) : bool :=
  match s with approved | rejected => true | _ => false end.

Section ExistingOrder.
(** [fetchOrderById] of the orders hook: the order, or [null]. *)
Variable fetchOrderById : string -> option Order.

(** [checkExistingOrder], the effect run when checkout mounts. *)
Definition checkExistingOrder (cartItems : list CartItem) (st : State) : State :=
  finishChecking
    match localStorage st !! "current_order_id" with
    | None => st
    | Some storedOrderId =>
        if negb (JS.truthy storedOrderId) then st
        else
          match fetchOrderById storedOrderId with
          | None => forgetStoredOrder st
          | Some order =>
              let st1 :=
                setOrderCells (Some (order_id order)) (Some (order_status order)) st in
              let st2 :=
                match order_status order, customer_info order with
                | rejected, Some info =>
                    match multipleAccounts info with
                    | Some accounts =>
                        preload true (loadMultipleAccounts cartItems accounts) st1
                    | None =>
                        preload false (loadSingleAccount cartItems (entries info)) st1
                    end
                | _, _ => st1
                end in
              if is_closed (order_status order) then
                let st3 := forgetStoredOrder st2 in
                match order_status order with
                | approved => setOrderCells None None st3
                | _ => st3
                end
              else st2
          end
    end.
End ExistingOrder.

End Checkout.

(** Every group of [itemsByGameAndVariation] is non-empty and holds
    lines of the cart whose original id is the group's game. *)
Definition group_ok (cartItems : list CartItem) (gameId : string)
    (items : list CartItem) : Prop :=
  items <> []
  /\ Forall (fun it => Checkout.originalId it = gameId /\ In it cartItems) items.

Definition game_ok (cartItems : list CartItem) (gameId : string)
    (variationsMap : list (string * list CartItem)) : Prop :=
  Forall (fun ventry => group_ok cartItems gameId ventry.2) variationsMap.

(** The inputs of the single-account form: value key and label of every
    field of every line of [itemsWithCustomFields]. *)
Definition fieldSlots (cartItems : list CartItem) : list (string * string) :=
  flat_map
    (fun item =>
       map (fun field =>
              (Checkout.originalId item ++ "_" ++ field_key field, field_label field))
           (default [] (customFields (baseItem item))))
    (Checkout.itemsWithCustomFields cartItems).

(** Which labels write the value key [k] in single-account mode. *)
Definition slot_hit (cartItems : list CartItem) (k key : string) : bool :=
  existsb (fun slot : string * string => String.eqb slot.2 key && String.eqb slot.1 k)
    (fieldSlots cartItems).

Definition entry_hit (cartItems : list CartItem) (k key : string) : bool :=
  negb (String.eqb key "Payment Method")
  && (if Checkout.hasAnyCustomFields cartItems then slot_hit cartItems k key
      else String.eqb key "IGN" && String.eqb "default_ign" k).

(** Every input that is marked required has a value that survives [trim]. *)
Definition required_filled (values : gmap string string)
    (inputs : list (string * bool)) : bool :=
  forallb (fun input => implb input.2 (Checkout.filled values input.1)) inputs.

(** Well-formedness of the inputs of [addToCart]: catalogue ids are UUIDs,
    so they hold no colon; add-on quantities, where given, are not
    negative. *)
Definition colon_free (s : string) : Prop :=
  Forall (fun c => c <> ":"%char) (list_ascii_of_string s).

Definition nonneg_quantity (a : AddOn) : Prop :=
  match addon_quantity a with Some q => 0 <= q | None => True end.

Definition nonneg_quantities (addOns : option (list AddOn)) : Prop :=
  match addOns with Some l => Forall nonneg_quantity l | None => True end.

Definition positive_quantity (a : AddOn) : Prop :=
  exists q, addon_quantity a = Some q /\ 0 < q.

(** A flat add-on list, as the catalogue card builds it: one entry per
    unit, without quantity or with quantity 1. *)
Definition flat_quantity (a : AddOn) : Prop :=
  addon_quantity a = None \/ addon_quantity a = Some 1.

(** How many entries of [l] carry the id [i]. *)
Definition occurrences (i : string) (l : list AddOn) : Z :=
  Z.of_nat (count_occ string_dec (map addon_id l) i).

(** What the reducer does to a group whose id comes again. *)
Definition bump (i : string) (g : AddOn) : AddOn :=
  if String.eqb (addon_id g) i
  then Cart.set_quantity (JS.or_num (addon_quantity g) 1 + 1) g
  else g.

(** While the reducer runs over a flat list, every group carries the number
    of entries of its id seen so far. *)
Definition counted (acc p : list AddOn) : Prop :=
  NoDup (map addon_id acc)
  /\ (forall i, i ∈ map addon_id p -> i ∈ map addon_id acc)
  /\ Forall (fun g => addon_quantity g = Some (occurrences (addon_id g) p)
                      /\ 0 < occurrences (addon_id g) p) acc.

(** A comparator under which any two values are ordered. *)
Definition total_cmp {A : Type} (le_cmp : A -> A -> bool) : Prop :=
  forall a b, le_cmp a b = true \/ le_cmp b a = true.

(** The parts of a cart line's unit price, as sums. *)
Definition variationTierPrice (currentMember : option Member)
    (variation : option Variation) : Q :=
  match variation with
  | Some v => Cart.getVariationPriceForMember v currentMember
  | None => 0%Q
  end.

Definition addOnsTotal (addOns : option (list AddOn)) : Q :=
  match addOns with
  | Some l =>
      fold_right
        (fun a acc => (inject_Z (JS.nullish (addon_quantity a) 1) * addon_price a + acc)%Q)
        0%Q l
  | None => 0%Q
  end.

(** ** Sample data *)

Definition sample_variation : Variation :=
  {| variation_id := "v100"; variation_name := "100 Gems"; price := 100%Q;
     member_price := JS.defined 95%Q; reseller_price := JS.defined 90%Q |}.

Definition sample_member (t : UserType) (st pw : string) : Member :=
  {| member_id := "m1"; username := "ana"; email := "ana@example.com";
     user_type := t; status := st; password_hash := pw |}.

Definition sample_line : CartItem :=
  {| baseItem :=
       {| id := "game:::CART:::1-a"; name := "Game"; basePrice := 5%Q;
          available := true; isOnDiscount := true;
          discountPercentage := Some (1 # 2)%Q;
          variations := Some [sample_variation]; customFields := None |};
     quantity := 1;
     selectedVariation := Some sample_variation;
     selectedAddOns := Some [{| addon_id := "x"; addon_name := "x";
                                addon_price := 10%Q; addon_quantity := Some 2 |}];
     totalPrice := 125%Q;
     effectiveUnitPriceOverride := None |}.

Definition sample_field : CustomField :=
  {| field_key := "ign"; field_label := "IGN"; field_placeholder := None;
     field_required := true |}.

(** A cart with one line of a game that asks for a required [IGN]. *)
Definition sample_cart_with_field : list CartItem :=
  [ {| baseItem :=
         {| id := "gameA:::CART:::1-a"; name := "ItemA"; basePrice := 0%Q;
            available := true; isOnDiscount := false; discountPercentage := None;
            variations := None; customFields := Some [sample_field] |};
       quantity := 1; selectedVariation := None; selectedAddOns := Some [];
       totalPrice := 100%Q; effectiveUnitPriceOverride := None |} ].

Definition sample_hash (password : string) : string := "sha:" ++ password.

Definition sample_checkout_state (multi : bool) (values storage : gmap string string)
  : Checkout.State :=
  {| Checkout.customFieldValues := values;
     Checkout.useMultipleAccounts := multi;
     Checkout.orderId := None;
     Checkout.existingOrderStatus := None;
     Checkout.existingOrderId := None;
     Checkout.isCheckingExistingOrder := true;
     Checkout.localStorage := storage |}.

Definition sample_order (s : Checkout.OrderStatus) : Checkout.Order :=
  {| Checkout.order_id := "o1";
     Checkout.order_status := s;
     Checkout.customer_info :=
       Some {| Checkout.multipleAccounts := None;
               Checkout.entries := [("Payment Method", "GCash"); ("IGN", "Ana")] |} |}.

(** Checkout mounted with the stored id of a rejected order, on an empty
    cart and an empty form. *)
Definition sample_after_rejected : Checkout.State :=
  Checkout.checkExistingOrder (fun _ => Some (sample_order Checkout.rejected)) []
    (sample_checkout_state false ∅ {["current_order_id" := "o1"]}).

Definition sample_auth_state : Auth.AuthState :=
  {| Auth.currentMember := None; Auth.localStorage := ∅; Auth.dispatched := [] |}.

Definition sample_addon (i : string) (q : option Z) : AddOn :=
  {| addon_id := i; addon_name := i; addon_price := 10%Q; addon_quantity := q |}.

Definition sample_item (i : string) : MenuItem :=
  {| id := i; name := "Game"; basePrice := 0%Q; available := true;
     isOnDiscount := false; discountPercentage := None;
     variations := None; customFields := None |}.


(** ** Vocabulary of the further properties *)

(** A cart line without its quantity. *)
Definition without_quantity (c : CartItem) : CartItem := with_quantity 0 c.

(** The synthetic id of a cart line. *)
Definition lineId (c : CartItem) : string := id (baseItem c).


(** Add-ons that are grouped already: every id once, with a quantity of at
    least one. *)
Definition grouped_addOns (addOns : option (list AddOn)) : Prop :=
  match addOns with
  | Some l => Forall positive_quantity l /\ NoDup (map addon_id l)
  | None => True
  end.

Definition sample_plain_line (i : string) (q : Z) : CartItem :=
  {| baseItem := sample_item i; quantity := q; selectedVariation := None;
     selectedAddOns := Some []; totalPrice := 0%Q;
     effectiveUnitPriceOverride := Some 50%Q |}.


(** The signature of an [addToCart] call in the words of the
    specification: menu item id, variation id and the add-ons as a
    multiset.  [addOnCount addOns i] is how often add-on [i] is in the
    list, an entry counting as often as its quantity says and once
    without quantity. *)
Definition addOnCount (addOns : option (list AddOn)) (i : string) : Z :=
  match addOns with
  | Some l =>
      fold_right
        (fun a n =>
           if String.eqb (addon_id a) i then default 1 (addon_quantity a) + n else n)
        0 l
  | None => 0
  end.

Definition same_signature
    (item1 : MenuItem) (v1 : option Variation) (a1 : option (list AddOn))
    (item2 : MenuItem) (v2 : option Variation) (a2 : option (list AddOn)) : Prop :=
  id item1 = id item2
  /\ option_map variation_id v1 = option_map variation_id v2
  /\ forall i, addOnCount a1 i = addOnCount a2 i.

(** The price of the catalogue card for somebody without tier price: the
    item's own discount, if any, applied to the base price. *)
Definition itemDiscountPrice (item : MenuItem) (basePrice : Q) : Q :=
  match isOnDiscount item, discountPercentage item with
  | true, Some pct => (basePrice - basePrice * pct)%Q
  | _, _ => basePrice
  end.

(** The item applies no discount of its own. *)
Definition undiscounted (item : MenuItem) : Prop :=
  isOnDiscount item = false \/ discountPercentage item = None.

(** The price a variation holds for the tier of the member. *)
Definition ownTierPrice (currentMember : option Member) (v : Variation)
  : JS.Optional Q :=
  match currentMember with
  | Some m =>
      match user_type m with
      | reseller => reseller_price v
      | end_user => member_price v
      end
  | None => JS.undefined
  end.

(** A package priced 100, 95 for members, with the given reseller price,
    and a game that offers it. *)
Definition sample_pack (rp : JS.Optional Q) : Variation :=
  {| variation_id := "v1"; variation_name := "Pack"; price := 100%Q;
     member_price := JS.defined 95%Q; reseller_price := rp |}.

Definition sample_game (rp : JS.Optional Q) : MenuItem :=
  {| id := "game"; name := "Game"; basePrice := 0%Q; available := true;
     isOnDiscount := false; discountPercentage := None;
     variations := Some [sample_pack rp]; customFields := None |}.


(** ** The member session, continued: validation at start-up *)

Module Provider.

(** The provider's state: the session cells of [Auth] and the [loading]
    flag. *)
Record ProviderState := {
  session : Auth.AuthState;
  loading : bool
}.

(** [.eq('id', memberId).eq('status', 'active').single()]. *)
Definition select_active_by_id (members : list Member) (memberId : string)
  : option Member :=
  Auth.single
    (List.filter
       (fun m => String.eqb (member_id m) memberId && String.eqb (status m) "active")
       members).

(** [setCurrentMember(m)], optionally after
    [localStorage.removeItem('member_id')]. *)
Definition setSession (forget : bool) (m : option Member) (st : Auth.AuthState)
  : Auth.AuthState :=
  {| Auth.currentMember := m;
     Auth.localStorage :=
       if forget then delete "member_id" (Auth.localStorage st)
       else Auth.localStorage st;
     Auth.dispatched := Auth.dispatched st |}.

(** [checkAuth]: run at mount, on every [storage] event and on every
    [memberAuthUpdate] event. *)
Definition checkAuth (backend : Auth.Backend) (st : ProviderState) : ProviderState :=
  {| session :=
       match Auth.localStorage (session st) !! "member_id" with
       | Some memberId =>
           if JS.truthy memberId then
             match backend with
             | Auth.Unreachable => setSession true None (session st)
             | Auth.Reachable members =>
                 match select_active_by_id members memberId with
                 | Some data => setSession false (Some data) (session st)
                 | None => setSession true None (session st)
                 end
             end
           else setSession false None (session st)
       | None => setSession false None (session st)
       end;
     loading := false |}.

End Provider.


Definition sample_registration : Auth.CreateMemberData :=
  {| Auth.reg_username := "bea"; Auth.reg_email := "bea@example.com";
     Auth.reg_password := "pw"; Auth.reg_mobile_no := None |}.

Definition sample_login : Auth.LoginMemberData :=
  {| Auth.login_email := "ana@example.com"; Auth.login_password := "pw" |}.


(** An order that is still under way. *)
Definition is_open (s : Checkout.OrderStatus) : Prop :=
  s = Checkout.pending \/ s = Checkout.processing.




(** The reducer of [itemsWithCustomFields]: a line is kept when its game
    has no line yet. *)
Definition keepFirst (uniqueItems : list (string * CartItem)) (item : CartItem)
  : list (string * CartItem) :=
  if Checkout.has (Checkout.originalId item) uniqueItems then uniqueItems
  else (uniqueItems ++ [(Checkout.originalId item, item)])%list.

(** Every entry is stored under the original id of its line, and the line
    is a line of the cart that defines fields. *)
Definition keyed (cartItems : list CartItem) (uniqueItems : list (string * CartItem))
  : Prop :=
  Forall (fun kv : string * CartItem =>
            kv.1 = Checkout.originalId kv.2
            /\ In kv.2 cartItems /\ Checkout.has_fields kv.2 = true)
         uniqueItems.




(** The reducers of [hasMultiplePackagesForSameGame]. *)
Definition byGame (m : list (string * list CartItem)) (item : CartItem)
  : list (string * list CartItem) :=
  Checkout.upsert (fun o => (default [] o ++ [item])%list) (Checkout.originalId item) m.

Definition seeVariation (seen : gset string) (item : CartItem) : gset string :=
  match selectedVariation item with
  | Some v => {[variation_id v]} ∪ seen
  | None => seen
  end.

(** Two lines of one game that select different variations. *)
Definition two_packages (cartItems : list CartItem) : Prop :=
  exists it1 it2 v1 v2,
    In it1 cartItems /\ In it2 cartItems
    /\ Checkout.originalId it1 = Checkout.originalId it2
    /\ selectedVariation it1 = Some v1 /\ selectedVariation it2 = Some v2
    /\ variation_id v1 <> variation_id v2.

Definition sample_variation_200 : Variation :=
  {| variation_id := "v200"; variation_name := "200 Gems"; price := 200%Q;
     member_price := JS.undefined; reseller_price := JS.undefined |}.

Definition sample_package_line (i : string) (v : Variation) : CartItem :=
  {| baseItem := sample_item i; quantity := 1; selectedVariation := Some v;
     selectedAddOns := Some []; totalPrice := price v;
     effectiveUnitPriceOverride := Some (price v) |}.


(** ** Placing an order: [handlePlaceOrderDirect] of the checkout *)

Module Placing.

(** [o[k] = v] on a plain object: a property that exists keeps its place
    in [Object.entries], a new one goes last. *)
Definition setProp (k v : string) (o : list (string * string))
  : list (string * string) :=
  Checkout.upsert (fun _ => v) k o.

(** [o[k]]. *)
Definition propOf (k : string) (o : list (string * string)) : option string :=
  snd <$> List.find (fun kv => String.eqb kv.1 k) o.

(** [const value = customFieldValues[valueKey]; if (value) ...]: the value
    when it is there and not empty. *)
Definition typed (values : gmap string string) (valueKey : string) : option string :=
  match values !! valueKey with
  | Some value => if JS.truthy value then Some value else None
  | None => None
  end.

(** [packageFields] of one (game, variation) group. *)
Definition packageFields (cartItems : list CartItem) (values : gmap string string)
    (gameId variationId : string) (firstItem item0 : CartItem)
  : gmap string string :=
  match Checkout.hasAnyCustomFields cartItems, customFields (baseItem firstItem) with
  | true, Some fs =>
      fold_left
        (fun (packageFields : gmap string string) field =>
           match typed values
                   (Checkout.originalId item0 ++ "_" ++ variationId ++ "_"
                    ++ field_key field) with
           | Some value => <[field_label field := value]> packageFields
           | None => packageFields
           end)
        fs ∅
  | _, _ =>
      match typed values ("default_" ++ gameId ++ "_" ++ variationId ++ "_ign") with
      | Some value => <["IGN" := value]> ∅
      | None => ∅
      end
  end.

(** [accountsByPackage]; [items[0]] of an empty group throws. *)
Definition accountsByPackage (cartItems : list CartItem)
    (values : gmap string string)
    (grouped : list (string * list (string * list CartItem)))
  : Outcome (list Checkout.Account) :=
  Checkout.collect
    (fun entry : string * list (string * list CartItem) =>
       let '(gameId, variationsMap) := entry in
       match Checkout.firstItemOf cartItems gameId with
       | None => Returned []
       | Some firstItem =>
           Checkout.collect
             (fun ventry : string * list CartItem =>
                let '(variationId, items) := ventry in
                match items with
                | [] => Thrown "TypeError"
                | item0 :: _ =>
                    let fields :=
                      packageFields cartItems values gameId variationId firstItem item0 in
                    if bool_decide (fields = ∅) then Returned []
                    else
                      Returned
                        [ {| Checkout.game := name (baseItem firstItem);
                             Checkout.package :=
                               JS.or_string_opt
                                 (option_map variation_name (selectedVariation item0))
                                 "Default";
                             Checkout.fields := fields |} ]
                end)
             variationsMap
       end)
    grouped.

(** The single-account properties: one per field of every game with
    fields, or the default [IGN]. *)
Definition singleAccountProps (cartItems : list CartItem)
    (values : gmap string string) (customerInfo : list (string * string))
  : list (string * string) :=
  if Checkout.hasAnyCustomFields cartItems then
    fold_left
      (fun (customerInfo : list (string * string)) item =>
         fold_left
           (fun (customerInfo : list (string * string)) field =>
              match typed values
                      (Checkout.originalId item ++ "_" ++ field_key field) with
              | Some value => setProp (field_label field) value customerInfo
              | None => customerInfo
              end)
           (default [] (customFields (baseItem item))) customerInfo)
      (Checkout.itemsWithCustomFields cartItems) customerInfo
  else
    match typed values "default_ign" with
    | Some value => setProp "IGN" value customerInfo
    | None => customerInfo
    end.

(** The [customerInfo] object of the order.  [paymentName] is the name of
    [selectedPaymentMethod], when one is found.  A field labelled
    [Multiple Accounts] would be read back as an account list; the
    properties below are about forms without such a label. *)
Definition buildCustomerInfo (cartItems : list CartItem)
    (useMultipleAccounts : bool) (values : gmap string string)
    (paymentName : option string) : Outcome Checkout.CustomerInfo :=
  let customerInfo :=
    match paymentName with
    | Some n => setProp "Payment Method" n []
    | None => []
    end in
  match Checkout.itemsByGameAndVariation useMultipleAccounts cartItems with
  | Some grouped =>
      match accountsByPackage cartItems values grouped with
      | Thrown e => Thrown e
      | Returned accounts =>
          Returned
            {| Checkout.multipleAccounts :=
                 match accounts with [] => None | _ => Some accounts end;
               Checkout.entries := customerInfo |}
      end
  | None =>
      Returned
        {| Checkout.multipleAccounts := None;
           Checkout.entries := singleAccountProps cartItems values customerInfo |}
  end.

(** The request handed to [createOrder]. *)
Record OrderRequest := {
  order_items : list CartItem;
  req_customer_info : Checkout.CustomerInfo;
  payment_method_id : string;
  receipt_url : string;
  total_price : Q
}.

(** The checkout cells with those the handler writes besides. *)
Record PlaceState := {
  checkout : Checkout.State;
  receiptError : option string;
  isOrderModalOpen : bool;
  isPlacingOrder : bool
}.

Definition failed (msg : string) (st : PlaceState) : PlaceState :=
  {| checkout := checkout st; receiptError := Some msg;
     isOrderModalOpen := isOrderModalOpen st; isPlacingOrder := false |}.

Definition rejectedEarly (msg : string) (st : PlaceState) : PlaceState :=
  {| checkout := checkout st; receiptError := Some msg;
     isOrderModalOpen := isOrderModalOpen st; isPlacingOrder := isPlacingOrder st |}.

(** The cells after [createOrder] returned [newOrder]. *)
Definition placed (newOrder : Checkout.Order) (st : PlaceState) : PlaceState :=
  {| checkout :=
       {| Checkout.customFieldValues := Checkout.customFieldValues (checkout st);
          Checkout.useMultipleAccounts := Checkout.useMultipleAccounts (checkout st);
          Checkout.orderId := Some (Checkout.order_id newOrder);
          Checkout.existingOrderStatus := Some (Checkout.order_status newOrder);
          Checkout.existingOrderId := Some (Checkout.order_id newOrder);
          Checkout.isCheckingExistingOrder :=
            Checkout.isCheckingExistingOrder (checkout st);
          Checkout.localStorage :=
            <["current_order_id" := Checkout.order_id newOrder]>
              (Checkout.localStorage (checkout st)) |};
     receiptError := None;
     isOrderModalOpen := true;
     isPlacingOrder := false |}.

Section Handler.
(** [createOrder] of the orders hook: the new order, [null], or a throw. *)
Variable createOrder : OrderRequest -> Outcome (option Checkout.Order).
(** [paymentMethods]: id and name of every method. *)
Variable paymentMethods : list (string * string).

(** [handlePlaceOrderDirect].  [paymentMethod] and [receiptImageUrl] are
    the state cells of those names. *)
Definition handlePlaceOrderDirect (cartItems : list CartItem) (totalPrice : Q)
    (paymentMethod receiptImageUrl : option string) (st : PlaceState) : PlaceState :=
  match paymentMethod with
  | None => rejectedEarly "Please select a payment method" st
  | Some method =>
      if negb (JS.truthy method)
      then rejectedEarly "Please select a payment method" st
      else
        match receiptImageUrl with
        | None =>
            rejectedEarly
              "Please upload your payment receipt before placing the order" st
        | Some url =>
            if negb (JS.truthy url)
            then rejectedEarly
                   "Please upload your payment receipt before placing the order" st
            else
              let selectedPaymentMethod :=
                List.find (fun pm : string * string => String.eqb pm.1 method)
                  paymentMethods in
              match buildCustomerInfo cartItems
                      (Checkout.useMultipleAccounts (checkout st))
                      (Checkout.customFieldValues (checkout st))
                      (snd <$> selectedPaymentMethod) with
              | Thrown _ => failed "Failed to create order. Please try again." st
              | Returned customerInfo =>
                  match createOrder
                          {| order_items := cartItems;
                             req_customer_info := customerInfo;
                             payment_method_id := method;
                             receipt_url := url;
                             total_price := totalPrice |} with
                  | Returned (Some newOrder) => placed newOrder st
                  | Returned None =>
                      failed "Failed to create order. Please try again." st
                  | Thrown _ =>
                      failed "Failed to create order. Please try again." st
                  end
              end
        end
  end.
End Handler.

End Placing.



(** The cells of a checkout that shows no order and is not placing one. *)
Definition sample_place_state (values : gmap string string) : Placing.PlaceState :=
  {| Placing.checkout := sample_checkout_state false values ∅;
     Placing.receiptError := None;
     Placing.isOrderModalOpen := false;
     Placing.isPlacingOrder := false |}.

(** An orders hook that files every request as the pending order [o1]. *)
Definition sample_createOrder (request : Placing.OrderRequest)
  : Outcome (option Checkout.Order) :=
  Returned (Some {| Checkout.order_id := "o1";
                    Checkout.order_status := Checkout.pending;
                    Checkout.customer_info := Some (Placing.req_customer_info request) |}).


(** ** The catalogue: [renderMenuItems] of the menu *)

Module Menu.

(** The filter of [matchingCartItems]: the plain lines of a menu item,
    without variation and without add-ons. *)
Definition matches (item : MenuItem) (cartItem : CartItem) : bool :=
  String.eqb (Cart.originalMenuItemId (id (baseItem cartItem))) (id item)
  && match selectedVariation cartItem with Some _ => false | None => true end
  && match selectedAddOns cartItem with
     | None => true
     | Some addOns => (length addOns =? 0)%nat
     end.

Definition matchingCartItems (cartItems : list CartItem) (item : MenuItem)
  : list CartItem :=
  List.filter (matches item) cartItems.

(** The [quantity] handed to the card. *)
Definition quantity (cartItems : list CartItem) (item : MenuItem) : Z :=
  fold_left (fun sum cartItem => sum + quantity cartItem)
    (matchingCartItems cartItems item) 0.

Section Handler.
Variable locale_le : string -> string -> bool.

(** The [onUpdateQuantity] handed to the card, fired on the cart it was
    rendered with: the first matching line is [primaryCartItem]. *)
Definition onUpdateQuantity (currentMember : option Member) (suffix : string)
    (cartItems : list CartItem) (item : MenuItem) (qty : Z) : list CartItem :=
  match matchingCartItems cartItems item with
  | primaryCartItem :: _ =>
      Cart.updateQuantity (id (baseItem primaryCartItem)) qty cartItems
  | [] =>
      if 0 <? qty
      then Cart.addToCart locale_le currentMember suffix item qty None None None
             cartItems
      else cartItems
  end.
End Handler.

End Menu.


(** ** Bulk input of the checkout form *)

Module Bulk.

(** [selectedItems]: the games with fields whose box is ticked. *)
Definition selectedItems (cartItems : list CartItem)
    (bulkSelectedGames : list string) : list CartItem :=
  List.filter
    (fun item =>
       existsb (fun g => String.eqb g (Checkout.originalId item)) bulkSelectedGames)
    (Checkout.itemsWithCustomFields cartItems).

(** [item.customFields && item.customFields[fieldIndex]]. *)
Definition fieldAt (item : CartItem) (fieldIndex : nat) : option CustomField :=
  match customFields (baseItem item) with
  | Some fs => nth_error fs fieldIndex
  | None => None
  end.

(** [item.customFields?.length || 0]. *)
Definition fieldCount (item : CartItem) : nat :=
  match customFields (baseItem item) with
  | Some fs => length fs
  | None => 0%nat
  end.

(** [bulkInputFields]: one input per position, up to the longest field
    list of the selected games, labelled by the first selected game. *)
Definition bulkInputFields (cartItems : list CartItem)
    (bulkSelectedGames : list string) : list (nat * option CustomField) :=
  match bulkSelectedGames with
  | [] => []
  | _ =>
      match selectedItems cartItems bulkSelectedGames with
      | [] => []
      | referenceItem :: rest =>
          let maxFields :=
            fold_right Nat.max 0%nat (map fieldCount (referenceItem :: rest)) in
          map (fun i => (i, fieldAt referenceItem i)) (seq 0 maxFields)
      end
  end.

(** The effect that copies the bulk inputs to the selected games.
    [bulkInputValues] is [Object.entries] of the state cell of that name,
    whose keys are the positions the inputs were rendered with. *)
Definition syncBulkInputs (cartItems : list CartItem)
    (bulkSelectedGames : list string) (bulkInputValues : list (nat * string))
    (customFieldValues : gmap string string) : gmap string string :=
  match bulkSelectedGames with
  | [] => customFieldValues
  | _ =>
      let updates :=
        fold_left
          (fun (updates : gmap string string) (entry : nat * string) =>
             fold_left
               (fun (updates : gmap string string) item =>
                  match fieldAt item entry.1 with
                  | Some field =>
                      <[Checkout.originalId item ++ "_" ++ field_key field := entry.2]>
                        updates
                  | None => updates
                  end)
               (selectedItems cartItems bulkSelectedGames) updates)
          bulkInputValues ∅ in
      if bool_decide (updates = ∅) then customFieldValues
      else updates ∪ customFieldValues
  end.

End Bulk.

(** The writes of the bulk effect, in the order it makes them. *)
Definition bulkWrites (selected : list CartItem) (bulkInputValues : list (nat * string))
  : list (string * string) :=
  flat_map
    (fun entry : nat * string =>
       flat_map
         (fun item =>
            match Bulk.fieldAt item entry.1 with
            | Some field =>
                [(Checkout.originalId item ++ "_" ++ field_key field, entry.2)]
            | None => []
            end)
         selected)
    bulkInputValues.

(** A second line of another game that asks for a field. *)
Definition sample_two_games_with_field : list CartItem :=
  sample_cart_with_field ++
  [ {| baseItem :=
         {| id := "gameB:::CART:::2-b"; name := "ItemB"; basePrice := 0%Q;
            available := true; isOnDiscount := false; discountPercentage := None;
            variations := None; customFields := Some [sample_field] |};
       quantity := 1; selectedVariation := None; selectedAddOns := Some [];
       totalPrice := 100%Q; effectiveUnitPriceOverride := None |} ].


(** ** The order window of the checkout *)

Module OrderWindow.

(** [setExistingOrderStatus]. *)
Definition setStatus (s : option Checkout.OrderStatus) (st : Checkout.State)
  : Checkout.State :=
  {| Checkout.customFieldValues := Checkout.customFieldValues st;
     Checkout.useMultipleAccounts := Checkout.useMultipleAccounts st;
     Checkout.orderId := Checkout.orderId st;
     Checkout.existingOrderStatus := s;
     Checkout.existingOrderId := Checkout.existingOrderId st;
     Checkout.isCheckingExistingOrder := Checkout.isCheckingExistingOrder st;
     Checkout.localStorage := Checkout.localStorage st |}.

Section Close.
Variable fetchOrderById : string -> option Checkout.Order.

(** [onClose] of the order window, with the answer of [fetchOrderById]
    applied. *)
Definition onClose (st : Placing.PlaceState) : Placing.PlaceState :=
  {| Placing.checkout :=
       match Checkout.orderId (Placing.checkout st) with
       | None => Placing.checkout st
       | Some orderId =>
           if negb (JS.truthy orderId) then Placing.checkout st
           else
             match fetchOrderById orderId with
             | None => Placing.checkout st
             | Some order =>
                 let st1 :=
                   setStatus (Some (Checkout.order_status order))
                     (Placing.checkout st) in
                 if Checkout.is_closed (Checkout.order_status order) then
                   let st2 := Checkout.forgetStoredOrder st1 in
                   match Checkout.order_status order with
                   | Checkout.approved => Checkout.setOrderCells None None st2
                   | _ => st2
                   end
                 else st1
             end
       end;
     Placing.receiptError := Placing.receiptError st;
     Placing.isOrderModalOpen := false;
     Placing.isPlacingOrder := Placing.isPlacingOrder st |}.
End Close.

End OrderWindow.

(** The cells after the order [o1] was placed. *)
Definition sample_placed_state : Placing.PlaceState :=
  Placing.placed
    {| Checkout.order_id := "o1"; Checkout.order_status := Checkout.pending;
       Checkout.customer_info := None |}
    (sample_place_state ∅).


(** ** The checkout form, in the words of the specification *)

(** The variation id a line is grouped under: the id of the selected
    variation, [default] without one or with an empty id. *)
Definition chosenVariationId (line : CartItem) : string :=
  match selectedVariation line with
  | Some v => match variation_id v with "" => "default" | i => i end
  | None => "default"
  end.

(** The line defines custom fields; some line of the cart does. *)
Definition defines_fields (line : CartItem) : Prop :=
  exists f fs, customFields (baseItem line) = Some (f :: fs).

Definition fields_defined (cartItems : list CartItem) : Prop :=
  exists line, In line cartItems /\ defines_fields line.

(** [line] is the first line of the cart with the property [P]. *)
Definition first_line (P : CartItem -> Prop) (cartItems : list CartItem)
    (line : CartItem) : Prop :=
  exists before after,
    cartItems = (before ++ line :: after)%list
    /\ P line
    /\ forall x, In x before -> ~ P x.

(** A stored account is for the line that carries its game's name and has
    selected the variation its package names. *)
Definition package_line (account : Checkout.Account) (line : CartItem) : Prop :=
  name (baseItem line) = Checkout.game account
  /\ exists v, selectedVariation line = Some v
               /\ variation_name v = Checkout.package account.

(** What a stored account holds for the input [k] of [line]: the value
    under a field's label for that field's input, or the [IGN] for the
    default input of the package when the cart defines no custom fields or
    the line has none; an empty value counts as no value. *)
Definition account_value (cartItems : list CartItem) (account : Checkout.Account)
    (line : CartItem) (k v : string) : Prop :=
  v <> ""
  /\ ((fields_defined cartItems
       /\ exists fs field,
            customFields (baseItem line) = Some fs /\ In field fs
            /\ Checkout.fields account !! field_label field = Some v
            /\ k = Checkout.originalId line ++ "_" ++ chosenVariationId line
                   ++ "_" ++ field_key field)
      \/ ((~ fields_defined cartItems \/ customFields (baseItem line) = None)
          /\ Checkout.fields account !! "IGN" = Some v
          /\ k = "default_" ++ Checkout.originalId line ++ "_"
                 ++ chosenVariationId line ++ "_ign")).

(** The account holds [v] for the input [k] of the first line it is for. *)
Definition account_loads (cartItems : list CartItem) (account : Checkout.Account)
    (k v : string) : Prop :=
  exists line,
    first_line (package_line account) cartItems line
    /\ account_value cartItems account line k v.

(** The writes of the loader of a [Multiple Accounts] record for one
    account, in the order it makes them. *)
Definition accountWrites (cartItems : list CartItem) (account : Checkout.Account)
  : list (string * string) :=
  match List.find
          (fun item =>
             String.eqb (name (baseItem item)) (Checkout.game account)
             && match selectedVariation item with
                | Some v => String.eqb (variation_name v) (Checkout.package account)
                | None => false
                end)
          cartItems with
  | None => []
  | Some matchingItem =>
      match Checkout.hasAnyCustomFields cartItems,
            customFields (baseItem matchingItem) with
      | true, Some fs =>
          flat_map
            (fun field =>
               match Checkout.fields account !! field_label field with
               | Some fieldValue =>
                   if JS.truthy fieldValue
                   then [(Checkout.originalId matchingItem ++ "_"
                          ++ Checkout.variationIdOf matchingItem ++ "_"
                          ++ field_key field, fieldValue)]
                   else []
               | None => []
               end)
            fs
      | _, _ =>
          match Checkout.fields account !! "IGN" with
          | Some ignValue =>
              if JS.truthy ignValue
              then [("default_" ++ Checkout.originalId matchingItem ++ "_"
                     ++ Checkout.variationIdOf matchingItem ++ "_ign", ignValue)]
              else []
          | None => []
          end
      end
  end.

(** A rejected order placed in multiple-accounts mode: the stored record
    of one package of [Game], and a cart that holds that package. *)
Definition sample_account : Checkout.Account :=
  {| Checkout.game := "Game"; Checkout.package := "100 Gems";
     Checkout.fields := {["IGN" := "Ana"]} |}.

Definition sample_accounts_order : Checkout.Order :=
  {| Checkout.order_id := "o1";
     Checkout.order_status := Checkout.rejected;
     Checkout.customer_info :=
       Some {| Checkout.multipleAccounts := Some [sample_account];
               Checkout.entries := [("Payment Method", "GCash")] |} |}.

Definition sample_package_cart : list CartItem :=
  [sample_package_line "game:::CART:::1-a" sample_variation].


(** An input without value: missing, empty or white space only. *)
Definition blank_input (values : gmap string string) (k : string) : Prop :=
  Checkout.blank (values !! k) = true.

(** The required inputs of the details step, game by game.  In
    single-account mode a game's fields are those of its first line that
    defines fields, one input each; in multiple-accounts mode they are
    those of its first line, one input for each variation id selected
    among the game's lines.  A cart without custom fields asks for the
    default [IGN], once in single-account mode and once for each game and
    variation id in multiple-accounts mode.  [required_blank] says that
    one of the required inputs is blank. *)
Definition required_blank (cartItems : list CartItem) (multi : bool)
    (values : gmap string string) : Prop :=
  if multi then
    (fields_defined cartItems
     /\ exists line first fs field,
          In line cartItems
          /\ first_line (fun x => Checkout.originalId x = Checkout.originalId line)
               cartItems first
          /\ customFields (baseItem first) = Some fs
          /\ In field fs /\ field_required field = true
          /\ blank_input values
               (Checkout.originalId line ++ "_" ++ chosenVariationId line ++ "_"
                ++ field_key field))
    \/ (~ fields_defined cartItems
        /\ exists line,
             In line cartItems
             /\ blank_input values
                  ("default_" ++ Checkout.originalId line ++ "_"
                   ++ chosenVariationId line ++ "_ign"))
  else
    (exists line fs field,
       first_line
         (fun x => defines_fields x
                   /\ Checkout.originalId x = Checkout.originalId line)
         cartItems line
       /\ customFields (baseItem line) = Some fs
       /\ In field fs /\ field_required field = true
       /\ blank_input values (Checkout.originalId line ++ "_" ++ field_key field))
    \/ (~ fields_defined cartItems /\ blank_input values "default_ign").

(** The claim as it is written: a required field of a cart line, under
    the input of that line, per line in single-account mode and per line
    and variation in multiple-accounts mode, or the default [IGN] of the
    mode when no line defines custom fields. *)
Definition claimed_blank (cartItems : list CartItem) (multi : bool)
    (values : gmap string string) : Prop :=
  (~ fields_defined cartItems
   /\ if multi
      then exists line,
             In line cartItems
             /\ blank_input values
                  ("default_" ++ Checkout.originalId line ++ "_"
                   ++ chosenVariationId line ++ "_ign")
      else blank_input values "default_ign")
  \/ (exists line fs field,
        In line cartItems
        /\ customFields (baseItem line) = Some fs
        /\ In field fs /\ field_required field = true
        /\ blank_input values
             (if multi
              then Checkout.originalId line ++ "_" ++ chosenVariationId line ++ "_"
                   ++ field_key field
              else Checkout.originalId line ++ "_" ++ field_key field)).

(** The lines of a game all carry the custom fields of the game. *)
Definition fields_per_game (cartItems : list CartItem) : Prop :=
  forall l1 l2,
    In l1 cartItems -> In l2 cartItems ->
    Checkout.originalId l1 = Checkout.originalId l2 ->
    customFields (baseItem l1) = customFields (baseItem l2).




(* ================================================================== *)
(** * Properties *)

(** ** Strings and sorting *)

Section SortFacts.
Context {A : Type} (le_cmp : A -> A -> bool).

Lemma insert_by_perm (x : A) (l : list A) :
  JS.insert_by le_cmp x l ≡ₚ x :: l.
Proof.
  induction l as [|y l IH]; simpl; [done|].
  destruct (le_cmp x y); [done|].
  rewrite IH. apply Permutation_swap.
Qed.

Lemma sort_by_perm (l : list A) : JS.sort_by le_cmp l ≡ₚ l.
Proof.
  induction l as [|x l IH]; simpl; [done|].
  unfold JS.sort_by in IH. rewrite insert_by_perm. by rewrite IH.
Qed.

Lemma insert_by_sorted (x : A) (l : list A) :
  total_cmp le_cmp ->
  Sorted (fun a b => le_cmp a b = true) l ->
  Sorted (fun a b => le_cmp a b = true) (JS.insert_by le_cmp x l).
Proof.
  intros Htotal Hl. induction Hl as [|y l Hl IH Hhd]; simpl.
  - by repeat constructor.
  - destruct (le_cmp x y) eqn:Hxy.
    + constructor; [by constructor|by constructor].
    + constructor; [exact IH|].
      destruct l as [|z l]; simpl.
      * constructor. by destruct (Htotal x y) as [Hle|Hle]; [congruence|].
      * inversion Hhd; subst. destruct (le_cmp x z).
        -- constructor. by destruct (Htotal x y) as [Hle|Hle]; [congruence|].
        -- by constructor.
Qed.

Lemma sort_by_sorted (l : list A) :
  total_cmp le_cmp -> Sorted (fun a b => le_cmp a b = true) (JS.sort_by le_cmp l).
Proof.
  intros Htotal. induction l as [|x l IH]; [constructor|].
  change (JS.sort_by le_cmp (x :: l))
    with (JS.insert_by le_cmp x (JS.sort_by le_cmp l)).
  by apply insert_by_sorted.
Qed.

(** Sorting leaves a sorted list as it is. *)
Lemma sort_by_fixed (l : list A) :
  Sorted (fun a b => le_cmp a b = true) l -> JS.sort_by le_cmp l = l.
Proof.
  induction 1 as [|x l Hl IH Hhd]; [done|].
  change (JS.sort_by le_cmp (x :: l))
    with (JS.insert_by le_cmp x (JS.sort_by le_cmp l)).
  rewrite IH.
  destruct Hhd as [|y l Hxy]; simpl; [done|]. by rewrite Hxy.
Qed.

Lemma sort_by_idempotent (l : list A) :
  total_cmp le_cmp ->
  JS.sort_by le_cmp (JS.sort_by le_cmp l) = JS.sort_by le_cmp l.
Proof. intros Htotal. by apply sort_by_fixed, sort_by_sorted. Qed.
End SortFacts.

Lemma sort_default_perm (l1 l2 : list string) :
  l1 ≡ₚ l2 -> JS.sort_default l1 = JS.sort_default l2.
Proof.
  intros Hp. unfold JS.sort_default.
  apply (Sorted_unique String.le).
  - apply Sorted_merge_sort; apply _.
  - apply Sorted_merge_sort; apply _.
  - by rewrite !merge_sort_Permutation.
Qed.

Lemma before_sep_fresh (i suffix : string) :
  colon_free i ->
  JS.before_sep ":::CART:::" (i ++ ":::CART:::" ++ suffix) = Some i.
Proof.
  unfold colon_free. induction i as [|c i IH]; intros Hc.
  - vm_compute. reflexivity.
  - inversion Hc as [|? ? Hne Hrest]; subst.
    change (String c i ++ ":::CART:::" ++ suffix)
      with (String c (i ++ ":::CART:::" ++ suffix)).
    cbn [JS.before_sep JS.starts_with].
    destruct (Ascii.eqb_spec ":" c) as [<-|_]; [by destruct Hne|].
    cbn [andb]. by rewrite IH.
Qed.

(** ** Grouping of add-ons *)

Lemma group_step_fresh (acc : list AddOn) (a : AddOn) :
  addon_id a ∉ map addon_id acc ->
  Cart.group_step acc a
  = (acc ++ [Cart.set_quantity (JS.or_num (addon_quantity a) 1) a])%list.
Proof.
  induction acc as [|g acc IH]; intros Hfresh; simpl; [done|].
  apply not_elem_of_cons in Hfresh as [Hne Hfresh].
  destruct (String.eqb_spec (addon_id g) (addon_id a)) as [Heq|_].
  - by destruct Hne.
  - by rewrite IH.
Qed.

Lemma group_step_ids (acc : list AddOn) (a : AddOn) (x : string) :
  x ∈ map addon_id (Cart.group_step acc a) ->
  x ∈ map addon_id acc \/ x = addon_id a.
Proof.
  induction acc as [|g acc IH]; simpl.
  - intros ->%list_elem_of_singleton. by right.
  - destruct (String.eqb (addon_id g) (addon_id a)); simpl.
    + by left.
    + intros [->|Hin]%elem_of_cons; [left; by left|].
      destruct (IH Hin) as [?|?]; [left; by right|by right].
Qed.

Lemma group_step_NoDup (acc : list AddOn) (a : AddOn) :
  NoDup (map addon_id acc) -> NoDup (map addon_id (Cart.group_step acc a)).
Proof.
  induction acc as [|g acc IH]; simpl; intros Hnd.
  - apply NoDup_singleton.
  - apply NoDup_cons in Hnd as [Hg Hnd].
    destruct (String.eqb_spec (addon_id g) (addon_id a)) as [Heq|Hne]; simpl.
    + by apply NoDup_cons.
    + apply NoDup_cons. split; [|by apply IH].
      intros [?|?]%group_step_ids; [done|congruence].
Qed.

Lemma or_num_nonneg (n : option Z) :
  match n with Some q => 0 <= q | None => True end -> 0 < JS.or_num n 1.
Proof.
  destruct n as [q|]; simpl; [|lia].
  destruct (Z.eqb_spec q 0); lia.
Qed.

Lemma or_num_positive (q : Z) : 0 < q -> JS.or_num (Some q) 1 = q.
Proof. intros Hq. simpl. destruct (Z.eqb_spec q 0); [lia|done]. Qed.

Lemma group_step_positive (acc : list AddOn) (a : AddOn) :
  Forall positive_quantity acc -> nonneg_quantity a ->
  Forall positive_quantity (Cart.group_step acc a).
Proof.
  intros Hacc Ha. induction Hacc as [|g acc [q [Hq Hpos]] Hacc IH]; simpl.
  - constructor; [|constructor].
    eexists; split; [reflexivity|]. by apply or_num_nonneg.
  - destruct (String.eqb (addon_id g) (addon_id a)).
    + constructor; [|done]. eexists; split; [reflexivity|].
      rewrite Hq, or_num_positive by done. lia.
    + constructor; [by exists q|done].
Qed.

Lemma fold_group_invariant (l acc : list AddOn) :
  Forall nonneg_quantity l ->
  Forall positive_quantity acc -> NoDup (map addon_id acc) ->
  Forall positive_quantity (fold_left Cart.group_step l acc)
  /\ NoDup (map addon_id (fold_left Cart.group_step l acc)).
Proof.
  intros Hl. revert acc.
  induction Hl as [|a l Ha Hl IH]; intros acc Hacc Hnd; simpl; [done|].
  apply IH; [by apply group_step_positive|by apply group_step_NoDup].
Qed.

Lemma set_quantity_same (a : AddOn) (q : Z) :
  addon_quantity a = Some q -> Cart.set_quantity q a = a.
Proof. destruct a; simpl; intros ->; reflexivity. Qed.

(** Grouping a list that is already grouped changes nothing. *)
Lemma fold_group_fixed (g acc : list AddOn) :
  Forall positive_quantity g ->
  NoDup (map addon_id (acc ++ g)%list) ->
  fold_left Cart.group_step g acc = (acc ++ g)%list.
Proof.
  intros Hg. revert acc.
  induction Hg as [|a g [q [Hq Hpos]] Hg IH]; intros acc Hnd; simpl.
  - by rewrite app_nil_r.
  - rewrite group_step_fresh.
    + rewrite Hq, or_num_positive, set_quantity_same by done.
      rewrite IH; rewrite <- app_assoc; done.
    + rewrite map_app in Hnd. apply NoDup_app in Hnd as (_ & Hdisj & _).
      intros Hin. apply (Hdisj _ Hin). simpl. by left.
Qed.

Lemma group_step_hit (acc : list AddOn) (a : AddOn) :
  NoDup (map addon_id acc) ->
  addon_id a ∈ map addon_id acc ->
  Cart.group_step acc a = map (bump (addon_id a)) acc.
Proof.
  unfold bump. induction acc as [|g acc IH]; simpl; intros Hnd Hin.
  - by apply elem_of_nil in Hin.
  - apply NoDup_cons in Hnd as [Hg Hnd].
    destruct (String.eqb_spec (addon_id g) (addon_id a)) as [Heq|Hne].
    + f_equal. rewrite Heq in Hg. clear -Hg.
      induction acc as [|h acc IH]; simpl; [done|].
      apply not_elem_of_cons in Hg as [Hh Hg].
      destruct (String.eqb_spec (addon_id h) (addon_id a)); [congruence|].
      by rewrite <- IH.
    + f_equal. apply IH; [done|].
      apply elem_of_cons in Hin as [?|?]; [congruence|done].
Qed.

Lemma occurrences_snoc (i : string) (p : list AddOn) (a : AddOn) :
  occurrences i (p ++ [a])%list
  = occurrences i p + (if String.eqb (addon_id a) i then 1 else 0).
Proof.
  unfold occurrences. rewrite map_app, count_occ_app. simpl.
  destruct (string_dec (addon_id a) i) as [->|Hne].
  - rewrite String.eqb_refl. lia.
  - apply String.eqb_neq in Hne. rewrite Hne. lia.
Qed.

Lemma occurrences_absent (i : string) (p : list AddOn) :
  i ∉ map addon_id p -> occurrences i p = 0.
Proof.
  intros Hout. unfold occurrences.
  rewrite (proj1 (count_occ_not_In string_dec _ _)); [done|].
  by rewrite <- list_elem_of_In.
Qed.

Lemma counted_step (acc p : list AddOn) (a : AddOn) :
  flat_quantity a -> counted acc p ->
  counted (Cart.group_step acc a) (p ++ [a])%list.
Proof.
  intros Hflat (Hnd & Hcover & Hacc).
  split; [by apply group_step_NoDup|].
  destruct (decide (addon_id a ∈ map addon_id acc)) as [Hin|Hout].
  - rewrite group_step_hit by done. split.
    + assert (Hids : map addon_id (map (bump (addon_id a)) acc) = map addon_id acc).
      { rewrite map_map. apply map_ext. intros g. unfold bump.
        by destruct (String.eqb _ _). }
      rewrite Hids. intros i Hi. rewrite map_app in Hi.
      apply elem_of_app in Hi as [Hi|Hi]; [by apply Hcover|].
      apply list_elem_of_singleton in Hi as ->. done.
    + apply Forall_forall. intros g' Hg'.
      apply list_elem_of_In, in_map_iff in Hg' as (g & <- & Hg).
      apply list_elem_of_In in Hg.
      destruct (proj1 (Forall_forall _ _) Hacc g Hg) as [Hq Hpos].
      unfold bump. rewrite occurrences_snoc.
      destruct (String.eqb_spec (addon_id g) (addon_id a)) as [Heq|Hne]; simpl.
      * rewrite Heq, String.eqb_refl, Hq, or_num_positive by done.
        rewrite <- Heq. split; [done|lia].
      * apply not_eq_sym, String.eqb_neq in Hne. rewrite Hne, Z.add_0_r. done.
  - rewrite group_step_fresh by done. split.
    + intros i Hi. rewrite map_app in Hi |- *.
      apply elem_of_app in Hi as [Hi|Hi]; apply elem_of_app;
        [left; by apply Hcover|by right].
    + apply Forall_app. split.
      * apply Forall_forall. intros g Hg.
        destruct (proj1 (Forall_forall _ _) Hacc g Hg) as [Hq Hpos].
        rewrite occurrences_snoc.
        destruct (String.eqb_spec (addon_id a) (addon_id g)) as [Heq|_].
        -- destruct Hout. rewrite Heq. apply list_elem_of_In, in_map.
           by apply list_elem_of_In.
        -- by rewrite Z.add_0_r.
      * repeat constructor; simpl;
          rewrite occurrences_snoc, String.eqb_refl, occurrences_absent
            by (intros Hp; by apply Hout, Hcover);
          [|lia].
        by destruct Hflat as [-> | ->].
Qed.

Lemma counted_fold (l acc p : list AddOn) :
  Forall flat_quantity l -> counted acc p ->
  counted (fold_left Cart.group_step l acc) (p ++ l)%list.
Proof.
  intros Hl. revert acc p.
  induction Hl as [|a l Ha _ IH]; intros acc p Hacc; simpl.
  - by rewrite app_nil_r.
  - replace (p ++ a :: l)%list with ((p ++ [a]) ++ l)%list
      by (by rewrite <- app_assoc).
    by apply IH, counted_step.
Qed.

Section CartFacts.
Variable locale_le : string -> string -> bool.


Lemma normalizeAddOns_Some (l : list AddOn) :
  Cart.normalizeAddOns locale_le (Some l)
  = JS.sort_by (fun a b => locale_le (addon_id a) (addon_id b))
      (fold_left Cart.group_step l []).
Proof. by destruct l. Qed.

Lemma normalizeAddOns_grouped (addOns : option (list AddOn)) :
  nonneg_quantities addOns ->
  Forall positive_quantity (Cart.normalizeAddOns locale_le addOns)
  /\ NoDup (map addon_id (Cart.normalizeAddOns locale_le addOns)).
Proof.
  destruct addOns as [l|]; [|by split; constructor].
  intros Hl. rewrite normalizeAddOns_Some.
  destruct (fold_group_invariant l [] Hl) as [Hpos Hnd];
    [constructor|constructor|].
  split.
  - eapply Permutation_Forall; [|exact Hpos].
    symmetry. apply sort_by_perm.
  - by rewrite sort_by_perm.
Qed.

(** Normalising a normalised list permutes it at most. *)
Lemma normalizeAddOns_again (addOns : option (list AddOn)) :
  nonneg_quantities addOns ->
  Cart.normalizeAddOns locale_le (Some (Cart.normalizeAddOns locale_le addOns))
  ≡ₚ Cart.normalizeAddOns locale_le addOns.
Proof.
  intros Hl. destruct (normalizeAddOns_grouped addOns Hl) as [Hpos Hnd].
  rewrite normalizeAddOns_Some.
  rewrite (fold_group_fixed _ []) by done.
  apply sort_by_perm.
Qed.

(** Normalisation is idempotent when the collation orders any two ids. *)
Lemma normalizeAddOns_idempotent (addOns : option (list AddOn)) :
  total_cmp locale_le ->
  nonneg_quantities addOns ->
  Cart.normalizeAddOns locale_le (Some (Cart.normalizeAddOns locale_le addOns))
  = Cart.normalizeAddOns locale_le addOns.
Proof.
  intros Htotal Hl. destruct (normalizeAddOns_grouped addOns Hl) as [Hpos Hnd].
  rewrite normalizeAddOns_Some.
  rewrite (fold_group_fixed _ []) by done.
  destruct addOns as [l|]; [|done].
  rewrite normalizeAddOns_Some. apply sort_by_idempotent.
  intros a b. apply Htotal.
Qed.

(** The result is sorted by id and holds every id once. *)
Lemma normalizeAddOns_sorted (addOns : option (list AddOn)) :
  total_cmp locale_le ->
  Sorted (fun a b => locale_le (addon_id a) (addon_id b) = true)
    (Cart.normalizeAddOns locale_le addOns)
  /\ NoDup (map addon_id (Cart.normalizeAddOns locale_le addOns)).
Proof.
  intros Htotal. destruct addOns as [l|]; [|split; constructor].
  rewrite normalizeAddOns_Some. split.
  - apply (sort_by_sorted (fun a b => locale_le (addon_id a) (addon_id b))).
    intros a b. apply Htotal.
  - rewrite sort_by_perm.
    assert (Hnd : forall acc, NoDup (map addon_id acc) ->
                    NoDup (map addon_id (fold_left Cart.group_step l acc))).
    { induction l as [|a l IH]; intros acc Hacc; simpl; [done|].
      by apply IH, group_step_NoDup. }
    apply Hnd. constructor.
Qed.

(** On a flat list every id ends with the number of its entries. *)
Lemma normalizeAddOns_flat_counts (l : list AddOn) (g : AddOn) :
  Forall flat_quantity l ->
  In g (Cart.normalizeAddOns locale_le (Some l)) ->
  addon_quantity g = Some (occurrences (addon_id g) l).
Proof.
  intros Hflat Hg. rewrite normalizeAddOns_Some in Hg.
  apply list_elem_of_In in Hg. rewrite sort_by_perm in Hg.
  destruct (counted_fold l [] [] Hflat) as (_ & _ & Hall).
  { split; [constructor|]. split; [done|constructor]. }
  by destruct (proj1 (Forall_forall _ _) Hall g Hg) as [Hq _].
Qed.

Lemma createItemKey_normalized (m : string) (v : option Variation)
    (addOns : option (list AddOn)) :
  nonneg_quantities addOns ->
  Cart.createItemKey locale_le m v (Some (Cart.normalizeAddOns locale_le addOns))
  = Cart.createItemKey locale_le m v addOns.
Proof.
  intros Hl. unfold Cart.createItemKey.
  erewrite sort_default_perm; [reflexivity|].
  by apply Permutation_map, normalizeAddOns_again.
Qed.

Lemma no_line_existsb (key : string) (cart : list CartItem) :
  Cart.lines_with_key locale_le key cart = [] ->
  existsb (fun c => String.eqb (Cart.cartItemKey locale_le c) key) cart = false.
Proof.
  unfold Cart.lines_with_key. induction cart as [|c cart IH]; [done|].
  rewrite filter_cons. simpl.
  destruct (decide (Cart.cartItemKey locale_le c = key)) as [Heq|Hne]; [done|].
  intros Hnil. rewrite (IH Hnil).
  by destruct (String.eqb_spec (Cart.cartItemKey locale_le c) key).
Qed.

(** A call that finds no line of its key puts a new line in front. *)
Lemma addToCart_insert (m : option Member) (suffix : string) (item : MenuItem)
    (q : Z) (v : option Variation) (a : option (list AddOn)) (o : option Q)
    (prev : list CartItem) :
  Cart.lines_with_key locale_le (Cart.createItemKey locale_le (id item) v a) prev = [] ->
  Cart.addToCart locale_le m suffix item q v a o prev
  = {| baseItem := with_id (id item ++ ":::CART:::" ++ suffix) item;
       quantity := q;
       selectedVariation := v;
       selectedAddOns := Some (Cart.normalizeAddOns locale_le a);
       totalPrice :=
         match o with
         | Some p => p
         | None => Cart.calculateItemPrice m item v a
         end;
       effectiveUnitPriceOverride := o |} :: prev.
Proof.
  intros Hnone. unfold Cart.addToCart.
  by rewrite (no_line_existsb _ _ Hnone).
Qed.

(** A call whose key is that of the first line adds to its quantity and
    touches nothing else. *)
Lemma addToCart_merge_head (m : option Member) (suffix : string) (item : MenuItem)
    (q : Z) (v : option Variation) (a : option (list AddOn)) (o : option Q)
    (c : CartItem) (rest : list CartItem) :
  Cart.cartItemKey locale_le c = Cart.createItemKey locale_le (id item) v a ->
  Cart.addToCart locale_le m suffix item q v a o (c :: rest)
  = with_quantity (quantity c + q) c :: rest.
Proof.
  intros Hkey. unfold Cart.addToCart. simpl.
  rewrite Hkey, String.eqb_refl. reflexivity.
Qed.

(** A call whose key is in the cart adds to the quantity of the first line
    of that key; the lines before and after it, and the line's price,
    stay. *)
Lemma addToCart_merge_existing (m : option Member) (suffix : string)
    (item : MenuItem) (q : Z) (v : option Variation) (a : option (list AddOn))
    (o : option Q) (prev : list CartItem) :
  Cart.lines_with_key locale_le (Cart.createItemKey locale_le (id item) v a) prev
  <> [] ->
  exists before line after,
    prev = (before ++ line :: after)%list
    /\ Cart.lines_with_key locale_le (Cart.createItemKey locale_le (id item) v a) before
       = []
    /\ Cart.cartItemKey locale_le line = Cart.createItemKey locale_le (id item) v a
    /\ Cart.addToCart locale_le m suffix item q v a o prev
       = (before ++ with_quantity (quantity line + q) line :: after)%list.
Proof.
  unfold Cart.addToCart, Cart.lines_with_key.
  set (key := Cart.createItemKey locale_le (id item) v a). clearbody key.
  induction prev as [|c prev IH]; [done|].
  rewrite filter_cons. simpl.
  destruct (decide (Cart.cartItemKey locale_le c = key)) as [Heq|Hne].
  - intros _. exists [], c, prev. rewrite Heq, String.eqb_refl. by simpl.
  - intros Hsome. destruct (IH Hsome) as (before & line & after & -> & Hb & Hl & Hrun).
    exists (c :: before), line, after.
    apply String.eqb_neq in Hne as Hneb. rewrite Hneb. simpl.
    split; [done|]. split; [by rewrite filter_cons, decide_False|].
    split; [done|].
    destruct (existsb _ (before ++ line :: after)) eqn:Hex.
    + by rewrite Hrun.
    + exfalso. rewrite existsb_app in Hex. simpl in Hex.
      rewrite Hl, String.eqb_refl in Hex. simpl in Hex.
      by rewrite orb_true_r in Hex.
Qed.

(** The line a call inserts is found again under the call's own key. *)
Lemma inserted_line_key (suffix : string) (item : MenuItem) (q : Z)
    (v : option Variation) (a : option (list AddOn)) (p : Q) (o : option Q) :
  colon_free (id item) -> nonneg_quantities a ->
  Cart.cartItemKey locale_le
    {| baseItem := with_id (id item ++ ":::CART:::" ++ suffix) item;
       quantity := q; selectedVariation := v;
       selectedAddOns := Some (Cart.normalizeAddOns locale_le a);
       totalPrice := p; effectiveUnitPriceOverride := o |}
  = Cart.createItemKey locale_le (id item) v a.
Proof.
  intros Hid Ha. unfold Cart.cartItemKey, Cart.originalMenuItemId. simpl.
  rewrite (before_sep_fresh _ _ Hid).
  by apply createItemKey_normalized.
Qed.

Lemma two_calls_one_line (m1 m2 : option Member) (s1 s2 : string)
    (item1 item2 : MenuItem) (q1 q2 : Z) (v1 v2 : option Variation)
    (a1 a2 : option (list AddOn)) (o1 o2 : option Q) (prev : list CartItem) :
  colon_free (id item1) ->
  nonneg_quantities a1 ->
  Cart.createItemKey locale_le (id item1) v1 a1
  = Cart.createItemKey locale_le (id item2) v2 a2 ->
  Cart.lines_with_key locale_le (Cart.createItemKey locale_le (id item1) v1 a1) prev
  = [] ->
  exists line,
    Cart.addToCart locale_le m2 s2 item2 q2 v2 a2 o2
      (Cart.addToCart locale_le m1 s1 item1 q1 v1 a1 o1 prev) = line :: prev
    /\ Cart.lines_with_key locale_le (Cart.createItemKey locale_le (id item1) v1 a1)
         (line :: prev)
       = [line]
    /\ quantity line = q1 + q2
    /\ totalPrice line
       = match o1 with
         | Some p => p
         | None => Cart.calculateItemPrice m1 item1 v1 a1
         end
    /\ effectiveUnitPriceOverride line = o1.
Proof.
  intros Hid Ha Hkeys Hnone.
  rewrite (addToCart_insert _ _ _ _ _ _ _ _ Hnone).
  rewrite addToCart_merge_head
    by (rewrite <- Hkeys; by apply inserted_line_key).
  eexists. split; [reflexivity|].
  split; [|by simpl].
  unfold Cart.lines_with_key in *. rewrite filter_cons, Hnone.
  rewrite decide_True; [done|].
  by apply (inserted_line_key s1 item1 (q1 + q2)).
Qed.

End CartFacts.

(** C1.  Two calls with one signature that the cart does not merge.  The
    add-on lists hold the same multiset, five units of [x], in two orders;
    the cart keys them [x:3] and [x:4], so the second call finds no line
    and inserts one: two lines of quantity 1 where the claim has one line
    of quantity 2.  This holds for every collation, member and pair of id
    tokens. *)
Theorem addToCart_same_multiset_not_merged (locale_le : string -> string -> bool)
    (m : option Member) (s1 s2 : string) :
  let first := Some [sample_addon "x" (Some 2); sample_addon "x" (Some 3)] in
  let second := Some [sample_addon "x" (Some 3); sample_addon "x" (Some 2)] in
  let cart :=
    Cart.addToCart locale_le m s2 (sample_item "game") 1 None second None
      (Cart.addToCart locale_le m s1 (sample_item "game") 1 None first None []) in
  same_signature (sample_item "game") None first (sample_item "game") None second
  /\ map quantity cart = [1; 1]
  /\ map (Cart.cartItemKey locale_le) cart = ["game|none|x:4"; "game|none|x:3"].
Proof.
  split; [|split; reflexivity].
  split; [reflexivity|]. split; [reflexivity|].
  intros i.
  cbv beta iota zeta
    delta [addOnCount fold_right sample_addon addon_id addon_quantity default].
  by destruct (String.eqb "x" i).
Qed.

(** C3: the reducer counts every further entry of an id as one unit,
    whatever quantity it carries.  Quantities 2 and 3 of one add-on give 3
    in one order and 4 in the other, never 5; this holds for every
    collation. *)
Theorem normalizeAddOns_duplicate_counts_one (locale_le : string -> string -> bool) :
  Cart.normalizeAddOns locale_le (Some [sample_addon "x" (Some 2); sample_addon "x" (Some 3)])
  = [sample_addon "x" (Some 3)]
  /\
  Cart.normalizeAddOns locale_le (Some [sample_addon "x" (Some 3); sample_addon "x" (Some 2)])
  = [sample_addon "x" (Some 4)].
Proof. split; reflexivity. Qed.

(** ** Prices *)

(** C4.  A reseller gets a variation's [reseller_price] when the variation
    defines both it and a [member_price]: in the cart's per-member price,
    and in the catalogue's display price for the variation the card
    resolves from the id it is given. *)
Theorem reseller_price_takes_precedence
    (v : Variation) (m : Member) (rp mp : Q)
    (item : MenuItem) (memberDiscounts : gmap string Q) (base : Q)
    (variationId : option string) :
  reseller_price v = JS.defined rp ->
  member_price v = JS.defined mp ->
  user_type m = reseller ->
  Cart.getVariationPriceForMember v (Some m) = rp
  /\ (Catalog.getVariationById item variationId = Some v ->
      Catalog.getDiscountedPriceSync item (Some m) memberDiscounts base variationId
      = Some rp).
Proof.
  intros Hrp Hmp Hm. split.
  - unfold Cart.getVariationPriceForMember. by rewrite Hm, Hrp.
  - intros Hv. unfold Catalog.getDiscountedPriceSync, Catalog.isReseller.
    rewrite Hm, Hv. simpl. by rewrite Hrp.
Qed.

(** A variation of the item is the one the card resolves from its id, when
    the id is not empty and no earlier variation shares it. *)
Lemma getVariationById_own_id (item : MenuItem) (vs : list Variation) (v : Variation) :
  variations item = Some vs ->
  In v vs ->
  NoDup (map variation_id vs) ->
  variation_id v <> "" ->
  Catalog.getVariationById item (Some (variation_id v)) = Some v.
Proof.
  intros Hvs Hin Hnd Hid. unfold Catalog.getVariationById. rewrite Hvs.
  assert (Htruthy : JS.truthy (variation_id v) = true)
    by (by destruct (variation_id v)).
  rewrite Htruthy. clear Hvs Htruthy Hid.
  induction vs as [|w vs IH]; [done|]. simpl in Hnd |- *.
  apply NoDup_cons in Hnd as [Hw Hnd].
  destruct (String.eqb_spec (variation_id w) (variation_id v)) as [Heq|Hne].
  - destruct Hin as [->|Hin]; [done|].
    destruct Hw. rewrite Heq. by apply list_elem_of_In, in_map.
  - destruct Hin as [->|Hin]; [done|]. by apply IH.
Qed.

(** C4, witness: a reseller looking at the 100 Gems package, priced 100,
    95 for members and 90 for resellers. *)
Lemma reseller_price_takes_precedence_witness :
  Cart.getVariationPriceForMember sample_variation
    (Some (sample_member reseller "active" "")) = 90%Q
  /\ Catalog.getDiscountedPriceSync (baseItem sample_line)
       (Some (sample_member reseller "active" "")) ∅ 100%Q (Some "v100") = Some 90%Q.
Proof.
  destruct (reseller_price_takes_precedence sample_variation
              (sample_member reseller "active" "") 90%Q 95%Q
              (baseItem sample_line) ∅ 100%Q (Some "v100")
              eq_refl eq_refl eq_refl) as [Hcart Hcard].
  split; [exact Hcart|apply Hcard; reflexivity].
Defined.

Lemma fold_left_running_sum {A : Type} (f : A -> Q) (l : list A) (x : Q) :
  (fold_left (fun p a => p + f a) l x
   == x + fold_right (fun a acc => f a + acc) 0 l)%Q.
Proof.
  revert x. induction l as [|a l IH]; intros x; simpl.
  - ring.
  - rewrite IH. ring.
Qed.

Lemma calculateItemPrice_sum (m : option Member) (item : MenuItem)
    (v : option Variation) (addOns : option (list AddOn)) :
  (Cart.calculateItemPrice m item v addOns
   == basePrice item + variationTierPrice m v + addOnsTotal addOns)%Q.
Proof.
  unfold Cart.calculateItemPrice, variationTierPrice, addOnsTotal.
  destruct addOns as [l|].
  - rewrite (fold_left_running_sum
               (fun a => inject_Z (JS.nullish (addon_quantity a) 1) * addon_price a)%Q).
    destruct v; ring.
  - destruct v; ring.
Qed.

(** C10.  A cart line without override is priced at base price plus
    member-tier variation price plus the add-ons' price times quantity,
    whatever the item's discount flag and percentage are; a line with an
    override is priced at the override. *)
Theorem cart_unit_price_ignores_discounts (m : option Member) (c : CartItem) :
  (effectiveUnitPriceOverride c = None ->
     (Cart.getEffectiveUnitPrice m c
      == basePrice (baseItem c) + variationTierPrice m (selectedVariation c)
         + addOnsTotal (selectedAddOns c))%Q
     /\ forall (d : bool) (p : option Q),
          Cart.getEffectiveUnitPrice m (with_base (with_discount d p (baseItem c)) c)
          = Cart.getEffectiveUnitPrice m c)
  /\ (forall o, effectiveUnitPriceOverride c = Some o ->
        Cart.getEffectiveUnitPrice m c = o).
Proof.
  unfold Cart.getEffectiveUnitPrice. split.
  - intros Hnone. rewrite Hnone. split.
    + apply calculateItemPrice_sum.
    + intros d p. simpl. by rewrite Hnone.
  - by intros o ->.
Qed.

(** C10, witness: a line of a half-price item, with the member price 95
    and two add-ons at 10, is priced 5 + 95 + 20 for a member, discount
    flag or not. *)
Lemma cart_unit_price_ignores_discounts_witness :
  (Cart.getEffectiveUnitPrice (Some (sample_member end_user "active" "")) sample_line
   == 120)%Q
  /\ Cart.getEffectiveUnitPrice (Some (sample_member end_user "active" ""))
       (with_base (with_discount false None (baseItem sample_line)) sample_line)
     = Cart.getEffectiveUnitPrice (Some (sample_member end_user "active" "")) sample_line.
Proof.
  destruct (cart_unit_price_ignores_discounts
              (Some (sample_member end_user "active" "")) sample_line)
    as [Hnone _].
  destruct (Hnone eq_refl) as [Hsum Hsame].
  split; [|apply Hsame].
  rewrite Hsum. reflexivity.
Defined.

(** What the catalogue card hands to the cart: the line it inserts carries
    the card's display price as its override, and that is its unit price. *)
Lemma handleItemSelect_bakes_price (locale_le : string -> string -> bool)
    (m : option Member) (memberDiscounts : gmap string Q) (suffix : string)
    (item : MenuItem) (v : Variation) :
  exists line,
    Catalog.handleItemSelect locale_le m memberDiscounts suffix item None (Some v) []
    = [line]
    /\ Cart.getEffectiveUnitPrice m line
       = (basePrice item
          + default 0
              (Catalog.getDiscountedPriceSync item m memberDiscounts (price v)
                 (Some (variation_id v))))%Q.
Proof. eexists. split; reflexivity. Qed.

(** ** Cart start-up *)

(** C9.  The initialiser always returns a cart, and it returns the empty
    one when the stored entry is missing, when reading it throws and when
    its text does not parse. *)
Theorem loadCartItems_never_throws
    (JSON_parse : string -> Outcome (list CartItem))
    (getItem : string -> Outcome (option string)) :
  (exists items, Cart.loadCartItems JSON_parse getItem = Returned items)
  /\ (getItem "amber_cartItems" = Returned None ->
      Cart.loadCartItems JSON_parse getItem = Returned [])
  /\ (forall saved e,
        getItem "amber_cartItems" = Returned (Some saved) ->
        JSON_parse saved = Thrown e ->
        Cart.loadCartItems JSON_parse getItem = Returned [])
  /\ (forall e,
        getItem "amber_cartItems" = Thrown e ->
        Cart.loadCartItems JSON_parse getItem = Returned []).
Proof.
  unfold Cart.loadCartItems. repeat split.
  - destruct (getItem "amber_cartItems") as [[saved|]|e]; eauto.
    destruct (JS.truthy saved); eauto.
    destruct (JSON_parse saved); eauto.
  - by intros ->.
  - intros saved e -> Hparse. rewrite Hparse. by destruct (JS.truthy saved).
  - by intros e ->.
Qed.

(** C9, witness: a stored text that does not parse, and no stored text. *)
Lemma loadCartItems_never_throws_witness :
  Cart.loadCartItems (fun _ => Thrown "SyntaxError")
    (fun _ => Returned (Some "{not json")) = Returned []
  /\ Cart.loadCartItems (fun _ => Thrown "SyntaxError")
       (fun _ => Returned None) = Returned [].
Proof.
  split.
  - destruct (loadCartItems_never_throws (fun _ => Thrown "SyntaxError")
                (fun _ => Returned (Some "{not json")))
      as (_ & _ & Hparse & _).
    exact (Hparse "{not json" "SyntaxError" eq_refl eq_refl).
  - destruct (loadCartItems_never_throws (fun _ => Thrown "SyntaxError")
                (fun _ => Returned None))
      as (_ & Hmissing & _).
    exact (Hmissing eq_refl).
Defined.

(** ** Member session *)

Lemma select_eq_email_absent (members : list Member) (e : string) :
  Forall (fun m => email m <> e) members ->
  Auth.select_eq_email members e = None.
Proof.
  intros Hall. unfold Auth.select_eq_email.
  replace (List.filter (fun m => String.eqb (email m) e) members) with (@nil Member);
    [done|].
  induction Hall as [|m members Hm Hall IH]; simpl; [done|].
  by destruct (String.eqb_spec (email m) e).
Qed.

(** C8.  [login] answers [InvalidCredentials] when no member is found for
    the email (none has it, or the lookup of a single row fails) and when
    an active member's password hash differs, answers
    [InactiveAccount] when the member found is not active, and otherwise
    succeeds with the member, which becomes the current member and whose
    id is stored under [member_id]. *)
Theorem login_outcomes (hashPassword : string -> string)
    (members : list Member) (data : Auth.LoginMemberData) (st : Auth.AuthState) :
  let result := Auth.login hashPassword (Auth.Reachable members) data st in
  let found := Auth.select_eq_email members (Auth.login_email data) in
  (Forall (fun m => email m <> Auth.login_email data) members ->
     result = (st, Auth.failure Auth.InvalidCredentials))
  /\ (found = None -> result = (st, Auth.failure Auth.InvalidCredentials))
  /\ (forall m, found = Some m -> status m <> "active" ->
        result = (st, Auth.failure Auth.InactiveAccount))
  /\ (forall m, found = Some m -> status m = "active" ->
        hashPassword (Auth.login_password data) <> password_hash m ->
        result = (st, Auth.failure Auth.InvalidCredentials))
  /\ (forall m, found = Some m -> status m = "active" ->
        hashPassword (Auth.login_password data) = password_hash m ->
        result.2 = Auth.succeeded m
        /\ Auth.currentMember result.1 = Some m
        /\ Auth.localStorage result.1 !! "member_id" = Some (member_id m)).
Proof.
  cbv zeta. unfold Auth.login, Auth.verifyPassword.
  split; [|split; [|split; [|split]]].
  - intros Hnone. by rewrite (select_eq_email_absent _ _ Hnone).
  - by intros ->.
  - intros m -> Hst. by destruct (String.eqb_spec (status m) "active").
  - intros m -> Hst Hpw. rewrite Hst. simpl.
    by destruct (String.eqb_spec (hashPassword (Auth.login_password data))
                  (password_hash m)).
  - intros m -> Hst Hpw. rewrite Hst, Hpw. simpl.
    rewrite String.eqb_refl. simpl.
    repeat split. apply lookup_insert_eq.
Qed.

(** ** Checkout: validation of the details step *)

Lemma trimStart_all_whitespace (s : string) :
  JS.all_whitespace s = true -> JS.trimStart s = "".
Proof.
  induction s as [|c s IH]; simpl; [done|].
  destruct (JS.is_whitespace c); simpl; [exact IH|discriminate].
Qed.

Lemma trimStart_some_ink (s : string) :
  JS.all_whitespace s = false ->
  exists c s', JS.trimStart s = String c s' /\ JS.is_whitespace c = false.
Proof.
  induction s as [|c s IH]; simpl; [discriminate|].
  destruct (JS.is_whitespace c) eqn:Hc; simpl; [exact IH|].
  intros _. by exists c, s.
Qed.

Lemma trimEnd_ink_first (c : ascii) (s : string) :
  JS.is_whitespace c = false -> JS.truthy (JS.trimEnd (String c s)) = true.
Proof.
  intros Hc. simpl. destruct (JS.trimEnd s); [by rewrite Hc|done].
Qed.

(** A value survives [trim] iff it is not white space only. *)
Lemma truthy_trim (s : string) :
  JS.truthy (JS.trim s) = negb (JS.all_whitespace s).
Proof.
  unfold JS.trim. destruct (JS.all_whitespace s) eqn:Hs.
  - by rewrite trimStart_all_whitespace.
  - destruct (trimStart_some_ink s Hs) as (c & s' & -> & Hc).
    by rewrite trimEnd_ink_first.
Qed.

Lemma filled_blank (values : gmap string string) (k : string) :
  Checkout.filled values k = negb (Checkout.blank (values !! k)).
Proof.
  unfold Checkout.filled, Checkout.blank.
  destruct (values !! k); [apply truthy_trim|done].
Qed.

Lemma forallb_flat_map {A B : Type} (p : B -> bool) (f : A -> list B) (l : list A) :
  forallb p (flat_map f l) = forallb (fun x => forallb p (f x)) l.
Proof.
  induction l as [|x l IH]; simpl; [done|].
  by rewrite forallb_app, IH.
Qed.

Lemma forallb_map_comp {A B : Type} (p : B -> bool) (f : A -> B) (l : list A) :
  forallb p (map f l) = forallb (fun x => p (f x)) l.
Proof. induction l as [|x l IH]; simpl; [done|]. by rewrite IH. Qed.

Lemma forallb_agree {A : Type} (p q : A -> bool) (l : list A) :
  Forall (fun x => p x = q x) l -> forallb p l = forallb q l.
Proof. induction 1 as [|x l Hx _ IH]; simpl; [done|]. by rewrite Hx, IH. Qed.

Lemma collect_flat_map {A B : Type} (f : A -> Outcome (list B))
    (g : A -> list B) (l : list A) :
  Forall (fun x => f x = Returned (g x)) l ->
  Checkout.collect f l = Returned (flat_map g l).
Proof. induction 1 as [|x l Hx _ IH]; simpl; [done|]. by rewrite Hx, IH. Qed.

(** Whatever holds of the values of a map and is kept by the update holds
    after [upsert]. *)
Lemma upsert_Forall {V : Type} (P : string -> V -> Prop)
    (f : option V -> V) (k : string) (m : list (string * V)) :
  Forall (fun kv => P kv.1 kv.2) m ->
  P k (f None) ->
  (forall v, P k v -> P k (f (Some v))) ->
  Forall (fun kv => P kv.1 kv.2) (Checkout.upsert f k m).
Proof.
  intros Hm Hnew Hupd.
  induction Hm as [|[k' v] m Hkv Hm IH]; simpl.
  - by repeat constructor.
  - destruct (String.eqb_spec k' k) as [->|_].
    + constructor; [by apply Hupd|done].
    + by constructor.
Qed.

Section Grouping.
Variable cartItems : list CartItem.

Lemma grouping_step (grouped : list (string * list (string * list CartItem)))
    (item : CartItem) :
  In item cartItems ->
  Forall (fun entry => game_ok cartItems entry.1 entry.2) grouped ->
  Forall (fun entry => game_ok cartItems entry.1 entry.2)
    (Checkout.upsert
       (fun variationsMap =>
          Checkout.upsert (fun items => (default [] items ++ [item])%list)
            (Checkout.variationIdOf item) (default [] variationsMap))
       (Checkout.originalId item) grouped).
Proof.
  intros Hin Hgrouped.
  assert (Hfresh : group_ok cartItems (Checkout.originalId item) [item]).
  { split; [done|]. by repeat constructor. }
  assert (Hinner : forall vm, game_ok cartItems (Checkout.originalId item) vm ->
    game_ok cartItems (Checkout.originalId item)
      (Checkout.upsert (fun items => (default [] items ++ [item])%list)
         (Checkout.variationIdOf item) vm)).
  { intros vm Hvm.
    apply (upsert_Forall
             (fun _ items => group_ok cartItems (Checkout.originalId item) items));
      [exact Hvm|exact Hfresh|].
    intros items [_ Hitems]. simpl. split.
    - by destruct items.
    - apply Forall_app. split; [done|]. by repeat constructor. }
  apply (upsert_Forall (game_ok cartItems)); [exact Hgrouped| |].
  - apply Hinner. constructor.
  - intros vm Hvm. by apply Hinner.
Qed.

Lemma grouping_fold (l : list CartItem)
    (grouped : list (string * list (string * list CartItem))) :
  (forall it, In it l -> In it cartItems) ->
  Forall (fun entry => game_ok cartItems entry.1 entry.2) grouped ->
  Forall (fun entry => game_ok cartItems entry.1 entry.2)
    (fold_left
       (fun grouped item =>
          Checkout.upsert
            (fun variationsMap =>
               Checkout.upsert (fun items => (default [] items ++ [item])%list)
                 (Checkout.variationIdOf item) (default [] variationsMap))
            (Checkout.originalId item) grouped)
       l grouped).
Proof.
  revert grouped. induction l as [|item l IH]; intros grouped Hl Hg; simpl; [done|].
  apply IH.
  - intros it Hit. apply Hl. by right.
  - apply grouping_step; [|done]. apply Hl. by left.
Qed.

Lemma itemsByGameAndVariation_ok (multi : bool)
    (grouped : list (string * list (string * list CartItem))) :
  Checkout.itemsByGameAndVariation multi cartItems = Some grouped ->
  Forall (fun entry => game_ok cartItems entry.1 entry.2) grouped.
Proof.
  unfold Checkout.itemsByGameAndVariation.
  destruct multi; simpl; [|discriminate].
  intros [= <-]. apply grouping_fold; [done|constructor].
Qed.

(** The first cart line of a game that has a group. *)
Lemma firstItemOf_group (gameId : string) (items : list CartItem) :
  group_ok cartItems gameId items ->
  exists firstItem,
    Checkout.firstItemOf cartItems gameId = Some firstItem
    /\ Checkout.originalId firstItem = gameId.
Proof.
  intros [Hne Hitems]. unfold Checkout.firstItemOf.
  destruct (List.find _ cartItems) as [firstItem|] eqn:Hfind.
  - exists firstItem. split; [done|].
    apply List.find_some in Hfind as [_ Heq].
    by apply String.eqb_eq in Heq.
  - destruct items as [|it items]; [done|].
    apply Forall_cons in Hitems as [[Hid Hin] _].
    apply (List.find_none _ _ Hfind) in Hin.
    apply String.eqb_neq in Hin. by destruct Hin.
Qed.
End Grouping.

Lemma field_ok_implb (values : gmap string string) (k : string) (f : CustomField) :
  Checkout.field_ok values k f = implb (field_required f) (Checkout.filled values k).
Proof. unfold Checkout.field_ok. by destruct (field_required f). Qed.

Lemma forallb_const_true {A : Type} (l : list A) : forallb (fun _ => true) l = true.
Proof. by induction l. Qed.

Lemma forallb_false_exists {A : Type} (p : A -> bool) (l : list A) :
  forallb p l = false <-> exists x, In x l /\ p x = false.
Proof.
  induction l as [|x l IH]; simpl.
  - split; [discriminate|]. by intros (? & [] & _).
  - destruct (p x) eqn:Hx; simpl.
    + rewrite IH. split.
      * intros (y & Hy & Hpy). exists y. split; [by right|done].
      * intros (y & [<-|Hy] & Hpy); [congruence|]. by exists y.
    + split; [|done]. intros _. exists x. split; [by left|done].
Qed.

(** Two [forallb] over one list agree when their predicates agree on it. *)
Ltac forallb_pointwise := apply forallb_agree, Forall_forall.

(** The validation of the details step checks exactly the inputs that the
    form renders with the [required] attribute. *)
Lemma isDetailsValid_rendered (cartItems : list CartItem) (multi : bool)
    (values : gmap string string) :
  exists inputs,
    Checkout.renderedInputs cartItems multi = Returned inputs
    /\ Checkout.isDetailsValid cartItems multi values = required_filled values inputs.
Proof.
  unfold Checkout.renderedInputs, Checkout.isDetailsValid, required_filled.
  destruct (Checkout.itemsByGameAndVariation multi cartItems) as [grouped|] eqn:Hg;
    destruct (Checkout.hasAnyCustomFields cartItems) eqn:Hany; simpl.
  - (* multiple accounts, custom fields *)
    pose proof (itemsByGameAndVariation_ok _ _ _ Hg) as Hok.
    set (g := fun entry : string * list (string * list CartItem) =>
      match Checkout.firstItemOf cartItems entry.1 with
      | None => []
      | Some firstItem =>
          flat_map
            (fun ventry : string * list CartItem =>
               map (fun field =>
                      (entry.1 ++ "_" ++ ventry.1 ++ "_" ++ field_key field,
                       field_required field))
                   (default [] (customFields (baseItem firstItem))))
            entry.2
      end).
    exists (flat_map g grouped). split.
    + apply collect_flat_map.
      eapply Forall_impl; [exact Hok|]. intros [gameId vm] Hvm. unfold g. simpl in *.
      destruct (Checkout.firstItemOf cartItems gameId) as [firstItem|]; [|done].
      apply collect_flat_map.
      eapply Forall_impl; [exact Hvm|]. intros [v items] [Hne Hitems]. simpl in *.
      destruct items as [|item0 items]; [done|].
      apply Forall_cons in Hitems as [[-> _] _]. reflexivity.
    + rewrite forallb_flat_map. apply forallb_agree.
      eapply Forall_impl; [exact Hok|]. intros [gameId vm] Hvm. unfold g. simpl in *.
      destruct (Checkout.firstItemOf cartItems gameId) as [firstItem|] eqn:Hfirst;
        [|done].
      assert (Hid : Checkout.originalId firstItem = gameId).
      { apply List.find_some in Hfirst as [_ Heq]. by apply String.eqb_eq in Heq. }
      rewrite forallb_flat_map.
      destruct (customFields (baseItem firstItem)) as [fs|]; simpl.
      * forallb_pointwise. intros [v items] _. simpl.
        rewrite forallb_map_comp, Hid. forallb_pointwise.
        intros f _. apply field_ok_implb.
      * by rewrite forallb_const_true.
  - (* multiple accounts, default IGN per package *)
    pose proof (itemsByGameAndVariation_ok _ _ _ Hg) as Hok.
    set (g := fun entry : string * list (string * list CartItem) =>
      match Checkout.firstItemOf cartItems entry.1 with
      | None => []
      | Some _ =>
          flat_map
            (fun ventry : string * list CartItem =>
               [("default_" ++ entry.1 ++ "_" ++ ventry.1 ++ "_ign", true)])
            entry.2
      end).
    exists (flat_map g grouped). split.
    + apply collect_flat_map.
      eapply Forall_impl; [exact Hok|]. intros [gameId vm] Hvm. unfold g. simpl in *.
      destruct (Checkout.firstItemOf cartItems gameId) as [firstItem|]; [|done].
      apply collect_flat_map.
      eapply Forall_impl; [exact Hvm|]. intros [v items] [Hne Hitems]. simpl in *.
      by destruct items.
    + rewrite forallb_flat_map. apply forallb_agree.
      eapply Forall_impl; [exact Hok|]. intros [gameId vm] Hvm. unfold g. simpl in *.
      destruct (Checkout.firstItemOf cartItems gameId) as [firstItem|] eqn:Hfirst.
      * rewrite forallb_flat_map. forallb_pointwise.
        intros [v items] _. simpl. by rewrite andb_true_r.
      * destruct vm as [|[v items] vm]; [done|].
        apply Forall_cons in Hvm as [Hgroup _].
        destruct (firstItemOf_group _ _ _ Hgroup) as (firstItem & Hsome & _).
        congruence.
  - (* single account, custom fields *)
    eexists. split; [reflexivity|].
    rewrite forallb_flat_map. forallb_pointwise.
    intros item _.
    destruct (customFields (baseItem item)) as [fs|]; simpl; [|done].
    rewrite forallb_map_comp. forallb_pointwise.
    intros f _. apply field_ok_implb.
  - (* single account, default IGN *)
    eexists. split; [reflexivity|]. simpl. by rewrite andb_true_r.
Qed.

(** Form and validation agree: the form of the details step renders its
    inputs without failing, and the button that advances to payment is
    disabled iff one of the inputs rendered as required has a value that
    is missing, empty or white space only. *)
Lemma proceedDisabled_rendered (cartItems : list CartItem)
    (multi : bool) (values : gmap string string) :
  exists inputs,
    Checkout.renderedInputs cartItems multi = Returned inputs
    /\ (Checkout.proceedDisabled cartItems multi values = true
        <-> exists k, In (k, true) inputs /\ Checkout.blank (values !! k) = true).
Proof.
  destruct (isDetailsValid_rendered cartItems multi values) as (inputs & Hr & Hv).
  exists inputs. split; [exact Hr|].
  unfold Checkout.proceedDisabled. rewrite Hv, negb_true_iff.
  unfold required_filled. rewrite forallb_false_exists. split.
  - intros ([k req] & Hin & Himp). simpl in Himp.
    destruct req; simpl in Himp; [|discriminate].
    exists k. split; [done|].
    rewrite filled_blank in Himp. by apply negb_false_iff.
  - intros (k & Hin & Hblank). exists (k, true). split; [done|]. simpl.
    by rewrite filled_blank, Hblank.
Qed.

(** The example of the specification: one game with a required [IGN]
    field.  Without a value the button is disabled, with one it is not,
    and a value of spaces does not count. *)
Example proceed_blocked_examples :
  Checkout.renderedInputs sample_cart_with_field false = Returned [("gameA_ign", true)]
  /\ Checkout.proceedDisabled sample_cart_with_field false ∅ = true
  /\ Checkout.proceedDisabled sample_cart_with_field false {["gameA_ign" := "x"]} = false
  /\ Checkout.proceedDisabled sample_cart_with_field false {["gameA_ign" := "  "]} = true.
Proof. repeat split; vm_compute; reflexivity. Qed.

(** ** Checkout: the multiple-accounts switch *)

(** C6 (amended).  Switching multiple-accounts mode off empties the custom
    field values; switching it on sets the mode and keeps every value. *)
Theorem mode_switch_clears_only_when_off (st : Checkout.State) :
  Checkout.customFieldValues (Checkout.onMultipleAccountsChange false st) = ∅
  /\ Checkout.useMultipleAccounts (Checkout.onMultipleAccountsChange false st) = false
  /\ Checkout.customFieldValues (Checkout.onMultipleAccountsChange true st)
     = Checkout.customFieldValues st
  /\ Checkout.useMultipleAccounts (Checkout.onMultipleAccountsChange true st) = true.
Proof. by repeat split. Qed.

(** C6, counterexample: a value typed in single-account mode is still
    there after the switch to multiple accounts. *)
Lemma mode_switch_on_keeps_values :
  Checkout.customFieldValues
    (Checkout.onMultipleAccountsChange true
       (sample_checkout_state false {["default_ign" := "Ana"]} ∅))
  <> ∅.
Proof.
  simpl. intros Hempty.
  assert (Hlook : ({["default_ign" := "Ana"]} : gmap string string) !! "default_ign"
                  = Some "Ana") by apply lookup_singleton_eq.
  rewrite Hempty in Hlook. by rewrite lookup_empty in Hlook.
Qed.

(** ** Member session: the broadcast *)

Lemma login_success_dispatches (hashPassword : string -> string)
    (backend : Auth.Backend) (data : Auth.LoginMemberData)
    (st st' : Auth.AuthState) (r : Auth.AuthResult) :
  Auth.login hashPassword backend data st = (st', r) ->
  Auth.success r = true ->
  Auth.dispatched st' = (Auth.dispatched st ++ ["memberAuthUpdate"])%list.
Proof.
  unfold Auth.login. intros Hrun Hok.
  destruct backend as [members|]; [|by simplify_eq].
  destruct (Auth.select_eq_email members (Auth.login_email data)) as [m|];
    [|by simplify_eq].
  destruct (negb _); [by simplify_eq|].
  destruct (negb _); by simplify_eq.
Qed.

Lemma register_success_dispatches (hashPassword : string -> string)
    (backend : Auth.Backend) (reply : Auth.InsertReply)
    (data : Auth.CreateMemberData)
    (st st' : Auth.AuthState) (r : Auth.AuthResult) :
  Auth.register hashPassword backend reply data st = (st', r) ->
  Auth.success r = true ->
  Auth.dispatched st' = (Auth.dispatched st ++ ["memberAuthUpdate"])%list.
Proof.
  unfold Auth.register. intros Hrun Hok.
  destruct backend as [members|]; [|by simplify_eq].
  destruct (Auth.select_eq_email members (Auth.reg_email data)); [by simplify_eq|].
  destruct (Auth.select_eq_username members (Auth.reg_username data));
    [by simplify_eq|].
  destruct reply; by simplify_eq.
Qed.

(** C7: [logout] ends the session and clears the stored id, and the list of
    dispatched events is what it was: no [memberAuthUpdate] is sent. *)
Theorem logout_dispatches_nothing (st : Auth.AuthState) :
  Auth.currentMember (Auth.logout st) = None
  /\ Auth.localStorage (Auth.logout st) !! "member_id" = None
  /\ Auth.dispatched (Auth.logout st) = Auth.dispatched st.
Proof.
  unfold Auth.logout. simpl. repeat split. apply lookup_delete_eq.
Qed.

(** C8, witness: an active member with the right password, an inactive
    member, a wrong password and an unknown email. *)
Lemma login_outcomes_witness :
  (Auth.login sample_hash
     (Auth.Reachable [sample_member end_user "active" "sha:pw"])
     {| Auth.login_email := "ana@example.com"; Auth.login_password := "pw" |}
     sample_auth_state).2
  = Auth.succeeded (sample_member end_user "active" "sha:pw")
  /\ (Auth.login sample_hash
        (Auth.Reachable [sample_member end_user "banned" "sha:pw"])
        {| Auth.login_email := "ana@example.com"; Auth.login_password := "pw" |}
        sample_auth_state).2
     = Auth.failure Auth.InactiveAccount
  /\ (Auth.login sample_hash
        (Auth.Reachable [sample_member end_user "active" "sha:pw"])
        {| Auth.login_email := "ana@example.com"; Auth.login_password := "no" |}
        sample_auth_state).2
     = Auth.failure Auth.InvalidCredentials
  /\ (Auth.login sample_hash
        (Auth.Reachable [sample_member end_user "active" "sha:pw"])
        {| Auth.login_email := "bob@example.com"; Auth.login_password := "pw" |}
        sample_auth_state).2
     = Auth.failure Auth.InvalidCredentials.
Proof.
  split; [|split; [|split]].
  - destruct (login_outcomes sample_hash
                [sample_member end_user "active" "sha:pw"]
                {| Auth.login_email := "ana@example.com"; Auth.login_password := "pw" |}
                sample_auth_state) as (_ & _ & _ & _ & Hok).
    destruct (Hok (sample_member end_user "active" "sha:pw") eq_refl eq_refl eq_refl)
      as [Hres _].
    exact Hres.
  - destruct (login_outcomes sample_hash
                [sample_member end_user "banned" "sha:pw"]
                {| Auth.login_email := "ana@example.com"; Auth.login_password := "pw" |}
                sample_auth_state) as (_ & _ & Hinactive & _).
    rewrite (Hinactive (sample_member end_user "banned" "sha:pw") eq_refl);
      [reflexivity|discriminate].
  - destruct (login_outcomes sample_hash
                [sample_member end_user "active" "sha:pw"]
                {| Auth.login_email := "ana@example.com"; Auth.login_password := "no" |}
                sample_auth_state) as (_ & _ & _ & Hwrong & _).
    rewrite (Hwrong (sample_member end_user "active" "sha:pw") eq_refl eq_refl);
      [reflexivity|discriminate].
  - destruct (login_outcomes sample_hash
                [sample_member end_user "active" "sha:pw"]
                {| Auth.login_email := "bob@example.com"; Auth.login_password := "pw" |}
                sample_auth_state) as (Hnone & _).
    rewrite Hnone; [reflexivity|].
    repeat constructor. discriminate.
Defined.

(** ** Checkout: an order found at mount *)

Lemma fold_left_flat_map {A B C : Type} (f : C -> B -> C) (g : A -> list B)
    (l : list A) (c : C) :
  fold_left f (flat_map g l) c = fold_left (fun c a => fold_left f (g a) c) l c.
Proof.
  revert c. induction l as [|a l IH]; intros c; simpl; [done|].
  by rewrite fold_left_app, IH.
Qed.

Lemma fold_left_map_comp {A B C : Type} (f : C -> B -> C) (h : A -> B)
    (l : list A) (c : C) :
  fold_left f (map h l) c = fold_left (fun c x => f c (h x)) l c.
Proof. revert c. induction l as [|a l IH]; intros c; simpl; [done|]. apply IH. Qed.

Lemma fold_left_pointwise {A C : Type} (f g : C -> A -> C) (l : list A) (c : C) :
  (forall c a, f c a = g c a) -> fold_left f l c = fold_left g l c.
Proof.
  intros Hfg. revert c. induction l as [|a l IH]; intros c; simpl; [done|].
  by rewrite Hfg, IH.
Qed.

(** A run of conditional writes of one value: a key reads that value when
    some write hit it, and what it read before otherwise. *)
Lemma fold_insert_when {A : Type} (c : A -> bool) (kf : A -> string)
    (value : string) (l : list A) (loaded : gmap string string) (k : string) :
  fold_left (fun m x => if c x then <[kf x := value]> m else m) l loaded !! k
  = if existsb (fun x => c x && String.eqb (kf x) k) l then Some value
    else loaded !! k.
Proof.
  revert loaded. induction l as [|x l IH]; intros loaded; simpl; [done|].
  rewrite IH. destruct (c x); simpl; [|done].
  destruct (String.eqb_spec (kf x) k) as [->|Hne]; simpl.
  - rewrite lookup_insert_eq. by destruct (existsb _ l).
  - by rewrite lookup_insert_ne.
Qed.

Lemma writes_untouched (writes : list (string * string)) (k : string)
    (acc : gmap string string) :
  (forall w, ~ In (k, w) writes) ->
  fold_left (fun (m : gmap string string) (kv : string * string) => <[kv.1 := kv.2]> m)
    writes acc !! k = acc !! k.
Proof.
  revert acc. induction writes as [|[k1 v1] writes IH]; intros acc Hout; [done|].
  cbn [fold_left]. rewrite IH by (intros w Hw; apply (Hout w); by right).
  apply lookup_insert_ne. intros <-. apply (Hout v1). by left.
Qed.

(** After a run of writes a key reads the value they agree on. *)
Lemma writes_agree (writes : list (string * string)) (k v : string)
    (acc : gmap string string) :
  In (k, v) writes ->
  (forall w, In (k, w) writes -> w = v) ->
  fold_left (fun (m : gmap string string) (kv : string * string) => <[kv.1 := kv.2]> m)
    writes acc !! k = Some v.
Proof.
  revert acc. induction writes as [|[k1 v1] writes IH]; intros acc Hin Hagree; [done|].
  cbn [fold_left].
  destruct (existsb (fun kv : string * string => String.eqb kv.1 k) writes) eqn:Hlater.
  - apply existsb_exists in Hlater as [[k2 v2] [Hin2 Heq%String.eqb_eq]].
    cbn [fst] in Heq. subst k2.
    assert (v2 = v) as -> by (apply Hagree; by right).
    apply IH; [done|]. intros w Hw. apply Hagree. by right.
  - rewrite writes_untouched.
    + destruct Hin as [[= -> ->]|Hin].
      * apply lookup_insert_eq.
      * assert (Hex : existsb (fun kv : string * string => String.eqb kv.1 k) writes
                      = true).
        { apply existsb_exists. exists (k, v). split; [done|]. apply String.eqb_refl. }
        congruence.
    + intros w Hw.
      assert (Hex : existsb (fun kv : string * string => String.eqb kv.1 k) writes
                    = true).
      { apply existsb_exists. exists (k, w). split; [done|]. apply String.eqb_refl. }
      congruence.
Qed.

(** Entries with distinct keys hold one value per key. *)
Lemma entries_agree {K V : Type} (l : list (K * V)) (k : K) (v w : V) :
  NoDup (map fst l) -> In (k, v) l -> In (k, w) l -> v = w.
Proof.
  induction l as [|[k1 v1] l IH]; [done|].
  cbn [map fst]. intros [Hfresh Hnd]%NoDup_cons Hv Hw.
  destruct Hv as [Hv|Hv], Hw as [Hw|Hw].
  - congruence.
  - destruct Hfresh. injection Hv as -> _. apply list_elem_of_In.
    apply (in_map fst _ (k, w) Hw).
  - destruct Hfresh. injection Hw as -> _. apply list_elem_of_In.
    apply (in_map fst _ (k, v) Hv).
  - by apply IH.
Qed.

Lemma loadEntry_lookup (cartItems : list CartItem) (loaded : gmap string string)
    (key value k : string) :
  Checkout.loadEntry cartItems loaded (key, value) !! k
  = if entry_hit cartItems k key then Some value else loaded !! k.
Proof.
  unfold Checkout.loadEntry, entry_hit.
  destruct (String.eqb key "Payment Method"); cbn [negb andb]; [done|].
  destruct (Checkout.hasAnyCustomFields cartItems).
  - unfold slot_hit, fieldSlots.
    rewrite <- (fold_insert_when (fun slot : string * string => String.eqb slot.2 key)
                  (fun slot => slot.1)).
    rewrite fold_left_flat_map. f_equal.
    apply fold_left_pointwise. intros m item.
    rewrite fold_left_map_comp. reflexivity.
  - destruct (String.eqb key "IGN"); cbn [andb]; [|done].
    destruct (String.eqb_spec "default_ign" k) as [<-|Hne].
    + by rewrite lookup_insert_eq.
    + by rewrite lookup_insert_ne.
Qed.

Lemma load_entries_miss (cartItems : list CartItem) (k : string)
    (entries : list (string * string)) (acc : gmap string string) :
  Forall (fun e => entry_hit cartItems k e.1 = false) entries ->
  fold_left (Checkout.loadEntry cartItems) entries acc !! k = acc !! k.
Proof.
  intros Hmiss. revert acc.
  induction Hmiss as [|[key value] entries Hkey _ IH]; intros acc;
    cbn [fold_left]; [done|].
  rewrite IH, loadEntry_lookup. cbn [fst] in Hkey. by rewrite Hkey.
Qed.

(** The entry of a label is what its value key reads after the load, when
    no other label of the record writes that key. *)
Lemma load_entries_hit (cartItems : list CartItem) (k key v : string)
    (entries : list (string * string)) (acc : gmap string string) :
  NoDup (map fst entries) ->
  In (key, v) entries ->
  entry_hit cartItems k key = true ->
  (forall key', In key' (map fst entries) -> entry_hit cartItems k key' = true ->
     key' = key) ->
  fold_left (Checkout.loadEntry cartItems) entries acc !! k = Some v.
Proof.
  intros Hnd Hin Hhit Honly. revert acc.
  induction entries as [|[key1 v1] entries IH]; intros acc; [done|].
  cbn [map fst] in Hnd. apply NoDup_cons in Hnd as [Hfresh Hnd]. cbn [fold_left].
  destruct Hin as [[= -> ->]|Hin].
  - rewrite load_entries_miss.
    + by rewrite loadEntry_lookup, Hhit.
    + apply Forall_forall. intros [key' v'] Hin'%list_elem_of_In. cbn [fst].
      destruct (entry_hit cartItems k key') eqn:Hhit'; [|done].
      assert (key' = key) as ->.
      { apply Honly; [|done]. right. apply in_map_iff. by exists (key', v'). }
      destruct Hfresh. apply list_elem_of_In, in_map_iff. by exists (key, v').
  - apply IH; [done|done|].
    intros key' Hin' Hhit'. apply Honly; [by right|done].
Qed.

Lemma preload_values (mode : bool) (loaded : gmap string string) (st : Checkout.State) :
  Checkout.customFieldValues (Checkout.preload mode loaded st)
  = loaded ∪ Checkout.customFieldValues st.
Proof.
  unfold Checkout.preload. simpl. case_bool_decide as Hempty; [|done].
  rewrite Hempty. by rewrite (left_id_L ∅ (∪)).
Qed.

Lemma loadSingleAccount_default_ign (cartItems : list CartItem)
    (entries : list (string * string)) (v : string) :
  Checkout.hasAnyCustomFields cartItems = false ->
  NoDup (map fst entries) ->
  In ("IGN", v) entries ->
  Checkout.loadSingleAccount cartItems entries !! "default_ign" = Some v.
Proof.
  intros Hany Hnd Hin. unfold Checkout.loadSingleAccount.
  apply (load_entries_hit cartItems "default_ign" "IGN"); [done|done| |].
  - unfold entry_hit. by rewrite Hany.
  - intros key' _. unfold entry_hit. rewrite Hany.
    intros (_ & (Hkey%String.eqb_eq & _)%andb_true_iff)%andb_true_iff. done.
Qed.

Lemma loadSingleAccount_field (cartItems : list CartItem)
    (entries : list (string * string)) (item : CartItem) (field : CustomField)
    (v : string) :
  In item (Checkout.itemsWithCustomFields cartItems) ->
  In field (default [] (customFields (baseItem item))) ->
  field_label field <> "Payment Method" ->
  NoDup (map fst entries) ->
  In (field_label field, v) entries ->
  (forall slot, In slot (fieldSlots cartItems) ->
     slot.1 = Checkout.originalId item ++ "_" ++ field_key field ->
     slot.2 = field_label field) ->
  Checkout.loadSingleAccount cartItems entries
    !! (Checkout.originalId item ++ "_" ++ field_key field) = Some v.
Proof.
  intros Hitem Hfield Hpm Hnd Hin Hslots. unfold Checkout.loadSingleAccount.
  assert (Hany : Checkout.hasAnyCustomFields cartItems = true).
  { unfold Checkout.hasAnyCustomFields.
    by destruct (Checkout.itemsWithCustomFields cartItems). }
  apply (load_entries_hit cartItems _ (field_label field)); [done|done| |].
  - unfold entry_hit. rewrite Hany.
    apply andb_true_iff. split.
    + apply negb_true_iff. by apply String.eqb_neq.
    + unfold slot_hit. apply existsb_exists.
      exists (Checkout.originalId item ++ "_" ++ field_key field, field_label field).
      split.
      * unfold fieldSlots. apply in_flat_map. exists item. split; [done|].
        apply in_map_iff. by exists field.
      * cbn [fst snd]. by rewrite !String.eqb_refl.
  - intros key' _. unfold entry_hit. rewrite Hany.
    intros (_ & Hhit)%andb_true_iff.
    unfold slot_hit in Hhit. apply existsb_exists in Hhit as (slot & Hslot & Heq).
    apply andb_true_iff in Heq as [Hlabel%String.eqb_eq Hkey%String.eqb_eq].
    rewrite <- Hlabel. by apply Hslots.
Qed.

(* ================================================================== *)
(** * Further properties of the cart store *)

Lemma getTotalItems_from (l : list CartItem) (x : Z) :
  fold_left (fun total c => total + quantity c) l x = x + Cart.getTotalItems l.
Proof.
  unfold Cart.getTotalItems. revert x.
  induction l as [|c l IH]; intros x; cbn [fold_left]; [lia|].
  rewrite IH, (IH (0 + quantity c)). lia.
Qed.

Lemma getTotalItems_cons (c : CartItem) (l : list CartItem) :
  Cart.getTotalItems (c :: l) = quantity c + Cart.getTotalItems l.
Proof. unfold Cart.getTotalItems at 1. simpl. apply getTotalItems_from. Qed.

Section CartStore.
Variable locale_le : string -> string -> bool.

Lemma bump_first_total (key : string) (q : Z) (prev : list CartItem) :
  existsb (fun c => String.eqb (Cart.cartItemKey locale_le c) key) prev = true ->
  Cart.getTotalItems (Cart.bump_first locale_le key q prev)
  = Cart.getTotalItems prev + q.
Proof.
  induction prev as [|c prev IH]; simpl; [discriminate|].
  destruct (String.eqb (Cart.cartItemKey locale_le c) key); simpl.
  - intros _. rewrite !getTotalItems_cons. simpl. lia.
  - intros Hex. rewrite !getTotalItems_cons, IH by done. lia.
Qed.

(** X1.  Every [addToCart] raises the number of items in the cart by the
    quantity of the call, whether it inserts a line or merges. *)
Theorem addToCart_total_items (m : option Member) (suffix : string)
    (item : MenuItem) (q : Z) (v : option Variation) (a : option (list AddOn))
    (o : option Q) (prev : list CartItem) :
  Cart.getTotalItems (Cart.addToCart locale_le m suffix item q v a o prev)
  = Cart.getTotalItems prev + q.
Proof.
  unfold Cart.addToCart.
  destruct (existsb _ prev) eqn:Hex.
  - by apply bump_first_total.
  - rewrite getTotalItems_cons. simpl. lia.
Qed.

Lemma bump_first_shape (key : string) (q : Z) (prev : list CartItem) :
  map without_quantity (Cart.bump_first locale_le key q prev)
  = map without_quantity prev.
Proof.
  induction prev as [|c prev IH]; simpl; [done|].
  destruct (String.eqb (Cart.cartItemKey locale_le c) key); simpl; [done|].
  by rewrite IH.
Qed.

(** X2.  [addToCart] never removes, reorders or reprices a line: either
    the cart keeps all its lines up to one quantity, or it is the previous
    cart with the new line, under its synthetic id, in front. *)
Theorem addToCart_keeps_lines (m : option Member) (suffix : string)
    (item : MenuItem) (q : Z) (v : option Variation) (a : option (list AddOn))
    (o : option Q) (prev : list CartItem) :
  map without_quantity (Cart.addToCart locale_le m suffix item q v a o prev)
  = map without_quantity prev
  \/ exists line,
       Cart.addToCart locale_le m suffix item q v a o prev = line :: prev
       /\ lineId line = id item ++ ":::CART:::" ++ suffix
       /\ quantity line = q.
Proof.
  unfold Cart.addToCart.
  destruct (existsb _ prev).
  - left. apply bump_first_shape.
  - right. eexists. by repeat split.
Qed.
End CartStore.

Lemma filter_all {A : Type} (P : A -> Prop) `{!forall x, Decision (P x)} (l : list A) :
  Forall P l -> filter P l = l.
Proof.
  induction 1 as [|x l Hx _ IH]; [done|].
  by rewrite filter_cons, decide_True, IH.
Qed.

Section CartLines.
Variable locale_le : string -> string -> bool.

(** X3.  Removing the line that [addToCart] has just inserted gives the
    previous cart back, when the synthetic id is new to the cart. *)
Theorem removeFromCart_undoes_insert (m : option Member) (suffix : string)
    (item : MenuItem) (q : Z) (v : option Variation) (a : option (list AddOn))
    (o : option Q) (prev : list CartItem) :
  Cart.lines_with_key locale_le (Cart.createItemKey locale_le (id item) v a) prev
  = [] ->
  Forall (fun c => lineId c <> id item ++ ":::CART:::" ++ suffix) prev ->
  Cart.removeFromCart (id item ++ ":::CART:::" ++ suffix)
    (Cart.addToCart locale_le m suffix item q v a o prev)
  = prev.
Proof.
  intros Hnone Hfresh. rewrite (addToCart_insert _ _ _ _ _ _ _ _ _ Hnone).
  unfold Cart.removeFromCart. rewrite filter_cons, decide_False.
  - by apply filter_all.
  - simpl. by intros Hne.
Qed.

Lemma remove_absent (i : string) (l : list CartItem) :
  i ∉ map lineId l -> Cart.removeFromCart i l = l.
Proof.
  intros Hout. apply filter_all, Forall_forall. intros c Hc Heq.
  apply Hout. rewrite <- Heq. change (lineId c ∈ map lineId l).
  by apply list_elem_of_In, in_map, list_elem_of_In.
Qed.

Lemma update_absent (i : string) (q : Z) (l : list CartItem) :
  i ∉ map lineId l ->
  map (fun c => if String.eqb (id (baseItem c)) i then with_quantity q c else c) l = l.
Proof.
  induction l as [|c l IH]; simpl; [done|].
  intros [Hc Hl]%not_elem_of_cons.
  destruct (String.eqb_spec (id (baseItem c)) i) as [Heq|_].
  - by destruct Hc.
  - by rewrite IH.
Qed.

(** X4.  On a cart whose line ids are distinct, [updateQuantity] changes
    the number of items by replacing the line's quantity: a positive
    quantity takes its place, any other quantity removes the line. *)
Theorem updateQuantity_total_items (c : CartItem) (q : Z) (prev : list CartItem) :
  NoDup (map lineId prev) ->
  In c prev ->
  Cart.getTotalItems (Cart.updateQuantity (lineId c) q prev)
  = Cart.getTotalItems prev - quantity c + Z.max 0 q.
Proof.
  intros Hnd Hin. unfold Cart.updateQuantity.
  induction prev as [|c0 prev IH]; [done|].
  simpl in Hnd. apply NoDup_cons in Hnd as [Hc0 Hnd].
  assert (Hcase : (c0 = c /\ lineId c ∉ map lineId prev)
                  \/ (lineId c0 <> lineId c /\ In c prev)).
  { destruct Hin as [->|Hin]; [by left|]. right. split; [|done].
    intros Heq. apply Hc0. rewrite Heq.
    by apply list_elem_of_In, in_map. }
  destruct (Z.leb_spec q 0) as [Hq|Hq].
  - unfold Cart.removeFromCart in *. rewrite filter_cons.
    destruct Hcase as [[-> Hout]|[Hne Hin']].
    + rewrite decide_False by (by intros Hne).
      fold (Cart.removeFromCart (lineId c) prev).
      rewrite remove_absent, getTotalItems_cons by done. lia.
    + rewrite decide_True by done.
      rewrite !getTotalItems_cons, IH by done. lia.
  - cbn [map].
    destruct Hcase as [[-> Hout]|[Hne Hin']].
    + unfold lineId at 1. rewrite String.eqb_refl.
      rewrite update_absent, !getTotalItems_cons by done. simpl. lia.
    + apply String.eqb_neq in Hne as Hneb. unfold lineId in Hneb at 1 2.
      unfold lineId at 1. rewrite Hneb.
      rewrite !getTotalItems_cons, IH by done. lia.
Qed.
End CartLines.

(** X3, witness. *)
Lemma removeFromCart_undoes_insert_witness :
  Cart.removeFromCart "game:::CART:::2-b"
    (Cart.addToCart String.leb None "2-b" (sample_item "game") 1 None None None
       [sample_plain_line "other:::CART:::1-a" 2])
  = [sample_plain_line "other:::CART:::1-a" 2].
Proof.
  apply (removeFromCart_undoes_insert String.leb None "2-b" (sample_item "game")
           1 None None None [sample_plain_line "other:::CART:::1-a" 2]).
  - vm_compute. reflexivity.
  - repeat constructor. discriminate.
Defined.

(** X4, witness: a line of two units set to five, in a cart of three. *)
Lemma updateQuantity_total_items_witness :
  Cart.getTotalItems
    (Cart.updateQuantity "a:::CART:::1" 5
       [sample_plain_line "a:::CART:::1" 2; sample_plain_line "b:::CART:::2" 1])
  = 6.
Proof.
  refine (updateQuantity_total_items (sample_plain_line "a:::CART:::1" 2) 5
            [sample_plain_line "a:::CART:::1" 2; sample_plain_line "b:::CART:::2" 1]
            _ _).
  - cbn. apply NoDup_cons. split; [|apply NoDup_singleton].
    by intros ?%list_elem_of_singleton.
  - by left.
Defined.

(** ** Cart totals *)

Lemma getTotalPrice_from (m : option Member) (l : list CartItem) (x : Q) :
  (fold_left
     (fun total c =>
        total + Cart.getEffectiveUnitPrice m c * inject_Z (quantity c))
     l x
   == x + Cart.getTotalPrice m l)%Q.
Proof.
  unfold Cart.getTotalPrice.
  rewrite !(fold_left_running_sum
              (fun c => Cart.getEffectiveUnitPrice m c * inject_Z (quantity c))%Q).
  ring.
Qed.

Lemma getTotalPrice_cons (m : option Member) (c : CartItem) (l : list CartItem) :
  (Cart.getTotalPrice m (c :: l)
   == Cart.getEffectiveUnitPrice m c * inject_Z (quantity c)
      + Cart.getTotalPrice m l)%Q.
Proof.
  unfold Cart.getTotalPrice at 1. cbn [fold_left].
  rewrite getTotalPrice_from. ring.
Qed.

Lemma getTotalPrice_app (m : option Member) (l1 l2 : list CartItem) :
  (Cart.getTotalPrice m (l1 ++ l2)
   == Cart.getTotalPrice m l1 + Cart.getTotalPrice m l2)%Q.
Proof.
  induction l1 as [|c l1 IH].
  - unfold Cart.getTotalPrice at 2. simpl. ring.
  - change ((c :: l1) ++ l2)%list with (c :: (l1 ++ l2))%list.
    rewrite !getTotalPrice_cons, IH. ring.
Qed.

Lemma addOnsTotal_perm (l1 l2 : list AddOn) :
  l1 ≡ₚ l2 -> (addOnsTotal (Some l1) == addOnsTotal (Some l2))%Q.
Proof.
  unfold addOnsTotal. induction 1 as [|a l1 l2 _ IH|a b l|l1 l2 l3 _ IH1 _ IH2]; simpl.
  - reflexivity.
  - by rewrite IH.
  - ring.
  - by rewrite IH1.
Qed.

Section CartTotals.
Variable locale_le : string -> string -> bool.

(** X5.  Every [addToCart] raises the cart total by the quantity of the
    call times the effective unit price of the line that received the
    units, for whichever member the total is computed. *)
Theorem addToCart_total_price (viewer m : option Member) (suffix : string)
    (item : MenuItem) (q : Z) (v : option Variation) (a : option (list AddOn))
    (o : option Q) (prev : list CartItem) :
  exists line,
    In line (Cart.addToCart locale_le m suffix item q v a o prev)
    /\ (Cart.getTotalPrice viewer (Cart.addToCart locale_le m suffix item q v a o prev)
        == Cart.getTotalPrice viewer prev
           + Cart.getEffectiveUnitPrice viewer line * inject_Z q)%Q.
Proof.
  destruct (Cart.lines_with_key locale_le
              (Cart.createItemKey locale_le (id item) v a) prev) eqn:Hlines.
  - rewrite (addToCart_insert _ _ _ _ _ _ _ _ _ Hlines).
    eexists. split; [by left|].
    rewrite getTotalPrice_cons. cbn [quantity]. ring.
  - destruct (addToCart_merge_existing locale_le m suffix item q v a o prev)
      as (before & line & after & Hprev & _ & _ & Hrun); [by rewrite Hlines|].
    rewrite Hrun, Hprev.
    exists (with_quantity (quantity line + q) line). split.
    + apply in_or_app. right. by left.
    + rewrite !getTotalPrice_app, !getTotalPrice_cons.
      change (Cart.getEffectiveUnitPrice viewer
                (with_quantity (quantity line + q) line))
        with (Cart.getEffectiveUnitPrice viewer line).
      cbn [quantity with_quantity]. rewrite inject_Z_plus. ring.
Qed.

(** X6.  A line inserted without override, for add-ons that are grouped
    already, stores as [totalPrice] the unit price that the cart computes
    for it again for the same member. *)
Theorem inserted_line_price_consistent (m : option Member) (suffix : string)
    (item : MenuItem) (q : Z) (v : option Variation) (a : option (list AddOn))
    (prev : list CartItem) :
  Cart.lines_with_key locale_le (Cart.createItemKey locale_le (id item) v a) prev
  = [] ->
  grouped_addOns a ->
  exists line,
    Cart.addToCart locale_le m suffix item q v a None prev = line :: prev
    /\ (Cart.getEffectiveUnitPrice m line == totalPrice line)%Q.
Proof.
  intros Hnone Hgrouped. rewrite (addToCart_insert _ _ _ _ _ _ _ _ _ Hnone).
  eexists. split; [reflexivity|].
  unfold Cart.getEffectiveUnitPrice.
  cbn [effectiveUnitPriceOverride baseItem selectedVariation selectedAddOns totalPrice].
  rewrite !calculateItemPrice_sum.
  change (basePrice (with_id (id item ++ ":::CART:::" ++ suffix) item))
    with (basePrice item).
  assert (Hsum : (addOnsTotal (Some (Cart.normalizeAddOns locale_le a))
                  == addOnsTotal a)%Q).
  { destruct a as [l|]; [|reflexivity].
    destruct Hgrouped as [Hpos Hnd].
    apply addOnsTotal_perm. rewrite normalizeAddOns_Some.
    rewrite (fold_group_fixed l []) by done. apply sort_by_perm. }
  rewrite Hsum. reflexivity.
Qed.
End CartTotals.

(** X6, witness: a package with one add-on taken twice. *)
Lemma inserted_line_price_consistent_witness :
  exists line,
    Cart.addToCart String.leb None "1-a" (sample_item "game") 1
      (Some sample_variation) (Some [sample_addon "x" (Some 2)]) None []
    = [line]
    /\ (Cart.getEffectiveUnitPrice None line == totalPrice line)%Q.
Proof.
  apply (inserted_line_price_consistent String.leb None "1-a" (sample_item "game")
           1 (Some sample_variation) (Some [sample_addon "x" (Some 2)]) []).
  - reflexivity.
  - split.
    + repeat constructor. exists 2. split; [reflexivity|lia].
    + cbn. apply NoDup_singleton.
Defined.

(* ================================================================== *)
(** * Further properties of the price tiers *)

(** X7.  An end user gets a variation's [member_price] whenever the
    variation defines one, in the cart and on the catalogue card, whatever
    reseller price, negotiated discount or item discount exists. *)
Theorem member_price_takes_precedence
    (v : Variation) (m : Member) (mp : Q)
    (item : MenuItem) (memberDiscounts : gmap string Q) (base : Q)
    (variationId : option string) :
  member_price v = JS.defined mp ->
  user_type m = end_user ->
  Cart.getVariationPriceForMember v (Some m) = mp
  /\ (Catalog.getVariationById item variationId = Some v ->
      Catalog.getDiscountedPriceSync item (Some m) memberDiscounts base variationId
      = Some mp).
Proof.
  intros Hmp Hm. split.
  - unfold Cart.getVariationPriceForMember. rewrite Hm, Hmp.
    by destruct (reseller_price v).
  - intros Hv. unfold Catalog.getDiscountedPriceSync, Catalog.isReseller.
    rewrite Hm, Hv. simpl. by rewrite Hmp.
Qed.

Lemma member_price_takes_precedence_witness :
  Cart.getVariationPriceForMember sample_variation
    (Some (sample_member end_user "active" "")) = 95%Q
  /\ Catalog.getDiscountedPriceSync (baseItem sample_line)
       (Some (sample_member end_user "active" "")) {["v100" := 80%Q]} 100%Q
       (Some "v100") = Some 95%Q.
Proof.
  destruct (member_price_takes_precedence sample_variation
              (sample_member end_user "active" "") 95%Q
              (baseItem sample_line) {["v100" := 80%Q]} 100%Q (Some "v100")
              eq_refl eq_refl) as [Hcart Hcard].
  split; [exact Hcart|apply Hcard; reflexivity].
Defined.

(** The card's price for a visitor who is not logged in. *)
Lemma guest_card_price (item : MenuItem) (memberDiscounts : gmap string Q)
    (base : Q) (variationId : option string) :
  Catalog.getDiscountedPriceSync item None memberDiscounts base variationId
  = Some (itemDiscountPrice item base).
Proof.
  unfold Catalog.getDiscountedPriceSync, itemDiscountPrice. simpl.
  by destruct (isOnDiscount item), (discountPercentage item).
Qed.

(** X8.  A visitor who is not logged in never gets a tier price: the cart
    charges the variation's base price and the card shows the base price
    under the item's own discount, whatever member price, reseller price
    or negotiated discounts are on record. *)
Theorem guest_gets_no_tier_price (v : Variation) (item : MenuItem)
    (memberDiscounts : gmap string Q) (base : Q) (variationId : option string) :
  Cart.getVariationPriceForMember v None = price v
  /\ Catalog.getDiscountedPriceSync item None memberDiscounts base variationId
     = Some (itemDiscountPrice item base).
Proof. split; [done|apply guest_card_price]. Qed.

(** The card only resolves a variation from an id that is not empty. *)
Lemma getVariationById_truthy (item : MenuItem) (vid : string) (v : Variation) :
  Catalog.getVariationById item (Some vid) = Some v -> JS.truthy vid = true.
Proof.
  unfold Catalog.getVariationById.
  destruct (variations item); [|done]. by destruct (JS.truthy vid).
Qed.

(** X9.  A reseller never gets [member_price].  With a reseller price
    that is a number, cart and card both take it.  Without one, the cart
    charges the base price; the card shows [null] when the reseller price
    holds [null], and when it is missing the negotiated price on record
    for the variation, unless there is none or it is zero, in which case
    it shows the price under the item's own discount. *)
Theorem reseller_never_gets_member_price
    (v : Variation) (m : Member) (item : MenuItem)
    (memberDiscounts : gmap string Q) (base : Q) (vid : string) :
  user_type m = reseller ->
  Catalog.getVariationById item (Some vid) = Some v ->
  let charged := Cart.getVariationPriceForMember v (Some m) in
  let shown :=
    Catalog.getDiscountedPriceSync item (Some m) memberDiscounts base (Some vid) in
  match reseller_price v with
  | JS.defined rp => charged = rp /\ shown = Some rp
  | JS.null => charged = price v /\ shown = None
  | JS.undefined =>
      charged = price v
      /\ (forall negotiated,
            memberDiscounts !! vid = Some negotiated -> ~ (negotiated == 0)%Q ->
            shown = Some negotiated)
      /\ ((forall negotiated,
             memberDiscounts !! vid = Some negotiated -> (negotiated == 0)%Q) ->
          shown = Some (itemDiscountPrice item base))
  end.
Proof.
  intros Hm Hv charged shown. subst charged shown.
  pose proof (getVariationById_truthy _ _ _ Hv) as Hvid.
  unfold Cart.getVariationPriceForMember, Catalog.getDiscountedPriceSync,
    Catalog.isReseller, Catalog.cachedDiscount, itemDiscountPrice.
  rewrite Hm, Hv, Hvid. cbn [JS.chain].
  destruct (reseller_price v) as [| |rp]; [|done|done].
  split; [done|]. split.
  - intros negotiated -> Hnz.
    destruct (Qeq_bool negotiated 0) eqn:Hz; [|done].
    by apply Qeq_bool_iff in Hz.
  - intros Hzero. destruct (memberDiscounts !! vid) as [negotiated|] eqn:Hd.
    + rewrite (proj2 (Qeq_bool_iff negotiated 0) (Hzero negotiated eq_refl)).
      by destruct (isOnDiscount item), (discountPercentage item).
    + by destruct (isOnDiscount item), (discountPercentage item).
Qed.

(** X9, witness: a reseller, a package with member price 95 and no
    reseller price, and a negotiated price of 80 on record. *)
Lemma reseller_never_gets_member_price_witness :
  Cart.getVariationPriceForMember (sample_pack JS.undefined)
    (Some (sample_member reseller "active" "")) = 100%Q
  /\ Catalog.getDiscountedPriceSync (sample_game JS.undefined)
       (Some (sample_member reseller "active" "")) {["v1" := 80%Q]} 100%Q (Some "v1")
     = Some 80%Q.
Proof.
  destruct (reseller_never_gets_member_price (sample_pack JS.undefined)
              (sample_member reseller "active" "") (sample_game JS.undefined)
              {["v1" := 80%Q]} 100%Q "v1" eq_refl eq_refl)
    as (Hcart & Hnegotiated & _).
  split; [exact Hcart|].
  apply Hnegotiated; [reflexivity|discriminate].
Defined.

(** X10.  Card and cart agree, up to [null]: for an item without discount
    of its own and a variation without negotiated price on record, the
    card shows the price the cart charges for it, for a guest, an end user
    and a reseller alike, unless the price of the member's own tier holds
    [null]: then the card shows [null], where the cart charges the base
    price. *)
Theorem card_price_is_cart_price (v : Variation) (m : option Member)
    (item : MenuItem) (memberDiscounts : gmap string Q) (vid : string) :
  Catalog.getVariationById item (Some vid) = Some v ->
  undiscounted item ->
  (forall negotiated,
     memberDiscounts !! vid = Some negotiated -> (negotiated == 0)%Q) ->
  Catalog.getDiscountedPriceSync item m memberDiscounts (price v) (Some vid)
  = match ownTierPrice m v with
    | JS.null => None
    | _ => Some (Cart.getVariationPriceForMember v m)
    end.
Proof.
  intros Hv Hitem Hcache.
  pose proof (getVariationById_truthy _ _ _ Hv) as Hvid.
  assert (Hnone : Catalog.cachedDiscount memberDiscounts (Some vid) = None).
  { unfold Catalog.cachedDiscount. rewrite Hvid.
    destruct (memberDiscounts !! vid) as [negotiated|] eqn:Hd; [|done].
    by rewrite (proj2 (Qeq_bool_iff negotiated 0) (Hcache negotiated eq_refl)). }
  unfold Catalog.getDiscountedPriceSync, Catalog.isReseller,
    Cart.getVariationPriceForMember, ownTierPrice.
  rewrite Hv, Hnone. cbn [JS.chain].
  assert (Hbase : match isOnDiscount item, discountPercentage item with
                  | true, Some pct => Some (price v - price v * pct)%Q
                  | _, _ => Some (price v)
                  end = Some (price v)).
  { destruct Hitem as [-> | ->]; [done|]. by destruct (isOnDiscount item). }
  destruct m as [m|]; [|exact Hbase].
  destruct (user_type m).
  - destruct (member_price v); [exact Hbase|done|done].
  - destruct (reseller_price v); [exact Hbase|done|done].
Qed.

(** X10, witness: an end user sees and pays the member price 95; a
    reseller whose price holds [null] sees [null] and pays 100. *)
Lemma card_price_is_cart_price_witness :
  Catalog.getDiscountedPriceSync (sample_game JS.null)
    (Some (sample_member end_user "active" "")) ∅ 100%Q (Some "v1")
  = Some 95%Q
  /\ Catalog.getDiscountedPriceSync (sample_game JS.null)
       (Some (sample_member reseller "active" "")) ∅ 100%Q (Some "v1")
     = None
  /\ Cart.getVariationPriceForMember (sample_pack JS.null)
       (Some (sample_member reseller "active" "")) = 100%Q.
Proof.
  split; [|split; [|reflexivity]].
  - refine (card_price_is_cart_price (sample_pack JS.null)
              (Some (sample_member end_user "active" "")) (sample_game JS.null)
              ∅ "v1" _ _ _); [reflexivity|by left|].
    intros negotiated Hd. by rewrite lookup_empty in Hd.
  - refine (card_price_is_cart_price (sample_pack JS.null)
              (Some (sample_member reseller "active" "")) (sample_game JS.null)
              ∅ "v1" _ _ _); [reflexivity|by left|].
    intros negotiated Hd. by rewrite lookup_empty in Hd.
Defined.

(** X11.  The item's own discount never raises a price and never makes it
    negative, for a percentage between 0 and 1 and a base price that is
    not negative. *)
Theorem itemDiscountPrice_bounds (item : MenuItem) (base : Q) :
  (0 <= base)%Q ->
  (forall pct, discountPercentage item = Some pct -> (0 <= pct /\ pct <= 1)%Q) ->
  exists shown,
    Catalog.getDiscountedPriceSync item None ∅ base None = Some shown
    /\ (0 <= shown /\ shown <= base)%Q.
Proof.
  intros Hbase Hpct.
  rewrite guest_card_price. eexists. split; [reflexivity|].
  unfold itemDiscountPrice.
  destruct (isOnDiscount item); [|split; [done|apply Qle_refl]].
  destruct (discountPercentage item) as [pct|]; [|split; [done|apply Qle_refl]].
  destruct (Hpct pct eq_refl) as [H0 H1].
  assert (Hprod : (0 <= base * pct)%Q) by (by apply Qmult_le_0_compat).
  assert (Hrest : (0 <= base * (1 - pct))%Q).
  { apply Qmult_le_0_compat; [done|]. lra. }
  split; lra.
Qed.

Lemma itemDiscountPrice_bounds_witness :
  exists shown,
    Catalog.getDiscountedPriceSync (baseItem sample_line) None ∅ 100 None = Some shown
    /\ (0 <= shown /\ shown <= 100)%Q.
Proof.
  apply (itemDiscountPrice_bounds (baseItem sample_line) 100%Q).
  - discriminate.
  - intros pct [= <-]. split; discriminate.
Defined.

(* ================================================================== *)
(** * Further properties of the member session *)

(** A table in which [key] is unique has exactly one row for the key of
    any of its rows. *)
Lemma filter_unique_key (key : Member -> string) (extra : Member -> bool)
    (members : list Member) (m : Member) :
  NoDup (map key members) ->
  In m members ->
  extra m = true ->
  List.filter (fun x => String.eqb (key x) (key m) && extra x) members = [m].
Proof.
  intros Hnd Hin Hextra.
  induction members as [|x members IH]; [done|].
  simpl in Hnd. apply NoDup_cons in Hnd as [Hx Hnd]. simpl.
  destruct (String.eqb_spec (key x) (key m)) as [Heq|Hne]; simpl.
  - assert (x = m) as ->.
    { destruct Hin as [->|Hin]; [done|]. destruct Hx. rewrite Heq.
      by apply list_elem_of_In, in_map. }
    rewrite Hextra. f_equal.
    clear -Hx. induction members as [|y members IH]; [done|]. simpl.
    apply not_elem_of_cons in Hx as [Hy Hx].
    destruct (String.eqb_spec (key y) (key m)); [congruence|]. simpl. by apply IH.
  - destruct Hin as [->|Hin]; [done|]. by apply IH.
Qed.

Section Session.
Variable hashPassword : string -> string.

(** X12.  A login or a registration that fails changes nothing: no
    member is set, nothing is stored and no event is sent. *)
Theorem failed_auth_changes_nothing (backend : Auth.Backend)
    (reply : Auth.InsertReply) (ldata : Auth.LoginMemberData)
    (rdata : Auth.CreateMemberData) (st : Auth.AuthState) :
  (Auth.success (Auth.login hashPassword backend ldata st).2 = false ->
     (Auth.login hashPassword backend ldata st).1 = st)
  /\ (Auth.success (Auth.register hashPassword backend reply rdata st).2 = false ->
        (Auth.register hashPassword backend reply rdata st).1 = st).
Proof.
  split.
  - unfold Auth.login. destruct backend as [members|]; [|done].
    destruct (Auth.select_eq_email members (Auth.login_email ldata)); [|done].
    destruct (negb _); [done|]. by destruct (negb _).
  - unfold Auth.register. destruct backend as [members|]; [|done].
    destruct (Auth.select_eq_email members (Auth.reg_email rdata)); [done|].
    destruct (Auth.select_eq_username members (Auth.reg_username rdata)); [done|].
    by destruct reply.
Qed.

(** X13.  Registration refuses an email or a username that a member of the
    table has, the email first, where the table holds each at most once. *)
Theorem register_rejects_taken (members : list Member) (reply : Auth.InsertReply)
    (data : Auth.CreateMemberData) (st : Auth.AuthState) (m : Member) :
  In m members ->
  (NoDup (map email members) -> email m = Auth.reg_email data ->
     Auth.register hashPassword (Auth.Reachable members) reply data st
     = (st, Auth.failure Auth.DuplicateEmail))
  /\ (NoDup (map username members) ->
      Forall (fun x => email x <> Auth.reg_email data) members ->
      username m = Auth.reg_username data ->
      Auth.register hashPassword (Auth.Reachable members) reply data st
      = (st, Auth.failure Auth.DuplicateUsername)).
Proof.
  intros Hin. unfold Auth.register, Auth.select_eq_email, Auth.select_eq_username.
  split.
  - intros Hnd <-.
    pose proof (filter_unique_key email (fun _ => true) members m Hnd Hin eq_refl) as Hone.
    assert (Hsame : List.filter (fun x => String.eqb (email x) (email m)) members = [m]).
    { rewrite <- Hone. apply filter_ext. intros x. by rewrite andb_true_r. }
    by rewrite Hsame.
  - intros Hnd Hfree <-.
    pose proof (select_eq_email_absent _ _ Hfree) as Hnone.
    unfold Auth.select_eq_email in Hnone. rewrite Hnone.
    pose proof (filter_unique_key username (fun _ => true) members m Hnd Hin eq_refl)
      as Hone.
    assert (Hsame : List.filter (fun x => String.eqb (username x) (username m)) members
                    = [m]).
    { rewrite <- Hone. apply filter_ext. intros x. by rewrite andb_true_r. }
    by rewrite Hsame.
Qed.

(** X14.  A member who has just registered can log in: with an email and a
    username that no member has, registration creates an active end user
    holding the hash of the password, and a login with the same email and
    password against the table with that row succeeds as that member. *)
Theorem register_then_login (members : list Member) (row_id : string)
    (data : Auth.CreateMemberData) (st : Auth.AuthState) :
  Forall (fun x => email x <> Auth.reg_email data) members ->
  Forall (fun x => username x <> Auth.reg_username data) members ->
  exists created,
    Auth.register hashPassword (Auth.Reachable members) (Auth.Inserted row_id) data st
    = (Auth.establish created st, Auth.succeeded created)
    /\ user_type created = end_user
    /\ status created = "active"
    /\ password_hash created = hashPassword (Auth.reg_password data)
    /\ forall st',
         Auth.login hashPassword (Auth.Reachable (members ++ [created]))
           {| Auth.login_email := Auth.reg_email data;
              Auth.login_password := Auth.reg_password data |} st'
         = (Auth.establish created st', Auth.succeeded created).
Proof.
  intros Hemail Hname. eexists. split; [|split; [|split; [|split]]].
  - unfold Auth.register.
    rewrite (select_eq_email_absent _ _ Hemail).
    assert (Hnone : Auth.select_eq_username members (Auth.reg_username data) = None).
    { unfold Auth.select_eq_username.
      replace (List.filter _ members) with (@nil Member); [done|].
      clear -Hname. induction Hname as [|x l Hx _ IH]; simpl; [done|].
      by destruct (String.eqb_spec (username x) (Auth.reg_username data)). }
    rewrite Hnone. reflexivity.
  - reflexivity.
  - reflexivity.
  - reflexivity.
  - intros st'. unfold Auth.login, Auth.select_eq_email, Auth.verifyPassword.
    cbn [Auth.login_email Auth.login_password].
    rewrite List.filter_app.
    replace (List.filter (fun m => String.eqb (email m) (Auth.reg_email data)) members)
      with (@nil Member).
    + cbn [List.filter email app]. rewrite String.eqb_refl.
      cbn [Auth.single status password_hash]. by rewrite !String.eqb_refl.
    + clear -Hemail. induction Hemail as [|x l Hx _ IH]; simpl; [done|].
      by destruct (String.eqb_spec (email x) (Auth.reg_email data)).
Qed.
End Session.

Lemma single_Some (rows : list Member) (m : Member) :
  Auth.single rows = Some m -> rows = [m].
Proof. destruct rows as [|x [|y rows]]; simpl; congruence. Qed.

(** X15.  After [checkAuth] the provider is not loading and its session is
    consistent: a current member is an active row of the table whose id is
    the stored [member_id]; without current member no usable id is
    stored.  No event is sent. *)
Theorem checkAuth_session_consistent (backend : Auth.Backend)
    (st : Provider.ProviderState) :
  Provider.loading (Provider.checkAuth backend st) = false
  /\ Auth.dispatched (Provider.session (Provider.checkAuth backend st))
     = Auth.dispatched (Provider.session st)
  /\ match Auth.currentMember (Provider.session (Provider.checkAuth backend st)) with
     | Some m =>
         status m = "active"
         /\ Auth.localStorage (Provider.session (Provider.checkAuth backend st))
              !! "member_id" = Some (member_id m)
         /\ exists members, backend = Auth.Reachable members /\ In m members
     | None =>
         Auth.localStorage (Provider.session (Provider.checkAuth backend st))
           !! "member_id" = None
         \/ Auth.localStorage (Provider.session (Provider.checkAuth backend st))
              !! "member_id" = Some ""
     end.
Proof.
  unfold Provider.checkAuth. cbn [Provider.loading Provider.session].
  split; [done|].
  destruct (Auth.localStorage (Provider.session st) !! "member_id") as [memberId|]
    eqn:Hstored.
  - destruct (JS.truthy memberId) eqn:Htruthy.
    + destruct backend as [members|].
      * unfold Provider.select_active_by_id.
        destruct (Auth.single _) as [data|] eqn:Hsingle; cbn.
        -- split; [done|].
           apply single_Some in Hsingle.
           assert (Hin : In data
                           (List.filter
                              (fun m => String.eqb (member_id m) memberId
                                        && String.eqb (status m) "active")
                              members)) by (rewrite Hsingle; by left).
           apply List.filter_In in Hin as [Hin Hok].
           apply andb_true_iff in Hok as [Hid%String.eqb_eq Hst%String.eqb_eq].
           split; [done|]. split; [by rewrite Hid|]. by exists members.
        -- split; [done|]. left. apply lookup_delete_eq.
      * cbn. split; [done|]. left. apply lookup_delete_eq.
    + cbn. split; [done|]. right. rewrite Hstored.
      by destruct memberId.
  - cbn. split; [done|]. by left.
Qed.

Section SessionChecks.
Variable hashPassword : string -> string.

Lemma login_success_inv (members : list Member) (data : Auth.LoginMemberData)
    (st : Auth.AuthState) :
  Auth.success (Auth.login hashPassword (Auth.Reachable members) data st).2 = true ->
  exists m,
    In m members /\ status m = "active"
    /\ Auth.login hashPassword (Auth.Reachable members) data st
       = (Auth.establish m st, Auth.succeeded m).
Proof.
  unfold Auth.login, Auth.select_eq_email.
  destruct (Auth.single _) as [m|] eqn:Hsingle; [|done].
  apply single_Some in Hsingle.
  assert (Hin : In m (List.filter
                        (fun x => String.eqb (email x) (Auth.login_email data)) members))
    by (rewrite Hsingle; by left).
  apply List.filter_In in Hin as [Hin _].
  destruct (String.eqb_spec (status m) "active") as [Hst|_]; [|done].
  cbn [negb]. destruct (negb _); [done|].
  intros _. by exists m.
Qed.

(** X16.  The session of a successful login survives the validation that
    its own event triggers: on a table whose member ids are distinct and
    not empty, [checkAuth] after the login keeps the member and the stored
    id. *)
Theorem login_then_checkAuth (members : list Member) (data : Auth.LoginMemberData)
    (st : Auth.AuthState) (busy : bool) :
  NoDup (map member_id members) ->
  Forall (fun x => member_id x <> "") members ->
  Auth.success (Auth.login hashPassword (Auth.Reachable members) data st).2 = true ->
  Provider.session
    (Provider.checkAuth (Auth.Reachable members)
       {| Provider.session :=
            (Auth.login hashPassword (Auth.Reachable members) data st).1;
          Provider.loading := busy |})
  = (Auth.login hashPassword (Auth.Reachable members) data st).1.
Proof.
  intros Hnd Hids Hok.
  destruct (login_success_inv members data st Hok) as (m & Hin & Hst & ->).
  unfold Provider.checkAuth. cbn [fst Provider.session Auth.establish Auth.localStorage].
  rewrite lookup_insert_eq.
  assert (Htruthy : JS.truthy (member_id m) = true).
  { pose proof (proj1 (List.Forall_forall _ _) Hids m Hin) as Hne.
    cbv beta in Hne. destruct (member_id m); [by destruct Hne|done]. }
  rewrite Htruthy. unfold Provider.select_active_by_id.
  rewrite (filter_unique_key member_id (fun x => String.eqb (status x) "active")
             members m Hnd Hin) by (by rewrite Hst).
  reflexivity.
Qed.
End SessionChecks.

(** X12, witness: a wrong password, and a registration the backend
    refuses. *)
Lemma failed_auth_changes_nothing_witness :
  (Auth.login sample_hash (Auth.Reachable [sample_member end_user "active" "sha:pw"])
     {| Auth.login_email := "ana@example.com"; Auth.login_password := "no" |}
     sample_auth_state).1 = sample_auth_state
  /\ (Auth.register sample_hash (Auth.Reachable []) (Auth.InsertError "refused")
        sample_registration sample_auth_state).1 = sample_auth_state.
Proof.
  split.
  - destruct (failed_auth_changes_nothing sample_hash
                (Auth.Reachable [sample_member end_user "active" "sha:pw"])
                Auth.InsertEmpty
                {| Auth.login_email := "ana@example.com"; Auth.login_password := "no" |}
                sample_registration sample_auth_state) as [Hlogin _].
    exact (Hlogin eq_refl).
  - destruct (failed_auth_changes_nothing sample_hash (Auth.Reachable [])
                (Auth.InsertError "refused") sample_login
                sample_registration sample_auth_state) as [_ Hregister].
    exact (Hregister eq_refl).
Defined.

(** X13, witness: the email, then the username, of a member of the table. *)
Lemma register_rejects_taken_witness :
  Auth.register sample_hash (Auth.Reachable [sample_member end_user "active" ""])
    (Auth.Inserted "m2")
    {| Auth.reg_username := "zed"; Auth.reg_email := "ana@example.com";
       Auth.reg_password := "pw"; Auth.reg_mobile_no := None |}
    sample_auth_state
  = (sample_auth_state, Auth.failure Auth.DuplicateEmail)
  /\ Auth.register sample_hash (Auth.Reachable [sample_member end_user "active" ""])
       (Auth.Inserted "m2")
       {| Auth.reg_username := "ana"; Auth.reg_email := "zed@example.com";
          Auth.reg_password := "pw"; Auth.reg_mobile_no := None |}
       sample_auth_state
     = (sample_auth_state, Auth.failure Auth.DuplicateUsername).
Proof.
  split.
  - destruct (register_rejects_taken sample_hash [sample_member end_user "active" ""]
                (Auth.Inserted "m2")
                {| Auth.reg_username := "zed"; Auth.reg_email := "ana@example.com";
                   Auth.reg_password := "pw"; Auth.reg_mobile_no := None |}
                sample_auth_state (sample_member end_user "active" ""))
      as [Hemail _]; [by left|].
    apply Hemail; [cbn; apply NoDup_singleton|reflexivity].
  - destruct (register_rejects_taken sample_hash [sample_member end_user "active" ""]
                (Auth.Inserted "m2")
                {| Auth.reg_username := "ana"; Auth.reg_email := "zed@example.com";
                   Auth.reg_password := "pw"; Auth.reg_mobile_no := None |}
                sample_auth_state (sample_member end_user "active" ""))
      as [_ Hname]; [by left|].
    apply Hname; [cbn; apply NoDup_singleton| |reflexivity].
    repeat constructor. discriminate.
Defined.

(** X14, witness: a first registration on an empty table. *)
Lemma register_then_login_witness :
  exists created,
    Auth.register sample_hash (Auth.Reachable []) (Auth.Inserted "m2")
      sample_registration sample_auth_state
    = (Auth.establish created sample_auth_state, Auth.succeeded created)
    /\ Auth.login sample_hash (Auth.Reachable [created])
         {| Auth.login_email := "bea@example.com"; Auth.login_password := "pw" |}
         sample_auth_state
       = (Auth.establish created sample_auth_state, Auth.succeeded created).
Proof.
  destruct (register_then_login sample_hash [] "m2" sample_registration
              sample_auth_state)
    as (created & Hreg & _ & _ & _ & Hlogin); [constructor|constructor|].
  exists created. split; [exact Hreg|]. exact (Hlogin sample_auth_state).
Defined.

(** X16, witness. *)
Lemma login_then_checkAuth_witness :
  Auth.currentMember
    (Provider.session
       (Provider.checkAuth (Auth.Reachable [sample_member end_user "active" "sha:pw"])
          {| Provider.session :=
               (Auth.login sample_hash
                  (Auth.Reachable [sample_member end_user "active" "sha:pw"])
                  sample_login sample_auth_state).1;
             Provider.loading := true |}))
  = Some (sample_member end_user "active" "sha:pw").
Proof.
  rewrite (login_then_checkAuth sample_hash
             [sample_member end_user "active" "sha:pw"] sample_login
             sample_auth_state true).
  - reflexivity.
  - cbn. apply NoDup_singleton.
  - repeat constructor. discriminate.
  - reflexivity.
Defined.

(* ================================================================== *)
(** * Further properties of the checkout *)

(** X17.  An order found at mount that is neither approved nor rejected
    changes nothing but the order cells; a stored id without order is
    forgotten; without stored id nothing happens.  In every case the
    form values and the mode stay and the check is marked done. *)
Theorem checkExistingOrder_other_cases
    (fetchOrderById : string -> option Checkout.Order)
    (cartItems : list CartItem) (st : Checkout.State) :
  let st' := Checkout.checkExistingOrder fetchOrderById cartItems st in
  Checkout.isCheckingExistingOrder st' = false
  /\ (Checkout.localStorage st !! "current_order_id" = None ->
      st' = Checkout.finishChecking st)
  /\ (forall stored, Checkout.localStorage st !! "current_order_id" = Some stored ->
        stored <> "" -> fetchOrderById stored = None ->
        st' = Checkout.finishChecking (Checkout.forgetStoredOrder st))
  /\ (forall stored order,
        Checkout.localStorage st !! "current_order_id" = Some stored ->
        stored <> "" -> fetchOrderById stored = Some order ->
        is_open (Checkout.order_status order) ->
        Checkout.localStorage st' = Checkout.localStorage st
        /\ Checkout.orderId st' = Some (Checkout.order_id order)
        /\ Checkout.existingOrderId st' = Some (Checkout.order_id order)
        /\ Checkout.existingOrderStatus st' = Some (Checkout.order_status order)
        /\ Checkout.customFieldValues st' = Checkout.customFieldValues st
        /\ Checkout.useMultipleAccounts st' = Checkout.useMultipleAccounts st).
Proof.
  cbv zeta. unfold Checkout.checkExistingOrder.
  split; [done|]. split; [by intros ->|]. split.
  - intros stored -> Hne ->.
    by replace (JS.truthy stored) with true by (by destruct stored).
  - intros stored order -> Hne -> Hopen.
    replace (JS.truthy stored) with true by (by destruct stored).
    by destruct Hopen as [-> | ->].
Qed.

Lemma checkExistingOrder_other_cases_witness :
  Checkout.localStorage
    (Checkout.checkExistingOrder (fun _ => Some (sample_order Checkout.pending)) []
       (sample_checkout_state false ∅ {["current_order_id" := "o1"]}))
  = {["current_order_id" := "o1"]}
  /\ Checkout.checkExistingOrder (fun _ => None) []
       (sample_checkout_state false ∅ {["current_order_id" := "o1"]})
     = Checkout.finishChecking
         (Checkout.forgetStoredOrder
            (sample_checkout_state false ∅ {["current_order_id" := "o1"]}))
  /\ Checkout.checkExistingOrder (fun _ => None) [] (sample_checkout_state false ∅ ∅)
     = Checkout.finishChecking (sample_checkout_state false ∅ ∅).
Proof.
  split; [|split].
  - destruct (checkExistingOrder_other_cases
                (fun _ => Some (sample_order Checkout.pending)) []
                (sample_checkout_state false ∅ {["current_order_id" := "o1"]}))
      as (_ & _ & _ & Hopen).
    destruct (Hopen "o1" (sample_order Checkout.pending)) as [Hstorage _].
    + apply lookup_singleton_eq.
    + discriminate.
    + reflexivity.
    + by left.
    + exact Hstorage.
  - destruct (checkExistingOrder_other_cases (fun _ => None) []
                (sample_checkout_state false ∅ {["current_order_id" := "o1"]}))
      as (_ & _ & Hgone & _).
    apply (Hgone "o1"); [apply lookup_singleton_eq|discriminate|reflexivity].
  - destruct (checkExistingOrder_other_cases (fun _ => None) []
                (sample_checkout_state false ∅ ∅))
      as (_ & Hnone & _).
    apply Hnone. apply lookup_empty.
Defined.

(** ** The games that ask for fields *)

Lemma has_elem {V : Type} (k : string) (m : list (string * V)) :
  Checkout.has k m = true <-> k ∈ map fst m.
Proof.
  unfold Checkout.has. rewrite existsb_exists. split.
  - intros ([k' v] & Hin & Heq%String.eqb_eq). simpl in Heq. subst.
    apply list_elem_of_In, in_map_iff. by exists (k, v).
  - intros Hin. apply list_elem_of_In, in_map_iff in Hin as ([k' v] & <- & Hin).
    exists (k', v). split; [done|]. apply String.eqb_refl.
Qed.

Lemma keepFirst_fold (cartItems l : list CartItem)
    (acc : list (string * CartItem)) :
  (forall it, In it l -> In it cartItems /\ Checkout.has_fields it = true) ->
  keyed cartItems acc -> NoDup (map fst acc) ->
  keyed cartItems (fold_left keepFirst l acc)
  /\ NoDup (map fst (fold_left keepFirst l acc))
  /\ (forall k, k ∈ map fst acc -> k ∈ map fst (fold_left keepFirst l acc))
  /\ (forall it, In it l ->
        Checkout.originalId it ∈ map fst (fold_left keepFirst l acc)).
Proof.
  revert acc. induction l as [|item l IH]; intros acc Hl Hacc Hnd; simpl.
  - repeat split; [done|done|done|]. by intros it [].
  - assert (Hstep : keyed cartItems (keepFirst acc item)
                    /\ NoDup (map fst (keepFirst acc item))
                    /\ (forall k, k ∈ map fst acc -> k ∈ map fst (keepFirst acc item))
                    /\ Checkout.originalId item ∈ map fst (keepFirst acc item)).
    { unfold keepFirst.
      destruct (Checkout.has (Checkout.originalId item) acc) eqn:Hhas.
      - repeat split; [done|done|done|]. by apply has_elem.
      - assert (Hout : Checkout.originalId item ∉ map fst acc).
        { intros Hin%has_elem. congruence. }
        rewrite map_app. cbn [map fst]. repeat split.
        + apply Forall_app. split; [done|]. repeat constructor; apply Hl; by left.
        + apply NoDup_app. repeat split; [done| |apply NoDup_singleton].
          intros k Hk ->%list_elem_of_singleton. done.
        + intros k Hk. apply elem_of_app. by left.
        + apply elem_of_app. right. by apply list_elem_of_singleton. }
    destruct Hstep as (Hkeyed & Hnd' & Hmono & Hitem).
    destruct (IH (keepFirst acc item)) as (H1 & H2 & H3 & H4);
      [intros it Hit; apply Hl; by right|done|done|].
    repeat split; [done|done| |].
    + intros k Hk. by apply H3, Hmono.
    + intros it [<-|Hit]; [by apply H3|by apply H4].
Qed.

(** X18.  [itemsWithCustomFields] holds one line for every game of the
    cart that defines fields: its lines are cart lines with fields, no two
    of them share an original id, and the game of every cart line with
    fields is among them. *)
Theorem itemsWithCustomFields_one_per_game (cartItems : list CartItem) :
  NoDup (map Checkout.originalId (Checkout.itemsWithCustomFields cartItems))
  /\ (forall it, In it (Checkout.itemsWithCustomFields cartItems) ->
        In it cartItems /\ Checkout.has_fields it = true)
  /\ (forall it, In it cartItems -> Checkout.has_fields it = true ->
        Checkout.originalId it
        ∈ map Checkout.originalId (Checkout.itemsWithCustomFields cartItems)).
Proof.
  unfold Checkout.itemsWithCustomFields.
  change (fun (uniqueItems : list (string * CartItem)) (item : CartItem) =>
            if Checkout.has (Checkout.originalId item) uniqueItems then uniqueItems
            else (uniqueItems ++ [(Checkout.originalId item, item)])%list)
    with keepFirst.
  destruct (keepFirst_fold cartItems (List.filter Checkout.has_fields cartItems) [])
    as (Hkeyed & Hnd & _ & Hcover).
  { intros it Hit. by apply List.filter_In in Hit. }
  { constructor. }
  { constructor. }
  set (res := fold_left keepFirst (List.filter Checkout.has_fields cartItems) [])
    in *.
  assert (Hids : map Checkout.originalId (map snd res) = map fst res).
  { rewrite map_map. apply map_ext_in. intros kv Hkv.
    apply list_elem_of_In in Hkv.
    by destruct (proj1 (Forall_forall _ _) Hkeyed kv Hkv) as [-> _]. }
  rewrite Hids. split; [done|]. split.
  - intros it Hit. apply in_map_iff in Hit as (kv & <- & Hkv).
    apply list_elem_of_In in Hkv.
    by destruct (proj1 (Forall_forall _ _) Hkeyed kv Hkv) as (_ & ? & ?).
  - intros it Hin Hfields. apply Hcover. by apply List.filter_In.
Qed.

(** ** The groups of multiple-accounts mode *)

Lemma upsert_keys {V : Type} (f : option V -> V) (k : string)
    (m : list (string * V)) :
  map fst (Checkout.upsert f k m)
  = if Checkout.has k m then map fst m else (map fst m ++ [k])%list.
Proof.
  unfold Checkout.has. induction m as [|[k' v] m IH]; simpl; [done|].
  destruct (String.eqb k' k); simpl; [done|]. rewrite IH.
  by destruct (existsb _ m).
Qed.

Lemma upsert_NoDup {V : Type} (f : option V -> V) (k : string)
    (m : list (string * V)) :
  NoDup (map fst m) -> NoDup (map fst (Checkout.upsert f k m)).
Proof.
  intros Hnd. rewrite upsert_keys.
  destruct (Checkout.has k m) eqn:Hhas; [done|].
  apply NoDup_app. repeat split; [done| |apply NoDup_singleton].
  intros k' Hk' ->%list_elem_of_singleton.
  apply has_elem in Hk'. congruence.
Qed.

(** What an update adds to the values of a map is added to their
    concatenation. *)
Lemma upsert_content {V : Type} (content : V -> list CartItem)
    (delta : list CartItem) (f : option V -> V) (k : string)
    (m : list (string * V)) :
  content (f None) ≡ₚ delta ->
  (forall v, content (f (Some v)) ≡ₚ content v ++ delta) ->
  concat (map (fun kv => content kv.2) (Checkout.upsert f k m))
  ≡ₚ concat (map (fun kv => content kv.2) m) ++ delta.
Proof.
  intros Hnew Hupd. induction m as [|[k' v] m IH]; simpl.
  - by rewrite Hnew, app_nil_r.
  - destruct (String.eqb k' k); simpl.
    + rewrite Hupd. rewrite <- !app_assoc. apply Permutation_app_head.
      apply Permutation_app_comm.
    + by rewrite IH, app_assoc.
Qed.



(** ** When multiple-accounts mode is offered *)

Lemma size_two (X : gset string) :
  (2 <= size X)%nat <-> exists x y, x <> y /\ x ∈ X /\ y ∈ X.
Proof.
  split.
  - intros Hsize.
    destruct (size_pos_elem_of X) as [x Hx]; [lia|].
    assert (Hrest : (0 < size (X ∖ {[x]}))%nat).
    { rewrite size_difference by (by apply singleton_subseteq_l).
      rewrite size_singleton. lia. }
    destruct (size_pos_elem_of _ Hrest) as [y Hy].
    apply elem_of_difference in Hy as [Hy Hyx].
    exists x, y. repeat split; [|done|done].
    intros ->. apply Hyx. by apply elem_of_singleton.
  - intros (x & y & Hne & Hx & Hy).
    assert (Hsub : ({[x]} ∪ {[y]} : gset string) ⊆ X).
    { intros z [Hz|Hz]%elem_of_union; apply elem_of_singleton in Hz; by subst. }
    apply subseteq_size in Hsub.
    rewrite size_union, !size_singleton in Hsub
      by (by apply disjoint_singleton_l, not_elem_of_singleton).
    lia.
Qed.

Lemma seeVariation_fold (items : list CartItem) (seen : gset string) (x : string) :
  x ∈ fold_left seeVariation items seen
  <-> x ∈ seen
      \/ exists it v, In it items /\ selectedVariation it = Some v /\ variation_id v = x.
Proof.
  revert seen. induction items as [|item items IH]; intros seen; simpl.
  - split; [by left|]. intros [?|(it & v & [] & _)]. done.
  - rewrite IH. unfold seeVariation at 1. split.
    + intros [Hseen|(it & v & Hin & Hv & Hid)].
      * destruct (selectedVariation item) as [v|] eqn:Hsel; [|by left].
        apply elem_of_union in Hseen as [->%elem_of_singleton|Hseen]; [|by left].
        right. exists item, v. by repeat split; [left|..].
      * right. exists it, v. by repeat split; [right|..].
    + intros [Hseen|(it & v & [<-|Hin] & Hv & Hid)].
      * left. destruct (selectedVariation item); [|done].
        apply elem_of_union. by right.
      * left. rewrite Hv. apply elem_of_union. left. by apply elem_of_singleton.
      * right. by exists it, v.
Qed.

Lemma byGame_fold (cartItems l : list CartItem) (acc : list (string * list CartItem)) :
  (forall it, In it l -> In it cartItems) ->
  NoDup (map fst acc) ->
  Forall (fun entry : string * list CartItem =>
            Forall (fun it => Checkout.originalId it = entry.1 /\ In it cartItems)
                   entry.2) acc ->
  NoDup (map fst (fold_left byGame l acc))
  /\ Forall (fun entry : string * list CartItem =>
               Forall (fun it => Checkout.originalId it = entry.1 /\ In it cartItems)
                      entry.2) (fold_left byGame l acc)
  /\ concat (map snd (fold_left byGame l acc)) ≡ₚ concat (map snd acc) ++ l.
Proof.
  revert acc. induction l as [|item l IH]; intros acc Hl Hnd Hacc; simpl.
  - by rewrite app_nil_r.
  - destruct (IH (byGame acc item)) as (H1 & H2 & H3).
    + intros it Hit. apply Hl. by right.
    + by apply upsert_NoDup.
    + apply (upsert_Forall
               (fun g items =>
                  Forall (fun it => Checkout.originalId it = g /\ In it cartItems) items));
        [done| |].
      * repeat constructor. apply Hl. by left.
      * intros items Hitems. apply Forall_app. split; [done|].
        repeat constructor. apply Hl. by left.
    + split; [done|]. split; [done|]. rewrite H3. unfold byGame.
      rewrite (upsert_content (fun items : list CartItem => items) [item]
                 _ _ acc); [by rewrite <- app_assoc|done|done].
Qed.

(** Two entries of a list without repeated keys that share a key are one. *)
Lemma NoDup_keys_same {V : Type} (m : list (string * V)) (k : string) (v1 v2 : V) :
  NoDup (map fst m) -> In (k, v1) m -> In (k, v2) m -> v1 = v2.
Proof.
  induction m as [|[k' v] m IH]; [done|]. simpl.
  intros [Hk Hnd]%NoDup_cons [[= -> ->]|H1] [[= <-]|H2]; try done.
  - destruct Hk. apply list_elem_of_In, in_map_iff. by exists (k, v2).
  - destruct Hk. apply list_elem_of_In, in_map_iff. by exists (k', v1).
  - by apply IH.
Qed.

(** X20.  The multiple-accounts switch is offered exactly when two lines
    of one game select different variations. *)
Theorem hasMultiplePackagesForSameGame_iff (cartItems : list CartItem) :
  Checkout.hasMultiplePackagesForSameGame cartItems = true
  <-> two_packages cartItems.
Proof.
  unfold Checkout.hasMultiplePackagesForSameGame.
  change (fun (m : list (string * list CartItem)) (item : CartItem) =>
            Checkout.upsert (fun o => (default [] o ++ [item])%list)
              (Checkout.originalId item) m)
    with byGame.
  change (fun (seen : gset string) (item : CartItem) =>
            match selectedVariation item with
            | Some v => {[variation_id v]} ∪ seen
            | None => seen
            end)
    with seeVariation.
  destruct (byGame_fold cartItems cartItems []) as (Hnd & Hsound & Hperm);
    [done|constructor|constructor|].
  set (games := fold_left byGame cartItems []) in *.
  simpl in Hperm. rewrite existsb_exists. split.
  - intros ([g items] & Hentry & Hsize). simpl in Hsize.
    apply bool_decide_eq_true, size_two in Hsize as (x & y & Hne & Hx & Hy).
    apply seeVariation_fold in Hx as [Hx|(it1 & v1 & Hin1 & Hv1 & <-)];
      [by apply not_elem_of_empty in Hx|].
    apply seeVariation_fold in Hy as [Hy|(it2 & v2 & Hin2 & Hv2 & <-)];
      [by apply not_elem_of_empty in Hy|].
    apply list_elem_of_In in Hentry.
    pose proof (proj1 (Forall_forall _ _) Hsound _ Hentry) as Hitems.
    simpl in Hitems.
    apply list_elem_of_In in Hin1, Hin2.
    destruct (proj1 (Forall_forall _ _) Hitems _ Hin1) as [Hg1 Hc1].
    destruct (proj1 (Forall_forall _ _) Hitems _ Hin2) as [Hg2 Hc2].
    exists it1, it2, v1, v2. repeat split; try done. congruence.
  - intros (it1 & it2 & v1 & v2 & Hc1 & Hc2 & Hsame & Hv1 & Hv2 & Hne).
    assert (Hgroup : forall it, In it cartItems ->
              exists items, In (Checkout.originalId it, items) games /\ In it items).
    { intros it Hit. apply list_elem_of_In in Hit. rewrite <- Hperm in Hit.
      apply list_elem_of_In, in_concat in Hit as (items & Hitems & Hit).
      apply in_map_iff in Hitems as ([g items'] & <- & Hentry).
      exists items'. split; [|done]. simpl in Hit.
      apply list_elem_of_In in Hentry as Hentry'.
      pose proof (proj1 (Forall_forall _ _) Hsound _ Hentry') as Hall.
      simpl in Hall. apply list_elem_of_In in Hit.
      destruct (proj1 (Forall_forall _ _) Hall _ Hit) as [-> _]. done. }
    destruct (Hgroup it1 Hc1) as (items1 & Hentry1 & Hin1).
    destruct (Hgroup it2 Hc2) as (items2 & Hentry2 & Hin2).
    rewrite <- Hsame in Hentry2.
    pose proof (NoDup_keys_same games _ _ _ Hnd Hentry1 Hentry2) as <-.
    exists (Checkout.originalId it1, items1). split; [done|]. simpl.
    apply bool_decide_eq_true, size_two.
    exists (variation_id v1), (variation_id v2). split; [done|].
    split; apply seeVariation_fold; right.
    + by exists it1, v1.
    + by exists it2, v2.
Qed.

(** X20, example: 100 and 200 Gems of one game. *)
Example hasMultiplePackagesForSameGame_example :
  Checkout.hasMultiplePackagesForSameGame
    [sample_package_line "game:::CART:::1-a" sample_variation;
     sample_package_line "game:::CART:::2-b" sample_variation_200] = true
  /\ Checkout.hasMultiplePackagesForSameGame
       [sample_package_line "game:::CART:::1-a" sample_variation;
        sample_package_line "other:::CART:::2-b" sample_variation_200] = false.
Proof. split; vm_compute; reflexivity. Qed.

(** ** From the form to the order and back *)

Lemma propOf_setProp_eq (k v : string) (o : list (string * string)) :
  Placing.propOf k (Placing.setProp k v o) = Some v.
Proof.
  unfold Placing.propOf, Placing.setProp.
  induction o as [|[k' v'] o IH]; simpl.
  - by rewrite String.eqb_refl.
  - destruct (String.eqb k' k) eqn:Heq; simpl; by rewrite Heq.
Qed.


Lemma propOf_In (k v : string) (o : list (string * string)) :
  Placing.propOf k o = Some v -> In (k, v) o.
Proof.
  unfold Placing.propOf.
  destruct (List.find _ o) as [[k' v']|] eqn:Hfind; [|done].
  apply List.find_some in Hfind as [Hin Heq%String.eqb_eq].
  simpl in Heq. subst. by intros [= <-].
Qed.

Lemma typed_Some (values : gmap string string) (k v : string) :
  values !! k = Some v -> v <> "" -> Placing.typed values k = Some v.
Proof. intros Hv Hne. unfold Placing.typed. rewrite Hv. by destruct v. Qed.




Lemma checkExistingOrder_rejected_single
    (fetchOrderById : string -> option Checkout.Order)
    (cartItems : list CartItem) (st : Checkout.State)
    (stored : string) (order : Checkout.Order) (info : Checkout.CustomerInfo) :
  Checkout.localStorage st !! "current_order_id" = Some stored ->
  stored <> "" ->
  fetchOrderById stored = Some order ->
  Checkout.order_status order = Checkout.rejected ->
  Checkout.customer_info order = Some info ->
  Checkout.multipleAccounts info = None ->
  Checkout.customFieldValues (Checkout.checkExistingOrder fetchOrderById cartItems st)
  = Checkout.loadSingleAccount cartItems (Checkout.entries info)
    ∪ Checkout.customFieldValues st.
Proof.
  intros Hstored Hne Hfetch Hst Hinfo Hmode.
  assert (Htruthy : JS.truthy stored = true) by (by destruct stored).
  unfold Checkout.checkExistingOrder.
  rewrite Hstored, Htruthy, Hfetch, Hst, Hinfo, Hmode.
  cbn -[Checkout.preload]. by rewrite preload_values.
Qed.

(** X21.  The in-game name comes back: on a cart without custom fields, an
    order placed in single-account mode with a name in the default field
    stores it so that, when the order is found rejected at the next mount,
    the default field holds that name again. *)
Theorem rejected_order_restores_ign (cartItems : list CartItem)
    (values : gmap string string) (paymentName : option string) (v : string) :
  Checkout.hasAnyCustomFields cartItems = false ->
  values !! "default_ign" = Some v ->
  v <> "" ->
  exists info,
    Placing.buildCustomerInfo cartItems false values paymentName = Returned info
    /\ forall fetchOrderById st stored order,
         Checkout.localStorage st !! "current_order_id" = Some stored ->
         stored <> "" ->
         fetchOrderById stored = Some order ->
         Checkout.order_status order = Checkout.rejected ->
         Checkout.customer_info order = Some info ->
         Checkout.customFieldValues
           (Checkout.checkExistingOrder fetchOrderById cartItems st)
           !! "default_ign" = Some v.
Proof.
  intros Hany Hv Hne. eexists. split; [reflexivity|].
  intros fetchOrderById st stored order Hstored Hs Hfetch Hst Hinfo.
  rewrite (checkExistingOrder_rejected_single _ _ _ _ _ _ Hstored Hs Hfetch Hst Hinfo)
    by done.
  apply lookup_union_Some_l, loadSingleAccount_default_ign; [done| |].
  - cbn [Checkout.entries]. unfold Placing.singleAccountProps.
    rewrite Hany, (typed_Some _ _ _ Hv Hne).
    apply upsert_NoDup.
    destruct paymentName; [apply (upsert_NoDup _ _ [])|]; constructor.
  - cbn [Checkout.entries]. unfold Placing.singleAccountProps.
    rewrite Hany, (typed_Some _ _ _ Hv Hne).
    apply propOf_In, propOf_setProp_eq.
Qed.


Lemma rejected_order_restores_ign_witness :
  exists info,
    Placing.buildCustomerInfo [] false {["default_ign" := "Ana"]} (Some "GCash")
    = Returned info
    /\ forall fetchOrderById st stored order,
         Checkout.localStorage st !! "current_order_id" = Some stored ->
         stored <> "" ->
         fetchOrderById stored = Some order ->
         Checkout.order_status order = Checkout.rejected ->
         Checkout.customer_info order = Some info ->
         Checkout.customFieldValues (Checkout.checkExistingOrder fetchOrderById [] st)
           !! "default_ign" = Some "Ana".
Proof.
  apply (rejected_order_restores_ign [] {["default_ign" := "Ana"]} (Some "GCash") "Ana").
  - reflexivity.
  - vm_compute. reflexivity.
  - discriminate.
Defined.


(** X23.  [handlePlaceOrderDirect] stores an order only when [createOrder]
    returned one for a request that carries this cart, a payment method
    and a receipt; in every other case it leaves the form, the browser
    store, the order cells and the confirmation window as they were and
    shows an error message. *)
Theorem handlePlaceOrderDirect_stores_only_new_order
    (createOrder : Placing.OrderRequest -> Outcome (option Checkout.Order))
    (paymentMethods : list (string * string)) (cartItems : list CartItem)
    (totalPrice : Q) (paymentMethod receiptImageUrl : option string)
    (st : Placing.PlaceState) :
  let st' :=
    Placing.handlePlaceOrderDirect createOrder paymentMethods cartItems totalPrice
      paymentMethod receiptImageUrl st in
  (exists method receipt info newOrder,
      paymentMethod = Some method /\ method <> ""
      /\ receiptImageUrl = Some receipt /\ receipt <> ""
      /\ createOrder {| Placing.order_items := cartItems;
                        Placing.req_customer_info := info;
                        Placing.payment_method_id := method;
                        Placing.receipt_url := receipt;
                        Placing.total_price := totalPrice |}
         = Returned (Some newOrder)
      /\ Checkout.localStorage (Placing.checkout st') !! "current_order_id"
         = Some (Checkout.order_id newOrder)
      /\ Checkout.existingOrderId (Placing.checkout st')
         = Some (Checkout.order_id newOrder)
      /\ Placing.isOrderModalOpen st' = true
      /\ Placing.receiptError st' = None)
  \/ (Placing.checkout st' = Placing.checkout st
      /\ Placing.isOrderModalOpen st' = Placing.isOrderModalOpen st
      /\ Placing.receiptError st' <> None).
Proof.
  unfold Placing.handlePlaceOrderDirect.
  destruct paymentMethod as [method|]; [|by right].
  destruct method as [|c method]; [by right|].
  destruct receiptImageUrl as [receipt|]; [|by right].
  destruct receipt as [|d receipt]; [by right|].
  cbn [JS.truthy negb].
  destruct (Placing.buildCustomerInfo _ _ _ _) as [info|e]; [|by right].
  destruct (createOrder _) as [[newOrder|]|e] eqn:Hcreate; [|by right|by right].
  left. exists (String c method), (String d receipt), info, newOrder.
  split; [done|]. split; [done|]. split; [done|]. split; [done|].
  split; [exact Hcreate|]. split; [|done].
  cbn [Placing.placed Placing.checkout Checkout.localStorage].
  apply lookup_insert_eq.
Qed.

(** X24.  An order placed and still under way is found again: after
    [handlePlaceOrderDirect] stored the new order, the next mount of the
    checkout, when the server reports that order as pending or processing,
    shows it with the reported status, keeps its id in the browser store
    and leaves the form as typed. *)
Theorem placed_order_found_at_mount
    (createOrder : Placing.OrderRequest -> Outcome (option Checkout.Order))
    (fetchOrderById : string -> option Checkout.Order)
    (paymentMethods : list (string * string)) (cartItems : list CartItem)
    (totalPrice : Q) (paymentMethod receiptImageUrl : option string)
    (st : Placing.PlaceState) (newOrder order : Checkout.Order) :
  let st' :=
    Placing.handlePlaceOrderDirect createOrder paymentMethods cartItems totalPrice
      paymentMethod receiptImageUrl st in
  Placing.isOrderModalOpen st = false ->
  Placing.isOrderModalOpen st' = true ->
  Checkout.orderId (Placing.checkout st') = Some (Checkout.order_id newOrder) ->
  Checkout.order_id newOrder <> "" ->
  fetchOrderById (Checkout.order_id newOrder) = Some order ->
  is_open (Checkout.order_status order) ->
  let mounted :=
    Checkout.checkExistingOrder fetchOrderById cartItems (Placing.checkout st') in
  Checkout.localStorage mounted !! "current_order_id"
    = Some (Checkout.order_id newOrder)
  /\ Checkout.existingOrderId mounted = Some (Checkout.order_id order)
  /\ Checkout.existingOrderStatus mounted = Some (Checkout.order_status order)
  /\ Checkout.customFieldValues mounted
     = Checkout.customFieldValues (Placing.checkout st)
  /\ Checkout.isCheckingExistingOrder mounted = false.
Proof.
  intros st' Hclosed Hopen Hid Hne Hfetch Hstatus mounted.
  assert (Hplaced : exists o, st' = Placing.placed o st) .
  { subst st'. unfold Placing.handlePlaceOrderDirect in *.
    destruct paymentMethod as [method|]; [|simpl in Hopen; congruence].
    destruct (negb (JS.truthy method)); [simpl in Hopen; congruence|].
    destruct receiptImageUrl as [receipt|]; [|simpl in Hopen; congruence].
    destruct (negb (JS.truthy receipt)); [simpl in Hopen; congruence|].
    destruct (Placing.buildCustomerInfo _ _ _ _); [|simpl in Hopen; congruence].
    destruct (createOrder _) as [[o|]|]; try (simpl in Hopen; congruence).
    by exists o. }
  destruct Hplaced as [o Hplaced].
  assert (Ho : Checkout.order_id o = Checkout.order_id newOrder).
  { rewrite Hplaced in Hid. simpl in Hid. congruence. }
  assert (Htruthy : JS.truthy (Checkout.order_id newOrder) = true).
  { by destruct (Checkout.order_id newOrder). }
  subst mounted. rewrite Hplaced. unfold Checkout.checkExistingOrder.
  cbn [Placing.placed Placing.checkout Checkout.localStorage].
  rewrite lookup_insert_eq, Ho, Htruthy, Hfetch. cbn [negb].
  destruct Hstatus as [-> | ->]; cbn; by rewrite lookup_insert_eq.
Qed.

Lemma placed_order_found_at_mount_witness :
  let st' :=
    Placing.handlePlaceOrderDirect sample_createOrder [("gcash", "GCash")] []
      100%Q (Some "gcash") (Some "https://example.com/r.png")
      (sample_place_state ∅) in
  let mounted :=
    Checkout.checkExistingOrder
      (fun _ => Some (sample_order Checkout.processing)) []
      (Placing.checkout st') in
  Checkout.localStorage mounted !! "current_order_id" = Some "o1"
  /\ Checkout.existingOrderId mounted = Some "o1"
  /\ Checkout.existingOrderStatus mounted = Some Checkout.processing
  /\ Checkout.customFieldValues mounted = ∅
  /\ Checkout.isCheckingExistingOrder mounted = false.
Proof.
  refine (placed_order_found_at_mount sample_createOrder
            (fun _ => Some (sample_order Checkout.processing))
            [("gcash", "GCash")] [] 100%Q (Some "gcash")
            (Some "https://example.com/r.png") (sample_place_state ∅)
            {| Checkout.order_id := "o1"; Checkout.order_status := Checkout.pending;
               Checkout.customer_info := None |}
            (sample_order Checkout.processing) _ _ _ _ _ _).
  - reflexivity.
  - reflexivity.
  - reflexivity.
  - discriminate.
  - reflexivity.
  - by right.
Defined.

(** ** The quantity on a catalogue card *)

Lemma matches_with_quantity (item : MenuItem) (q : Z) (c : CartItem) :
  Menu.matches item (with_quantity q c) = Menu.matches item c.
Proof. reflexivity. Qed.

Lemma matching_In (item : MenuItem) (c : CartItem) (l : list CartItem) :
  In c (Menu.matchingCartItems l item) -> In c l /\ Menu.matches item c = true.
Proof. unfold Menu.matchingCartItems. apply filter_In. Qed.

(** On a cart with distinct line ids, setting or removing the first
    matching line touches that line only. *)
Lemma matching_after_update (item : MenuItem) (q : Z) (primary : CartItem)
    (others cart : list CartItem) :
  NoDup (map lineId cart) ->
  Menu.matchingCartItems cart item = primary :: others ->
  Menu.matchingCartItems
    (map (fun c => if String.eqb (id (baseItem c)) (lineId primary)
                   then with_quantity q c else c) cart) item
  = with_quantity q primary :: others
  /\ Menu.matchingCartItems (Cart.removeFromCart (lineId primary) cart) item
     = others.
Proof.
  unfold Menu.matchingCartItems.
  induction cart as [|c cart IH]; [done|].
  intros [Hc Hnd]%NoDup_cons. cbn [List.filter map].
  destruct (Menu.matches item c) eqn:Hm.
  - intros [= -> Hothers].
    change (id (baseItem primary)) with (lineId primary).
    rewrite String.eqb_refl, (update_absent _ _ _ Hc).
    unfold Cart.removeFromCart. rewrite filter_cons.
    destruct (decide (id (baseItem primary) <> lineId primary)) as [Hne|_];
      [by destruct Hne|].
    change (Cart.removeFromCart (lineId primary) cart) with
      (filter (fun c => id (baseItem c) <> lineId primary) cart).
    fold (Cart.removeFromCart (lineId primary) cart).
    rewrite (remove_absent _ _ Hc).
    cbn [List.filter]. by rewrite matches_with_quantity, Hm, Hothers.
  - intros Hrest.
    assert (Hin : In primary cart).
    { apply (proj1 (filter_In (Menu.matches item) primary cart)).
      rewrite Hrest. by left. }
    assert (Hne : id (baseItem c) <> lineId primary).
    { intros Heq. apply Hc. change (id (baseItem c)) with (lineId c) in Heq.
      rewrite Heq. by apply list_elem_of_In, in_map. }
    destruct (IH Hnd Hrest) as [IHset IHdel].
    apply String.eqb_neq in Hne as Hneb. rewrite Hneb.
    unfold Cart.removeFromCart. rewrite filter_cons.
    destruct (decide (id (baseItem c) <> lineId primary)) as [_|Heq];
      [|by destruct Heq].
    cbn [List.filter]. rewrite Hm. split; [exact IHset|exact IHdel].
Qed.

Lemma menu_quantity_cons (c : CartItem) (l : list CartItem) :
  fold_left (fun sum cartItem => sum + quantity cartItem) (c :: l) 0
  = quantity c + Cart.getTotalItems l.
Proof. exact (getTotalItems_cons c l). Qed.

(** X25.  The card's quantity after a change through the card, when the
    menu item has plain lines in the cart: on a cart with distinct line
    ids the first of them gets the new quantity, or is removed when that
    is not positive, and the others are counted as before. *)
Theorem menu_quantity_after_update (locale_le : string -> string -> bool)
    (m : option Member) (suffix : string) (cartItems : list CartItem)
    (item : MenuItem) (qty : Z) (primary : CartItem) (others : list CartItem) :
  NoDup (map lineId cartItems) ->
  Menu.matchingCartItems cartItems item = primary :: others ->
  Menu.quantity (Menu.onUpdateQuantity locale_le m suffix cartItems item qty) item
  = Z.max 0 qty + Cart.getTotalItems others.
Proof.
  intros Hnd Hmatch. unfold Menu.onUpdateQuantity, Menu.quantity. rewrite Hmatch.
  destruct (matching_after_update item qty primary others cartItems Hnd Hmatch)
    as [Hset Hdel].
  unfold Cart.updateQuantity. change (id (baseItem primary)) with (lineId primary).
  destruct (Z.leb_spec qty 0) as [Hle|Hlt].
  - rewrite Hdel. unfold Cart.getTotalItems. lia.
  - rewrite Hset, menu_quantity_cons. cbn [with_quantity quantity]. lia.
Qed.

Lemma menu_quantity_after_update_witness :
  Menu.quantity
    (Menu.onUpdateQuantity String.leb None "3-c"
       [sample_plain_line "a:::CART:::1" 2; sample_plain_line "a:::CART:::2" 1]
       (sample_item "a") 5)
    (sample_item "a")
  = Z.max 0 5 + Cart.getTotalItems [sample_plain_line "a:::CART:::2" 1].
Proof.
  refine (menu_quantity_after_update String.leb None "3-c"
            [sample_plain_line "a:::CART:::1" 2; sample_plain_line "a:::CART:::2" 1]
            (sample_item "a") 5 (sample_plain_line "a:::CART:::1" 2)
            [sample_plain_line "a:::CART:::2" 1] _ _).
  - cbn. apply NoDup_cons. split; [|apply NoDup_singleton].
    by intros ?%list_elem_of_singleton.
  - vm_compute. reflexivity.
Defined.

(** X26.  The card's quantity after a first add through the card: when
    the menu item has no plain line, its id holds no colon and every line
    the cart would merge the call into is a plain line of the item, a
    positive quantity becomes the card's quantity. *)
Theorem menu_quantity_after_first_add (locale_le : string -> string -> bool)
    (m : option Member) (suffix : string) (cartItems : list CartItem)
    (item : MenuItem) (qty : Z) :
  0 < qty ->
  colon_free (id item) ->
  Menu.matchingCartItems cartItems item = [] ->
  (forall c, In c cartItems ->
     Cart.cartItemKey locale_le c = Cart.createItemKey locale_le (id item) None None ->
     Menu.matches item c = true) ->
  Menu.quantity (Menu.onUpdateQuantity locale_le m suffix cartItems item qty) item
  = qty.
Proof.
  intros Hqty Hid Hnone Hmerge.
  unfold Menu.onUpdateQuantity, Menu.quantity. rewrite Hnone.
  destruct (Z.ltb_spec 0 qty) as [_|Hle]; [|lia].
  rewrite addToCart_insert.
  - unfold Menu.matchingCartItems in *. cbn [List.filter].
    unfold Menu.matches at 1.
    cbn [baseItem selectedVariation selectedAddOns].
    change (id (with_id (id item ++ ":::CART:::" ++ suffix) item))
      with (id item ++ ":::CART:::" ++ suffix).
    unfold Cart.originalMenuItemId. rewrite (before_sep_fresh _ _ Hid).
    rewrite String.eqb_refl. cbn [andb Cart.normalizeAddOns length Nat.eqb].
    rewrite Hnone. cbn [fold_left quantity]. lia.
  - destruct (Cart.lines_with_key _ _ cartItems) as [|c l] eqn:Hlines; [done|].
    assert (Hc : c ∈ Cart.lines_with_key locale_le
                   (Cart.createItemKey locale_le (id item) None None) cartItems).
    { rewrite Hlines. left. }
    apply list_elem_of_filter in Hc as [Hkey Hin%list_elem_of_In].
    assert (Hm : In c (Menu.matchingCartItems cartItems item)).
    { apply filter_In. split; [done|]. by apply Hmerge. }
    rewrite Hnone in Hm. destruct Hm.
Qed.

Lemma menu_quantity_after_first_add_witness :
  Menu.quantity
    (Menu.onUpdateQuantity String.leb None "3-c"
       [sample_plain_line "b:::CART:::1" 2] (sample_item "a") 4)
    (sample_item "a")
  = 4.
Proof.
  refine (menu_quantity_after_first_add String.leb None "3-c"
            [sample_plain_line "b:::CART:::1" 2] (sample_item "a") 4 _ _ _ _).
  - lia.
  - repeat constructor; discriminate.
  - vm_compute. reflexivity.
  - intros c [<-|[]]. vm_compute. discriminate.
Defined.

(** ** Bulk input *)

Lemma syncBulkInputs_writes (cartItems : list CartItem) (games : list string)
    (bulkInputValues : list (nat * string)) (values : gmap string string) :
  games <> [] ->
  Bulk.syncBulkInputs cartItems games bulkInputValues values
  = fold_left (fun (m : gmap string string) (kv : string * string) => <[kv.1 := kv.2]> m)
      (bulkWrites (Bulk.selectedItems cartItems games) bulkInputValues) ∅
    ∪ values.
Proof.
  intros Hgames. unfold Bulk.syncBulkInputs.
  destruct games as [|g games]; [done|].
  set (selected := Bulk.selectedItems cartItems (g :: games)).
  assert (Hfold :
    fold_left (fun (m : gmap string string) (kv : string * string) => <[kv.1 := kv.2]> m)
      (bulkWrites selected bulkInputValues) ∅
    = fold_left
        (fun (updates : gmap string string) (entry : nat * string) =>
           fold_left
             (fun (updates : gmap string string) item =>
                match Bulk.fieldAt item entry.1 with
                | Some field =>
                    <[Checkout.originalId item ++ "_" ++ field_key field := entry.2]>
                      updates
                | None => updates
                end) selected updates)
        bulkInputValues ∅).
  { unfold bulkWrites. rewrite fold_left_flat_map. apply fold_left_pointwise.
    intros c entry. rewrite fold_left_flat_map. apply fold_left_pointwise.
    intros c' item. by destruct (Bulk.fieldAt item entry.1). }
  rewrite Hfold. cbv zeta.
  case_bool_decide as Hempty; [|done].
  rewrite Hempty. by rewrite (left_id_L ∅ (∪)).
Qed.

(** X27.  Bulk input fans out by position: what stands in the bulk input
    of a position is written to the field at that position of every
    ticked game, provided no field at another position of a ticked game
    shares the value key. *)
Theorem syncBulkInputs_fans_out (cartItems : list CartItem) (games : list string)
    (bulkInputValues : list (nat * string)) (values : gmap string string)
    (item : CartItem) (i : nat) (field : CustomField) (v : string) :
  In item (Bulk.selectedItems cartItems games) ->
  Bulk.fieldAt item i = Some field ->
  NoDup (map fst bulkInputValues) ->
  In (i, v) bulkInputValues ->
  (forall item' j field',
     In item' (Bulk.selectedItems cartItems games) ->
     Bulk.fieldAt item' j = Some field' ->
     Checkout.originalId item' ++ "_" ++ field_key field'
     = Checkout.originalId item ++ "_" ++ field_key field ->
     j = i) ->
  Bulk.syncBulkInputs cartItems games bulkInputValues values
    !! (Checkout.originalId item ++ "_" ++ field_key field) = Some v.
Proof.
  intros Hitem Hfield Hnd Hin Honly.
  assert (Hgames : games <> []).
  { intros ->. unfold Bulk.selectedItems in Hitem.
    apply filter_In in Hitem as [_ Hex]. discriminate. }
  rewrite (syncBulkInputs_writes _ _ _ _ Hgames).
  apply lookup_union_Some_l, writes_agree.
  - unfold bulkWrites. apply in_flat_map. exists (i, v). split; [done|].
    apply in_flat_map. exists item. split; [done|].
    cbn [fst snd]. rewrite Hfield. by left.
  - intros w Hw. unfold bulkWrites in Hw.
    apply in_flat_map in Hw as [[j w'] [Hentry Hw]].
    apply in_flat_map in Hw as [item' [Hitem' Hw]]. cbn [fst snd] in Hw.
    destruct (Bulk.fieldAt item' j) as [field'|] eqn:Hfield'; [|done].
    destruct Hw as [[= Hkey ->]|[]].
    assert (j = i) as -> by (by apply (Honly item' j field')).
    exact (entries_agree bulkInputValues i w v Hnd Hentry Hin).
Qed.

Lemma syncBulkInputs_fans_out_witness :
  Bulk.syncBulkInputs sample_two_games_with_field ["gameA"; "gameB"] [(0%nat, "Ana")]
    {["gameB_ign" := "old"]}
    !! "gameB_ign" = Some "Ana".
Proof.
  refine (syncBulkInputs_fans_out sample_two_games_with_field ["gameA"; "gameB"]
            [(0%nat, "Ana")] {["gameB_ign" := "old"]}
            (nth 1 sample_two_games_with_field sample_line) 0 sample_field "Ana"
            _ _ _ _ _).
  - vm_compute. right. by left.
  - reflexivity.
  - cbn. apply NoDup_singleton.
  - by left.
  - intros item' j field' Hin. vm_compute in Hin.
    destruct Hin as [<-|[<-|[]]]; destruct j as [|[|j]]; vm_compute; congruence.
Defined.

Lemma max_bound (n : nat) (l : list nat) :
  In n l -> (n <= fold_right Nat.max 0 l)%nat.
Proof.
  induction l as [|x l IH]; [done|]. intros [->|Hin]; cbn [fold_right].
  - lia.
  - specialize (IH Hin). lia.
Qed.

Lemma max_attained (l : list nat) :
  l <> [] -> In (fold_right Nat.max 0%nat l) l.
Proof.
  induction l as [|x l IH]; [done|]. intros _. cbn [fold_right].
  destruct l as [|y l].
  - left. cbn. lia.
  - destruct (Nat.max_spec x (fold_right Nat.max 0%nat (y :: l))) as [[_ ->]|[_ ->]].
    + right. by apply IH.
    + by left.
Qed.

(** X28.  The bulk inputs are exactly the positions at which some ticked
    game has a field: position [i] has a bulk input if and only if a
    ticked game with fields has a field at position [i]. *)
Theorem bulkInputFields_cover (cartItems : list CartItem) (games : list string)
    (i : nat) :
  In i (map fst (Bulk.bulkInputFields cartItems games))
  <-> exists item field,
        In item (Bulk.selectedItems cartItems games)
        /\ Bulk.fieldAt item i = Some field.
Proof.
  assert (Hcount : forall item, (i < Bulk.fieldCount item)%nat
                                <-> exists field, Bulk.fieldAt item i = Some field).
  { intros item. unfold Bulk.fieldCount, Bulk.fieldAt.
    destruct (customFields (baseItem item)) as [fs|].
    - rewrite <- nth_error_Some. destruct (nth_error fs i); split.
      + by eexists.
      + by intros _.
      + by intros [].
      + by intros [? ?].
    - split; [lia|by intros [? ?]]. }
  unfold Bulk.bulkInputFields.
  destruct games as [|g games].
  - split; [done|]. intros (item & field & Hin & _).
    apply filter_In in Hin as [_ Hex]. discriminate.
  - destruct (Bulk.selectedItems cartItems (g :: games)) as [|ref rest] eqn:Hsel.
    + split; [done|]. by intros (item & field & [] & _).
    + rewrite map_map. cbn [fst]. rewrite map_id, in_seq. split.
      * intros [_ Hlt]. cbn [Nat.add] in Hlt.
        pose proof (max_attained (map Bulk.fieldCount (ref :: rest))) as Hmax.
        destruct (in_map_iff Bulk.fieldCount (ref :: rest)
                    (fold_right Nat.max 0%nat (map Bulk.fieldCount (ref :: rest))))
          as [Hsome _].
        destruct (Hsome (Hmax ltac:(done))) as (item & Hitem & Hin).
        rewrite <- Hitem in Hlt. apply Hcount in Hlt as [field Hfield].
        by exists item, field.
      * intros (item & field & Hin & Hfield).
        split; [lia|]. cbn [Nat.add].
        assert (Hlt : (i < Bulk.fieldCount item)%nat) by (apply Hcount; by eexists).
        pose proof (max_bound (Bulk.fieldCount item) (map Bulk.fieldCount (ref :: rest))
                      (in_map _ _ _ Hin)).
        lia.
Qed.

(** ** Closing the order window *)

(** X29.  Closing the order window settles the order as a mount of the
    checkout would: for the order the checkout shows and has stored, both
    leave the same stored id, the same shown status and the same order
    ids, whatever the server reports. *)
Theorem onClose_agrees_with_mount
    (fetchOrderById : string -> option Checkout.Order) (cartItems : list CartItem)
    (st : Placing.PlaceState) (i : string) (order : Checkout.Order) :
  Checkout.orderId (Placing.checkout st) = Some i ->
  Checkout.existingOrderId (Placing.checkout st) = Some i ->
  Checkout.localStorage (Placing.checkout st) !! "current_order_id" = Some i ->
  i <> "" ->
  fetchOrderById i = Some order ->
  Checkout.order_id order = i ->
  let closed := Placing.checkout (OrderWindow.onClose fetchOrderById st) in
  let mounted :=
    Checkout.checkExistingOrder fetchOrderById cartItems (Placing.checkout st) in
  Checkout.localStorage closed = Checkout.localStorage mounted
  /\ Checkout.existingOrderStatus closed = Checkout.existingOrderStatus mounted
  /\ Checkout.orderId closed = Checkout.orderId mounted
  /\ Checkout.existingOrderId closed = Checkout.existingOrderId mounted.
Proof.
  intros Hid Hexisting Hstored Hne Hfetch Horder closed mounted.
  assert (Htruthy : JS.truthy i = true) by (by destruct i).
  subst closed mounted.
  unfold OrderWindow.onClose, Checkout.checkExistingOrder.
  cbn [Placing.checkout].
  rewrite Hid, Hstored, Htruthy, Hfetch, Horder. cbn [negb].
  destruct (Checkout.order_status order); cbn; try done.
  destruct (Checkout.customer_info order) as [info|]; [|done].
  by destruct (Checkout.multipleAccounts info).
Qed.

Lemma onClose_agrees_with_mount_witness :
  let fetchOrderById := fun _ : string => Some (sample_order Checkout.approved) in
  let closed := Placing.checkout (OrderWindow.onClose fetchOrderById sample_placed_state) in
  let mounted :=
    Checkout.checkExistingOrder fetchOrderById [] (Placing.checkout sample_placed_state) in
  Checkout.localStorage closed = Checkout.localStorage mounted
  /\ Checkout.existingOrderStatus closed = Checkout.existingOrderStatus mounted
  /\ Checkout.orderId closed = Checkout.orderId mounted
  /\ Checkout.existingOrderId closed = Checkout.existingOrderId mounted.
Proof.
  refine (onClose_agrees_with_mount
            (fun _ : string => Some (sample_order Checkout.approved)) []
            sample_placed_state "o1" (sample_order Checkout.approved) _ _ _ _ _ _).
  - reflexivity.
  - reflexivity.
  - vm_compute. reflexivity.
  - discriminate.
  - reflexivity.
  - reflexivity.
Defined.

(* ================================================================== *)
(** * The checkout against the specification *)

(** ** First lines *)

Lemma find_first {A : Type} (p : A -> bool) (l : list A) (x : A) :
  List.find p l = Some x
  <-> exists before after,
        l = (before ++ x :: after)%list /\ p x = true
        /\ forall y, In y before -> p y = false.
Proof.
  induction l as [|a l IH]; simpl.
  - split; [discriminate|]. intros (before & after & Heq & _).
    by destruct before.
  - destruct (p a) eqn:Hp.
    + split.
      * intros [= ->]. by exists [], l.
      * intros (before & after & Heq & Hx & Hbefore).
        destruct before as [|y before]; simpl in Heq.
        -- by injection Heq as ->.
        -- injection Heq as -> _. rewrite Hbefore in Hp by (by left). discriminate.
    + rewrite IH. split.
      * intros (before & after & -> & Hx & Hbefore).
        exists (a :: before), after. split; [done|]. split; [done|].
        intros y [<-|Hy]; [done|by apply Hbefore].
      * intros (before & after & Heq & Hx & Hbefore).
        destruct before as [|y before]; simpl in Heq.
        -- injection Heq as -> _. congruence.
        -- injection Heq as -> ->. exists before, after.
           split; [done|]. split; [done|]. intros z Hz. apply Hbefore. by right.
Qed.

Lemma find_first_line (P : CartItem -> Prop) (p : CartItem -> bool)
    (cartItems : list CartItem) (line : CartItem) :
  (forall x, p x = true <-> P x) ->
  List.find p cartItems = Some line <-> first_line P cartItems line.
Proof.
  intros Hp. rewrite find_first. unfold first_line.
  split; intros (before & after & Heq & Hline & Hbefore);
    exists before, after; (split; [done|]); (split; [by apply Hp|]).
  - intros x Hx HP. apply Hp in HP. rewrite (Hbefore x Hx) in HP. discriminate.
  - intros y Hy. destruct (p y) eqn:Hy'; [|done].
    destruct (Hbefore y Hy). by apply Hp.
Qed.

Lemma has_fields_defines (line : CartItem) :
  Checkout.has_fields line = true <-> defines_fields line.
Proof.
  unfold Checkout.has_fields, defines_fields.
  destruct (customFields (baseItem line)) as [[|f fs]|]; split; try done.
  - by intros (? & ? & ?).
  - intros _. by exists f, fs.
  - by intros (? & ? & ?).
Qed.

Lemma variationIdOf_chosen (line : CartItem) :
  Checkout.variationIdOf line = chosenVariationId line.
Proof.
  unfold Checkout.variationIdOf, chosenVariationId.
  destruct (selectedVariation line) as [v|]; [|done]. simpl.
  by destruct (variation_id v).
Qed.

Lemma truthy_nonempty (s : string) : JS.truthy s = true <-> s <> "".
Proof. by destruct s. Qed.

Lemma hasAnyCustomFields_defined (cartItems : list CartItem) :
  Checkout.hasAnyCustomFields cartItems = true <-> fields_defined cartItems.
Proof.
  unfold Checkout.hasAnyCustomFields, Checkout.itemsWithCustomFields.
  change (fun (uniqueItems : list (string * CartItem)) (item : CartItem) =>
            if Checkout.has (Checkout.originalId item) uniqueItems then uniqueItems
            else (uniqueItems ++ [(Checkout.originalId item, item)])%list)
    with keepFirst.
  destruct (keepFirst_fold cartItems (List.filter Checkout.has_fields cartItems) [])
    as (Hkeyed & _ & _ & Hcover).
  { intros it Hit. by apply List.filter_In in Hit. }
  { constructor. }
  { constructor. }
  set (res := fold_left keepFirst (List.filter Checkout.has_fields cartItems) [])
    in *.
  split.
  - destruct res as [|[k it] res]; [done|]. intros _.
    apply Forall_cons in Hkeyed as [(_ & Hin & Hfields) _].
    exists it. split; [done|]. by apply has_fields_defines.
  - intros (line & Hin & Hfields%has_fields_defines).
    assert (Hk : Checkout.originalId line ∈ map fst res).
    { apply Hcover. by apply List.filter_In. }
    destruct res; [by apply elem_of_nil in Hk|done].
Qed.

(** ** The stored accounts of a rejected order *)

Lemma loadMultipleAccounts_writes (cartItems : list CartItem)
    (accounts : list Checkout.Account) :
  Checkout.loadMultipleAccounts cartItems accounts
  = fold_left (fun (m : gmap string string) (kv : string * string) => <[kv.1 := kv.2]> m)
      (flat_map (accountWrites cartItems) accounts) ∅.
Proof.
  unfold Checkout.loadMultipleAccounts. rewrite fold_left_flat_map.
  apply fold_left_pointwise. intros loaded account. unfold accountWrites.
  destruct (List.find _ cartItems) as [matchingItem|]; [|done].
  destruct (Checkout.hasAnyCustomFields cartItems),
    (customFields (baseItem matchingItem)) as [fs|].
  - rewrite fold_left_flat_map. apply fold_left_pointwise. intros m field.
    destruct (Checkout.fields account !! field_label field) as [fieldValue|]; [|done].
    by destruct (JS.truthy fieldValue).
  - destruct (Checkout.fields account !! "IGN") as [ignValue|]; [|done].
    by destruct (JS.truthy ignValue).
  - destruct (Checkout.fields account !! "IGN") as [ignValue|]; [|done].
    by destruct (JS.truthy ignValue).
  - destruct (Checkout.fields account !! "IGN") as [ignValue|]; [|done].
    by destruct (JS.truthy ignValue).
Qed.

Lemma package_line_test (account : Checkout.Account) (item : CartItem) :
  String.eqb (name (baseItem item)) (Checkout.game account)
  && match selectedVariation item with
     | Some v => String.eqb (variation_name v) (Checkout.package account)
     | None => false
     end = true
  <-> package_line account item.
Proof.
  unfold package_line. rewrite andb_true_iff, String.eqb_eq.
  destruct (selectedVariation item) as [v|].
  - rewrite String.eqb_eq. split.
    + intros [Hgame Hpackage]. split; [done|]. by exists v.
    + intros [Hgame (v' & [= <-] & Hpackage)]. done.
  - split; [by intros [_ ?]|]. by intros [_ (? & ? & _)].
Qed.

(** The loader writes exactly what the accounts hold for the inputs of
    their lines. *)
Lemma accountWrites_loads (cartItems : list CartItem) (account : Checkout.Account)
    (k v : string) :
  In (k, v) (accountWrites cartItems account) <-> account_loads cartItems account k v.
Proof.
  unfold accountWrites, account_loads. split.
  - destruct (List.find _ cartItems) as [line|] eqn:Hfind; [|done].
    apply (find_first_line (package_line account)) in Hfind;
      [|intros x; apply package_line_test].
    intros Hin. exists line. split; [done|]. unfold account_value.
    rewrite <- variationIdOf_chosen.
    destruct (Checkout.hasAnyCustomFields cartItems) eqn:Hany.
    + apply hasAnyCustomFields_defined in Hany.
      destruct (customFields (baseItem line)) as [fs|] eqn:Hfs.
      * apply in_flat_map in Hin as (field & Hfield & Hin).
        destruct (Checkout.fields account !! field_label field) as [value|] eqn:Hvalue;
          [|done].
        destruct (JS.truthy value) eqn:Htruthy; [|done].
        destruct Hin as [[= <- <-]|[]].
        split; [by apply truthy_nonempty|]. left. split; [done|]. by exists fs, field.
      * destruct (Checkout.fields account !! "IGN") as [value|] eqn:Hvalue; [|done].
        destruct (JS.truthy value) eqn:Htruthy; [|done].
        destruct Hin as [[= <- <-]|[]].
        split; [by apply truthy_nonempty|]. right. split; [by right|done].
    + assert (Hnone : ~ fields_defined cartItems).
      { intros Hdef%hasAnyCustomFields_defined. congruence. }
      assert (Hign : In (k, v)
                match Checkout.fields account !! "IGN" with
                | Some ignValue =>
                    if JS.truthy ignValue
                    then [("default_" ++ Checkout.originalId line ++ "_"
                           ++ Checkout.variationIdOf line ++ "_ign", ignValue)]
                    else []
                | None => []
                end) by (by destruct (customFields (baseItem line))).
      destruct (Checkout.fields account !! "IGN") as [value|] eqn:Hvalue; [|done].
      destruct (JS.truthy value) eqn:Htruthy; [|done].
      destruct Hign as [[= <- <-]|[]].
      split; [by apply truthy_nonempty|]. right. split; [by left|done].
  - intros (line & Hfirst & Hne & Hvalue).
    apply (find_first_line (package_line account)
             (fun item =>
                String.eqb (name (baseItem item)) (Checkout.game account)
                && match selectedVariation item with
                   | Some v => String.eqb (variation_name v) (Checkout.package account)
                   | None => false
                   end)) in Hfirst; [|intros x; apply package_line_test].
    rewrite Hfirst. rewrite variationIdOf_chosen.
    apply truthy_nonempty in Hne.
    destruct Hvalue as [(Hdef & fs & field & Hfs & Hfield & Hv & ->)
                       |(Hcase & Hv & ->)].
    + apply hasAnyCustomFields_defined in Hdef. rewrite Hdef, Hfs.
      apply in_flat_map. exists field. split; [done|]. rewrite Hv, Hne. by left.
    + assert (Hign : In ("default_" ++ Checkout.originalId line ++ "_"
                         ++ chosenVariationId line ++ "_ign", v)
                match Checkout.fields account !! "IGN" with
                | Some ignValue =>
                    if JS.truthy ignValue
                    then [("default_" ++ Checkout.originalId line ++ "_"
                           ++ chosenVariationId line ++ "_ign", ignValue)]
                    else []
                | None => []
                end) by (rewrite Hv, Hne; by left).
      destruct (Checkout.hasAnyCustomFields cartItems) eqn:Hany.
      * destruct Hcase as [Hnone| ->]; [|done].
        destruct Hnone. by apply hasAnyCustomFields_defined.
      * by destruct (customFields (baseItem line)).
Qed.

(** The values a stored [Multiple Accounts] list loads: an input reads
    what an account holds for it, when the accounts that hold something
    for it agree. *)
Lemma loadMultipleAccounts_value (cartItems : list CartItem)
    (accounts : list Checkout.Account) (account : Checkout.Account) (k v : string) :
  In account accounts ->
  account_loads cartItems account k v ->
  (forall account' v',
     In account' accounts -> account_loads cartItems account' k v' -> v' = v) ->
  Checkout.loadMultipleAccounts cartItems accounts !! k = Some v.
Proof.
  intros Hin Hloads Hagree. rewrite loadMultipleAccounts_writes.
  apply writes_agree.
  - apply in_flat_map. exists account. split; [done|]. by apply accountWrites_loads.
  - intros w Hw. apply in_flat_map in Hw as (account' & Hin' & Hw).
    apply accountWrites_loads in Hw. by apply (Hagree account').
Qed.

(** An account that is for no line of the cart loads nothing: so the
    accounts stored for lines without variation, whose package was
    recorded as [Default] where no variation carries that name. *)
Lemma loadMultipleAccounts_unmatched (cartItems : list CartItem)
    (accounts : list Checkout.Account) :
  (forall account line,
     In account accounts -> In line cartItems -> ~ package_line account line) ->
  Checkout.loadMultipleAccounts cartItems accounts = ∅.
Proof.
  intros Hnone. rewrite loadMultipleAccounts_writes.
  assert (Hnil : flat_map (accountWrites cartItems) accounts = []);
    [|by rewrite Hnil].
  induction accounts as [|account accounts IH]; [done|].
  cbn [flat_map].
  rewrite IH by (intros a line Ha; apply Hnone; by right).
  rewrite app_nil_r.
  destruct (accountWrites cartItems account) as [|[k v] rest] eqn:Hw; [done|].
  assert (Hin : In (k, v) (accountWrites cartItems account)) by (rewrite Hw; by left).
  apply accountWrites_loads in Hin as (line & (before & after & -> & Hline & _) & _).
  destruct (Hnone account line); [by left| |done].
  apply in_app_iff. right. by left.
Qed.

Lemma checkExistingOrder_rejected_accounts
    (fetchOrderById : string -> option Checkout.Order)
    (cartItems : list CartItem) (st : Checkout.State)
    (stored : string) (order : Checkout.Order) (info : Checkout.CustomerInfo)
    (accounts : list Checkout.Account) :
  Checkout.localStorage st !! "current_order_id" = Some stored ->
  stored <> "" ->
  fetchOrderById stored = Some order ->
  Checkout.order_status order = Checkout.rejected ->
  Checkout.customer_info order = Some info ->
  Checkout.multipleAccounts info = Some accounts ->
  Checkout.customFieldValues (Checkout.checkExistingOrder fetchOrderById cartItems st)
  = Checkout.loadMultipleAccounts cartItems accounts ∪ Checkout.customFieldValues st.
Proof.
  intros Hstored Hne Hfetch Hst Hinfo Hmode.
  assert (Htruthy : JS.truthy stored = true) by (by destruct stored).
  unfold Checkout.checkExistingOrder.
  rewrite Hstored, Htruthy, Hfetch, Hst, Hinfo, Hmode.
  cbn -[Checkout.preload]. by rewrite preload_values.
Qed.

(** C2 (amended).  For an order found under the stored id: an approved
    order clears [current_order_id] together with the order cells of the
    component and leaves the form as it is; a rejected order clears
    [current_order_id] as well, keeps the order cells, sets
    multiple-accounts mode iff the stored record has a [Multiple Accounts]
    list, and merges the values loaded from [customer_info] over the form.
    From a single-account record the stored [IGN] lands in the default
    field when no cart line defines custom fields, and the stored value of
    a field's label lands in that field's input otherwise.  From a
    [Multiple Accounts] list every input reads what a stored account
    holds for it: the account is for the first cart line with its game's
    name and its package's variation, the value of a field's label goes to
    that field's input of the line's package, the [IGN] to the default
    input of the package when the cart defines no custom fields or the
    line has none. *)
Theorem checkExistingOrder_closed_order
    (fetchOrderById : string -> option Checkout.Order)
    (cartItems : list CartItem) (st : Checkout.State)
    (stored : string) (order : Checkout.Order) :
  Checkout.localStorage st !! "current_order_id" = Some stored ->
  stored <> "" ->
  fetchOrderById stored = Some order ->
  let st' := Checkout.checkExistingOrder fetchOrderById cartItems st in
  (Checkout.order_status order = Checkout.approved ->
     Checkout.localStorage st' !! "current_order_id" = None
     /\ Checkout.orderId st' = None
     /\ Checkout.existingOrderId st' = None
     /\ Checkout.existingOrderStatus st' = None
     /\ Checkout.customFieldValues st' = Checkout.customFieldValues st
     /\ Checkout.useMultipleAccounts st' = Checkout.useMultipleAccounts st)
  /\
  (Checkout.order_status order = Checkout.rejected ->
     Checkout.localStorage st' !! "current_order_id" = None
     /\ Checkout.orderId st' = Some (Checkout.order_id order)
     /\ Checkout.existingOrderId st' = Some (Checkout.order_id order)
     /\ Checkout.existingOrderStatus st' = Some Checkout.rejected
     /\ forall info, Checkout.customer_info order = Some info ->
          Checkout.useMultipleAccounts st'
          = match Checkout.multipleAccounts info with Some _ => true | None => false end
          /\ Checkout.customFieldValues st'
             = match Checkout.multipleAccounts info with
               | Some accounts => Checkout.loadMultipleAccounts cartItems accounts
               | None => Checkout.loadSingleAccount cartItems (Checkout.entries info)
               end ∪ Checkout.customFieldValues st
          /\ (forall v,
                Checkout.multipleAccounts info = None ->
                Checkout.hasAnyCustomFields cartItems = false ->
                NoDup (map fst (Checkout.entries info)) ->
                In ("IGN", v) (Checkout.entries info) ->
                Checkout.customFieldValues st' !! "default_ign" = Some v)
          /\ (forall item field v,
                Checkout.multipleAccounts info = None ->
                In item (Checkout.itemsWithCustomFields cartItems) ->
                In field (default [] (customFields (baseItem item))) ->
                field_label field <> "Payment Method" ->
                NoDup (map fst (Checkout.entries info)) ->
                In (field_label field, v) (Checkout.entries info) ->
                (forall slot, In slot (fieldSlots cartItems) ->
                   slot.1 = Checkout.originalId item ++ "_" ++ field_key field ->
                   slot.2 = field_label field) ->
                Checkout.customFieldValues st'
                  !! (Checkout.originalId item ++ "_" ++ field_key field) = Some v)
          /\ (forall accounts account k v,
                Checkout.multipleAccounts info = Some accounts ->
                In account accounts ->
                account_loads cartItems account k v ->
                (forall account' v',
                   In account' accounts ->
                   account_loads cartItems account' k v' -> v' = v) ->
                Checkout.customFieldValues st' !! k = Some v)).
Proof.
  intros Hstored Hne Hfetch st'.
  assert (Htruthy : JS.truthy stored = true) by (by destruct stored).
  split.
  - subst st'. unfold Checkout.checkExistingOrder.
    rewrite Hstored, Htruthy, Hfetch. cbn [negb].
    intros Hst. rewrite Hst. cbn.
    repeat split. apply lookup_delete_eq.
  - intros Hst.
    assert (Hcells :
      Checkout.localStorage st' !! "current_order_id" = None
      /\ Checkout.orderId st' = Some (Checkout.order_id order)
      /\ Checkout.existingOrderId st' = Some (Checkout.order_id order)
      /\ Checkout.existingOrderStatus st' = Some Checkout.rejected
      /\ forall info, Checkout.customer_info order = Some info ->
           Checkout.useMultipleAccounts st'
           = match Checkout.multipleAccounts info with Some _ => true | None => false end).
    { subst st'. unfold Checkout.checkExistingOrder.
      rewrite Hstored, Htruthy, Hfetch, Hst. cbn [negb Checkout.is_closed].
      split; [apply lookup_delete_eq|].
      split; [by destruct (Checkout.customer_info order) as [[[?|] ?]|]|].
      split; [by destruct (Checkout.customer_info order) as [[[?|] ?]|]|].
      split; [by destruct (Checkout.customer_info order) as [[[?|] ?]|]|].
      intros info ->. by destruct (Checkout.multipleAccounts info). }
    destruct Hcells as (Hstorage & Hid & Hexisting & Hstatus & Hmode).
    split; [done|]. split; [done|]. split; [done|]. split; [done|].
    intros info Hinfo. split; [by apply Hmode|].
    assert (Hvalues :
      Checkout.customFieldValues st'
      = match Checkout.multipleAccounts info with
        | Some accounts => Checkout.loadMultipleAccounts cartItems accounts
        | None => Checkout.loadSingleAccount cartItems (Checkout.entries info)
        end ∪ Checkout.customFieldValues st).
    { subst st'. destruct (Checkout.multipleAccounts info) as [accounts|] eqn:Hm.
      - by apply (checkExistingOrder_rejected_accounts _ _ _ stored order info).
      - by apply (checkExistingOrder_rejected_single _ _ _ stored order info). }
    split; [exact Hvalues|]. rewrite Hvalues. split; [|split].
    + intros v -> Hany Hnd Hin.
      apply lookup_union_Some_l. by apply loadSingleAccount_default_ign.
    + intros item field v -> Hitem Hfield Hpm Hnd Hin Hslots.
      apply lookup_union_Some_l. by apply loadSingleAccount_field.
    + intros accounts account k v -> Hin Hloads Hagree.
      apply lookup_union_Some_l.
      by apply (loadMultipleAccounts_value cartItems accounts account).
Qed.

(** C2, witness: a rejected single-account order with a stored [IGN], on a
    cart without custom fields, and a rejected order with one stored
    account, on a cart that holds its package. *)
Lemma checkExistingOrder_closed_order_witness :
  (Checkout.localStorage sample_after_rejected !! "current_order_id" = None
   /\ Checkout.existingOrderStatus sample_after_rejected = Some Checkout.rejected
   /\ Checkout.customFieldValues sample_after_rejected !! "default_ign" = Some "Ana")
  /\ Checkout.customFieldValues
       (Checkout.checkExistingOrder (fun _ => Some sample_accounts_order)
          sample_package_cart
          (sample_checkout_state false ∅ {["current_order_id" := "o1"]}))
       !! "default_game_v100_ign" = Some "Ana".
Proof.
  split.
  - destruct (checkExistingOrder_closed_order
                (fun _ => Some (sample_order Checkout.rejected)) []
                (sample_checkout_state false ∅ {["current_order_id" := "o1"]})
                "o1" (sample_order Checkout.rejected))
      as [_ Hrejected].
    + apply lookup_singleton_eq.
    + discriminate.
    + reflexivity.
    + destruct (Hrejected eq_refl) as (Hstorage & _ & _ & Hstatus & Hinfo).
      destruct (Hinfo _ eq_refl) as (_ & _ & Hign & _).
      split; [exact Hstorage|]. split; [exact Hstatus|].
      apply Hign; [reflexivity|reflexivity| |].
      * cbn. apply NoDup_cons. split; [|apply NoDup_singleton].
        by intros ?%list_elem_of_singleton.
      * right. by left.
  - destruct (checkExistingOrder_closed_order
                (fun _ => Some sample_accounts_order) sample_package_cart
                (sample_checkout_state false ∅ {["current_order_id" := "o1"]})
                "o1" sample_accounts_order)
      as [_ Hrejected].
    + apply lookup_singleton_eq.
    + discriminate.
    + reflexivity.
    + destruct (Hrejected eq_refl) as (_ & _ & _ & _ & Hinfo).
      destruct (Hinfo _ eq_refl) as (_ & _ & _ & _ & Haccounts).
      apply (Haccounts [sample_account] sample_account).
      * reflexivity.
      * by left.
      * exists (sample_package_line "game:::CART:::1-a" sample_variation).
        split.
        -- exists [], []. split; [reflexivity|]. split; [|by intros x []].
           split; [reflexivity|]. by exists sample_variation.
        -- split; [discriminate|]. right. split; [by right|].
           split; [vm_compute; reflexivity|vm_compute; reflexivity].
      * intros account' v' [<-|[]] (line & (before & after & Heq & _) & _ & Hvalue).
        destruct Hvalue as [(_ & fs & field & Hfs & _)|(_ & Hv & _)].
        -- destruct before as [|x before]; [|by destruct before].
           injection Heq as <-. discriminate Hfs.
        -- vm_compute in Hv. by injection Hv as <-.
Defined.

(** C2, counterexample: after a rejected order is fetched the stored
    [current_order_id] is gone. *)
Lemma rejected_order_forgets_stored_id :
  Checkout.localStorage sample_after_rejected !! "current_order_id" = None.
Proof. vm_compute. reflexivity. Qed.

(** ** The inputs the details step requires *)



Lemma first_line_In (P : CartItem -> Prop) (l : list CartItem) (line : CartItem) :
  first_line P l line -> In line l /\ P line.
Proof.
  intros (before & after & -> & Hline & _). split; [|done].
  apply in_app_iff. right. by left.
Qed.















Lemma first_line_exists (P : CartItem -> Prop) (p : CartItem -> bool)
    (l : list CartItem) (x : CartItem) :
  (forall y, p y = true <-> P y) ->
  In x l -> P x -> exists first, first_line P l first.
Proof.
  intros Hp Hin HP. destruct (List.find p l) as [first|] eqn:Hfind.
  - exists first. by apply (find_first_line P p).
  - apply (List.find_none _ _ Hfind) in Hin. apply Hp in HP. congruence.
Qed.

(** On a cart whose lines carry the fields of their games, the required
    inputs are those of the claim as it is written. *)
Lemma claimed_blank_per_game (cartItems : list CartItem) (multi : bool)
    (values : gmap string string) :
  fields_per_game cartItems ->
  claimed_blank cartItems multi values <-> required_blank cartItems multi values.
Proof.
  intros Hgames. unfold claimed_blank, required_blank. destruct multi.
  - split.
    + intros [(Hnone & line & Hline & Hblank)
             |(line & fs & field & Hline & Hfs & Hfield & Hreq & Hblank)].
      * right. split; [done|]. by exists line.
      * left. split.
        { exists line. split; [done|]. destruct fs as [|f fs]; [done|]. by exists f, fs. }
        destruct (first_line_exists
                    (fun x => Checkout.originalId x = Checkout.originalId line)
                    (fun x => String.eqb (Checkout.originalId x)
                                (Checkout.originalId line))
                    cartItems line) as [firstItem Hfirst];
          [intros y; apply String.eqb_eq|done|done|].
        destruct (first_line_In _ _ _ Hfirst) as [Hin Hid].
        exists line, firstItem, fs, field. split; [done|]. split; [done|].
        split; [|done]. rewrite <- Hfs. by apply Hgames.
    + intros [(Hdef & line & firstItem & fs & field & Hline & Hfirst & Hfs & Hfield
               & Hreq & Hblank)
             |(Hnone & line & Hline & Hblank)].
      * right. exists line, fs, field. split; [done|]. split; [|done].
        destruct (first_line_In _ _ _ Hfirst) as [Hin Hid].
        rewrite <- Hfs. by apply Hgames.
      * left. split; [done|]. by exists line.
  - split.
    + intros [(Hnone & Hblank)
             |(line & fs & field & Hline & Hfs & Hfield & Hreq & Hblank)].
      * by right.
      * left.
        assert (Hdef : defines_fields line).
        { destruct fs as [|f fs]; [done|]. by exists f, fs. }
        destruct (first_line_exists
                    (fun x => defines_fields x
                              /\ Checkout.originalId x = Checkout.originalId line)
                    (fun x => Checkout.has_fields x
                              && String.eqb (Checkout.originalId x)
                                   (Checkout.originalId line))
                    cartItems line) as [firstItem Hfirst];
          [|done|done|].
        { intros y. rewrite andb_true_iff, has_fields_defines, String.eqb_eq. tauto. }
        destruct (first_line_In _ _ _ Hfirst) as [Hin [_ Hid]].
        exists firstItem, fs, field. rewrite Hid. split; [exact Hfirst|].
        split; [|done]. rewrite <- Hfs. by apply Hgames.
    + intros [(line & fs & field & Hfirst & Hfs & Hfield & Hreq & Hblank)
             |(Hnone & Hblank)].
      * right. exists line, fs, field. split; [|done].
        by destruct (first_line_In _ _ _ Hfirst).
      * by left.
Qed.
